(** * URL-rewriting proxies of the Zotero connector

    A shallow embedding of [src/browserExt/proxy.js]: the scheme compiler
    ([Zotero.Proxy.prototype.compileRegexp]), the two URL transforms
    ([toProper], [toProxy]), the registry ([Zotero.Proxies.save],
    [proxyToProper], [properToProxy]), the redirect decision
    ([_maybeRedirect]), the host blacklist ([_isBlacklisted]), the request
    headers ([storeRequestHeaders], [_processHeaders]), the check by domain
    ([updateDisabledByDomain]), the observer ([observe], [init]) and the
    EZProxy and Juniper detectors with the listener of a probe.

    JavaScript strings are [string]s of bytes: a character outside ASCII
    is held as the bytes of its UTF-8 encoding, and lengths and positions
    count bytes.  The functions on strings follow JavaScript on every
    string of ASCII characters.  Of the characters outside ASCII they know
    the white space that [trim] removes, the line separators that [.] does
    not accept and the sequences that [decodeURI] accepts; they do not
    know their letter case ([toLowerCase] changes the letters of ASCII
    only) or the IDN form of a host name.

    JavaScript objects used as dictionaries are [gmap]s of their own
    properties (association lists where the enumeration order of
    [for .. in] is observable), with the properties they inherit from
    [Object.prototype] accounted for where the file reads them by a key it
    does not choose; objects shared by reference live in a heap indexed by
    an identifier; regular expressions are interpreted by a backtracking
    matcher that follows the ECMAScript semantics on the syntax this file
    uses. *)

From Stdlib Require Import ZArith Ascii String List Bool Lia.
From stdpp Require Import base option gmap strings list.

Local Open Scope string_scope.
Local Open Scope Z_scope.

(** ** Completions

    A JavaScript call either returns a value or throws. *)

Inductive completion (A : Type) : Type :=
| Return (a : A)
| Throw (e : string).
Arguments Return {A} a.
Arguments Throw {A} e.

Definition bind {A B : Type} (c : completion A) (k : A -> completion B) : completion B :=
  match c with
  | Return a => k a
  | Throw e => Throw e
  end.

Notation "'do' x <- c ; k" := (bind c (fun x => k))
  (at level 10, x name, c at level 100, k at level 200).

(** ** JavaScript strings and values *)

Module JS.

Definition is_upper (c : ascii) : bool :=
  let n := nat_of_ascii c in ((65 <=? n) && (n <=? 90))%nat.
Definition is_lower (c : ascii) : bool :=
  let n := nat_of_ascii c in ((97 <=? n) && (n <=? 122))%nat.
Definition is_digit (c : ascii) : bool :=
  let n := nat_of_ascii c in ((48 <=? n) && (n <=? 57))%nat.
Definition is_alnum (c : ascii) : bool := is_upper c || is_lower c || is_digit c.

Definition lower (c : ascii) : ascii :=
  if is_upper c then ascii_of_nat (nat_of_ascii c + 32) else c.
Definition upper (c : ascii) : ascii :=
  if is_lower c then ascii_of_nat (nat_of_ascii c - 32) else c.

(** [s.toLowerCase()] *)
Fixpoint toLowerCase (s : string) : string :=
  match s with
  | EmptyString => EmptyString
  | String c s' => String (lower c) (toLowerCase s')
  end.

(** [s.substr(n)] for [0 <= n] *)
Fixpoint drop (n : nat) (s : string) : string :=
  match n, s with
  | O, _ => s
  | S n', String _ s' => drop n' s'
  | S _, EmptyString => EmptyString
  end.

(** [s.substr(0, n)] for [0 <= n] *)
Fixpoint take (n : nat) (s : string) : string :=
  match n, s with
  | S n', String c s' => String c (take n' s')
  | _, _ => EmptyString
  end.

(** [s.substr(start)]: a negative start counts from the end. *)
Definition substr_from (s : string) (start : Z) : string :=
  if start <? 0
  then drop (Z.to_nat (Z.max 0 (Z.of_nat (String.length s) + start))) s
  else drop (Z.to_nat start) s.

(** [s.substr(start, len)]: a length that is not positive gives the empty string. *)
Definition substr (s : string) (start len : Z) : string :=
  if len <=? 0 then EmptyString else take (Z.to_nat len) (substr_from s start).

(** [s.startsWith(pat)] *)
Fixpoint prefix (pat s : string) : bool :=
  match pat, s with
  | EmptyString, _ => true
  | String a pat', String b s' => Ascii.eqb a b && prefix pat' s'
  | String _ _, EmptyString => false
  end.

(** First position [>= i] of [pat] in [s], where [s] is the part of the
    subject from position [i] on. *)
Fixpoint find (pat s : string) (i : nat) : option nat :=
  if prefix pat s then Some i
  else match s with
       | EmptyString => None
       | String _ s' => find pat s' (S i)
       end.

(** [s.indexOf(pat, from)]; [-1] when there is no occurrence. *)
Definition indexOf (s pat : string) (from : Z) : Z :=
  let k := Nat.min (Z.to_nat (Z.max 0 from)) (String.length s) in
  match find pat (drop k s) k with
  | Some i => Z.of_nat i
  | None => -1
  end.

(** Last position of the character [c] in [s], where [s] starts at position [i]. *)
Fixpoint find_last (c : ascii) (s : string) (i : nat) : option nat :=
  match s with
  | EmptyString => None
  | String c' s' =>
      match find_last c s' (S i) with
      | Some j => Some j
      | None => if Ascii.eqb c c' then Some i else None
      end
  end.

(** [s.lastIndexOf(c)] for a one-character string [c] *)
Definition lastIndexOf (s : string) (c : ascii) : Z :=
  match find_last c s 0 with
  | Some i => Z.of_nat i
  | None => -1
  end.

(** [s[i]]: [None] is [undefined] *)
Definition charAt (s : string) (i : Z) : option ascii :=
  if i <? 0 then None else String.get (Z.to_nat i) s.

(** [s.replace(pat, by)] with a string pattern: the first occurrence only.
    The replacement strings of this file contain no [$]. *)
Definition replace_first (s pat by_ : string) : string :=
  match find pat s 0 with
  | Some i => take i s +:+ by_ +:+ drop (i + String.length pat) s
  | None => s
  end.

(** A value that may be [undefined] or [null], used in a string context
    ([ToString]). *)
Definition str_undefined (v : option string) : string :=
  match v with Some s => s | None => "undefined" end.
Definition str_null (v : option string) : string :=
  match v with Some s => s | None => "null" end.

(** Truthiness of a string that may be absent. *)
Definition truthy (v : option string) : bool :=
  match v with
  | Some s => negb (String.eqb s "")
  | None => false
  end.

(** The primitive values that meet in [Array.prototype.indexOf] and [==]. *)
Inductive value : Type :=
| VNull
| VNum (n : Z)
| VStr (s : string).

Definition of_option (v : option string) : value :=
  match v with Some s => VStr s | None => VNull end.

(** [===] *)
Definition strict_eq (a b : value) : bool :=
  match a, b with
  | VNull, VNull => true
  | VNum x, VNum y => x =? y
  | VStr x, VStr y => String.eqb x y
  | _, _ => false
  end.

(** [arr.indexOf(v)] *)
Fixpoint array_indexOf_from (arr : list value) (v : value) (i : Z) : Z :=
  match arr with
  | nil => -1
  | x :: arr' => if strict_eq x v then i else array_indexOf_from arr' v (i + 1)
  end.
Definition array_indexOf (arr : list value) (v : value) : Z :=
  array_indexOf_from arr v 0.

(** [arr.indexOf(s)] on an array of strings *)
Fixpoint strings_indexOf_from (arr : list string) (s : string) (i : Z) : Z :=
  match arr with
  | nil => -1
  | x :: arr' => if String.eqb x s then i else strings_indexOf_from arr' s (i + 1)
  end.
Definition strings_indexOf (arr : list string) (s : string) : Z :=
  strings_indexOf_from arr s 0.

(** [a == b] between values that are strings or [null]/[undefined] *)
Definition loose_eq (a b : option string) : bool :=
  match a, b with
  | Some x, Some y => String.eqb x y
  | None, None => true
  | _, _ => false
  end.

(** [s] with its characters in the reverse order. *)
Fixpoint reverse (s : string) : string :=
  match s with
  | EmptyString => EmptyString
  | String c s' => reverse s' +:+ String c EmptyString
  end.

Definition bytes (l : list nat) : string := string_of_list_ascii (map ascii_of_nat l).

(** The white space and the line terminators of ECMAScript, each as the
    bytes of its UTF-8 encoding: U+0009 to U+000D, U+0020, U+00A0, U+1680,
    U+2000 to U+200A, U+2028, U+2029, U+202F, U+205F, U+3000 and U+FEFF. *)
Definition whiteSpace : list string :=
  Eval vm_compute in
    map bytes
      [[9]; [10]; [11]; [12]; [13]; [32]; [194; 160]; [225; 154; 128];
       [226; 128; 128]; [226; 128; 129]; [226; 128; 130]; [226; 128; 131];
       [226; 128; 132]; [226; 128; 133]; [226; 128; 134]; [226; 128; 135];
       [226; 128; 136]; [226; 128; 137]; [226; 128; 138]; [226; 128; 168];
       [226; 128; 169]; [226; 128; 175]; [226; 129; 159]; [227; 128; 128];
       [239; 187; 191]]%nat.

(** [s] without the first of the sequences [ws] that it starts with. *)
Fixpoint strip_one (ws : list string) (s : string) : option string :=
  match ws with
  | nil => None
  | w :: ws' =>
      if prefix w s then Some (drop (String.length w) s) else strip_one ws' s
  end.

(** [s] without the sequences of [ws] in front of it; each round takes a
    character off at least, so the length of [s] bounds their number. *)
Fixpoint strip_all (ws : list string) (fuel : nat) (s : string) : string :=
  match fuel with
  | O => s
  | S fuel' =>
      match strip_one ws s with
      | Some s' => strip_all ws fuel' s'
      | None => s
      end
  end.

Definition trimStart (s : string) : string := strip_all whiteSpace (String.length s) s.

Definition trimEnd (s : string) : string :=
  reverse (strip_all (map reverse whiteSpace) (String.length s) (reverse s)).

(** [s.trim()] *)
Definition trim (s : string) : string := trimEnd (trimStart s).

(** [/\s/.test(s)] *)
Fixpoint has_space (s : string) : bool :=
  existsb (fun w => prefix w s) whiteSpace
  || match s with
     | String _ s' => has_space s'
     | EmptyString => false
     end.

(** [cs.indexOf(c) != -1] for a character [c] *)
Definition mem (c : ascii) (cs : string) : bool :=
  match find (String c EmptyString) cs 0 with Some _ => true | None => false end.

Definition hex_value (c : ascii) : option nat :=
  let n := nat_of_ascii c in
  if is_digit c then Some (n - 48)%nat
  else if ((65 <=? n) && (n <=? 70))%nat then Some (n - 55)%nat
  else if ((97 <=? n) && (n <=? 102))%nat then Some (n - 87)%nat
  else None.

Definition hex_digit (n : nat) : ascii :=
  if (n <? 10)%nat then ascii_of_nat (48 + n) else ascii_of_nat (55 + n).

(** The escape [%XX] of the byte [c]. *)
Definition percent (c : ascii) : string :=
  let n := nat_of_ascii c in
  String "%" (String (hex_digit (n / 16)) (String (hex_digit (n mod 16)) EmptyString)).

(** The byte of the escape [%XX] that [s] starts with, and what follows
    the escape. *)
Definition escaped_byte (s : string) : option (nat * string) :=
  match s with
  | String "%" (String a (String b s')) =>
      match hex_value a, hex_value b with
      | Some x, Some y => Some ((16 * x + y)%nat, s')
      | _, _ => None
      end
  | _ => None
  end.

(** The [n] escapes of continuation bytes ([10xxxxxx]) that [s] starts
    with, and what follows them. *)
Fixpoint continuation (n : nat) (s : string) : option (list nat * string) :=
  match n with
  | O => Some (nil, s)
  | S n' =>
      match escaped_byte s with
      | Some (b, s') =>
          if ((128 <=? b) && (b <? 192))%nat then
            match continuation n' s' with
            | Some (bs, rest) => Some (b :: bs, rest)
            | None => None
            end
          else None
      | None => None
      end
  end.

(** The number of continuation bytes that the leading byte [b] announces;
    [None] for a byte that leads no sequence. *)
Definition announced (b : nat) : option nat :=
  if (b <? 192)%nat then None
  else if (b <? 224)%nat then Some 1%nat
  else if (b <? 240)%nat then Some 2%nat
  else if (b <? 248)%nat then Some 3%nat
  else None.

(** The bytes [b :: bs] are the UTF-8 encoding of a code point: not
    longer than needed, no surrogate, not above U+10FFFF. *)
Definition utf8 (b : nat) (bs : list nat) : bool :=
  match bs with
  | [_] => (194 <=? b)%nat
  | [b1; _] =>
      if (b =? 224)%nat then (160 <=? b1)%nat
      else if (b =? 237)%nat then (b1 <? 160)%nat
      else true
  | [b1; _; _] =>
      if (b =? 240)%nat then (144 <=? b1)%nat
      else if (b =? 244)%nat then (b1 <? 144)%nat
      else (b <? 244)%nat
  | _ => false
  end.

(** [Decode(string, reservedSet)] of ECMAScript: an escape of a character
    of [reservedSet] is left as it is, an escape sequence that is not the
    UTF-8 encoding of a code point throws [URIError].  Each round takes a
    character off at least. *)
Fixpoint Decode (reservedSet : string) (fuel : nat) (s : string) : completion string :=
  match fuel with
  | O => Return s
  | S fuel' =>
      match s with
      | EmptyString => Return EmptyString
      | String c s' =>
          if Ascii.eqb c "%" then
            match escaped_byte s with
            | None => Throw "URIError"
            | Some (b, rest) =>
                if (b <? 128)%nat then
                  do tail <- Decode reservedSet fuel' rest;
                  if mem (ascii_of_nat b) reservedSet
                  then Return (take 3 s +:+ tail)
                  else Return (String (ascii_of_nat b) tail)
                else
                  match announced b with
                  | None => Throw "URIError"
                  | Some n =>
                      match continuation n rest with
                      | None => Throw "URIError"
                      | Some (bs, rest') =>
                          if utf8 b bs then
                            do tail <- Decode reservedSet fuel' rest';
                            Return (bytes (b :: bs) +:+ tail)
                          else Throw "URIError"
                      end
                  end
            end
          else do tail <- Decode reservedSet fuel' s'; Return (String c tail)
      end
  end.

(** [decodeURI(s)] *)
Definition decodeURI (s : string) : completion string :=
  Decode ";/?:@&=+$,#" (String.length s) s.

(** [decodeURIComponent(s)] *)
Definition decodeURIComponent (s : string) : completion string :=
  Decode "" (String.length s) s.

(** [encodeURIComponent(s)]: every byte but those of the letters, the
    digits and [-_.!~*'()] is escaped. *)
Fixpoint encodeURIComponent (s : string) : string :=
  match s with
  | EmptyString => EmptyString
  | String c s' =>
      if is_alnum c || mem c "-_.!~*'()" then String c (encodeURIComponent s')
      else percent c +:+ encodeURIComponent s'
  end.

(** The names of the properties of [Object.prototype], which every plain
    object answers when it has no property of its own by that name; none
    of their values is falsy. *)
Definition inherited (k : string) : bool :=
  existsb (String.eqb k)
    ["constructor"; "__defineGetter__"; "__defineSetter__"; "hasOwnProperty";
     "__lookupGetter__"; "__lookupSetter__"; "isPrototypeOf"; "propertyIsEnumerable";
     "toString"; "valueOf"; "__proto__"; "toLocaleString"].

End JS.

(** ** Regular expressions

    The syntax tree, a parser for the pattern syntax that [compileRegexp]
    can emit and that the regular-expression literals of the file use, and
    a backtracking matcher with the ECMAScript priorities: alternatives
    left to right, greedy quantifiers longest first, lazy ones shortest
    first, an iteration that consumes nothing is rejected. *)

Module RegExp.

Inductive regex : Type :=
| Eps
| Chr (c : ascii)
| Any                                     (* [.] *)
| Cls (neg : bool) (rs : list (ascii * ascii))
| Bol                                     (* [^] *)
| Eol                                     (* [$] *)
| Seq (r1 r2 : regex)
| Alt (r1 r2 : regex)
| Star (greedy : bool) (r : regex)
| Grp (n : nat) (r : regex).              (* capturing group number [n] *)

Definition Plus (greedy : bool) (r : regex) : regex := Seq r (Star greedy r).
Definition Opt (greedy : bool) (r : regex) : regex :=
  if greedy then Alt r Eps else Alt Eps r.

Definition seq_of_list (l : list regex) : regex := fold_right Seq Eps l.

(** *** Parsing a pattern source *)

Inductive token : Type :=
| TChr (c : ascii)
| TAny | TBol | TEol
| TOpen (capturing : bool) | TClose
| TBar | TStar | TPlus | TQuest
| TCls (neg : bool) (rs : list (ascii * ascii)).

(** Where the lexer is inside a character class: nothing pending, a
    character that may start a range, or a character followed by [-]. *)
Inductive class_state : Type :=
| CNone
| CHave (c : ascii)
| CDash (c : ascii).

Inductive lex_mode : Type :=
| Normal
| InClass (neg : bool) (rs : list (ascii * ascii)) (st : class_state).

Definition class_add (rs : list (ascii * ascii)) (st : class_state) (c : ascii)
  : list (ascii * ascii) * class_state :=
  match st with
  | CNone => (rs, CHave c)
  | CHave a => if Ascii.eqb c "-" then (rs, CDash a) else ((rs ++ [(a, a)])%list, CHave c)
  | CDash a => ((rs ++ [(a, c)])%list, CNone)
  end.

Definition class_close (rs : list (ascii * ascii)) (st : class_state)
  : list (ascii * ascii) :=
  match st with
  | CNone => rs
  | CHave a => (rs ++ [(a, a)])%list
  | CDash a => (rs ++ [(a, a); ("-"%char, "-"%char)])%list
  end.

(** An escape [\c] is read as the character [c] when [c] is not a letter
    or a digit (an identity escape); class escapes such as [\d] and
    bounded quantifiers [{n,m}] are outside the syntax of this file and
    give [None]. *)
Fixpoint lex (mode : lex_mode) (s : string) : option (list token) :=
  match mode, s with
  | Normal, EmptyString => Some nil
  | InClass _ _ _, EmptyString => None
  | Normal, String c s' =>
      if Ascii.eqb c "\" then
        match s' with
        | String e s'' => if JS.is_alnum e then None else cons (TChr e) <$> lex Normal s''
        | EmptyString => None
        end
      else if Ascii.eqb c "[" then
        match s' with
        | String "^" s'' => lex (InClass true nil CNone) s''
        | _ => lex (InClass false nil CNone) s'
        end
      else if Ascii.eqb c "(" then
        match s' with
        | String "?" (String ":" s'') => cons (TOpen false) <$> lex Normal s''
        | _ => cons (TOpen true) <$> lex Normal s'
        end
      else if Ascii.eqb c ")" then cons TClose <$> lex Normal s'
      else if Ascii.eqb c "." then cons TAny <$> lex Normal s'
      else if Ascii.eqb c "^" then cons TBol <$> lex Normal s'
      else if Ascii.eqb c "$" then cons TEol <$> lex Normal s'
      else if Ascii.eqb c "|" then cons TBar <$> lex Normal s'
      else if Ascii.eqb c "*" then cons TStar <$> lex Normal s'
      else if Ascii.eqb c "+" then cons TPlus <$> lex Normal s'
      else if Ascii.eqb c "?" then cons TQuest <$> lex Normal s'
      else if Ascii.eqb c "{" || Ascii.eqb c "}" || Ascii.eqb c "]" then None
      else cons (TChr c) <$> lex Normal s'
  | InClass neg rs st, String c s' =>
      if Ascii.eqb c "]" then cons (TCls neg (class_close rs st)) <$> lex Normal s'
      else if Ascii.eqb c "\" then
        match s' with
        | String e s'' =>
            if JS.is_alnum e then None
            else let '(rs', st') := class_add rs st e in lex (InClass neg rs' st') s''
        | EmptyString => None
        end
      else let '(rs', st') := class_add rs st c in lex (InClass neg rs' st') s'
  end.

(** A group under construction: the alternatives closed so far, the items
    of the current alternative (both most recent first), whether the last
    item can still take a quantifier, and the group's number ([None] for
    the whole pattern and for [(?: )]). *)
Record frame : Type := Frame {
  f_alts : list regex;
  f_items : list regex;
  f_quantifiable : bool;
  f_group : option nat
}.

Definition frame0 (g : option nat) : frame := Frame nil nil false g.

Definition push_item (quantifiable : bool) (r : regex) (f : frame) : frame :=
  Frame (f_alts f) (r :: f_items f) quantifiable (f_group f).

Definition close_alt (f : frame) : frame :=
  Frame (seq_of_list (rev (f_items f)) :: f_alts f) nil false (f_group f).

Definition frame_regex (f : frame) : regex :=
  let this := seq_of_list (rev (f_items f)) in
  let body := fold_left (fun acc a => Alt a acc) (f_alts f) this in
  match f_group f with
  | Some n => Grp n body
  | None => body
  end.

Definition quantify (q : regex -> regex) (f : frame) : option frame :=
  match f_items f with
  | r :: items =>
      if f_quantifiable f
      then Some (Frame (f_alts f) (q r :: items) false (f_group f))
      else None
  | nil => None
  end.

Fixpoint parse_tokens (ts : list token) (cur : frame) (stack : list frame)
         (next : nat) : option regex :=
  match ts with
  | nil => match stack with
           | nil => Some (frame_regex cur)
           | _ :: _ => None
           end
  | TChr c :: ts' => parse_tokens ts' (push_item true (Chr c) cur) stack next
  | TAny :: ts' => parse_tokens ts' (push_item true Any cur) stack next
  | TCls neg rs :: ts' => parse_tokens ts' (push_item true (Cls neg rs) cur) stack next
  | TBol :: ts' => parse_tokens ts' (push_item false Bol cur) stack next
  | TEol :: ts' => parse_tokens ts' (push_item false Eol cur) stack next
  | TOpen true :: ts' => parse_tokens ts' (frame0 (Some next)) (cur :: stack) (S next)
  | TOpen false :: ts' => parse_tokens ts' (frame0 None) (cur :: stack) next
  | TClose :: ts' =>
      match stack with
      | parent :: stack' =>
          parse_tokens ts' (push_item true (frame_regex cur) parent) stack' next
      | nil => None
      end
  | TBar :: ts' => parse_tokens ts' (close_alt cur) stack next
  | TStar :: TQuest :: ts' =>
      cur' ← quantify (Star false) cur; parse_tokens ts' cur' stack next
  | TStar :: ts' =>
      cur' ← quantify (Star true) cur; parse_tokens ts' cur' stack next
  | TPlus :: TQuest :: ts' =>
      cur' ← quantify (Plus false) cur; parse_tokens ts' cur' stack next
  | TPlus :: ts' =>
      cur' ← quantify (Plus true) cur; parse_tokens ts' cur' stack next
  | TQuest :: TQuest :: ts' =>
      cur' ← quantify (Opt false) cur; parse_tokens ts' cur' stack next
  | TQuest :: ts' =>
      cur' ← quantify (Opt true) cur; parse_tokens ts' cur' stack next
  end.

(** [new RegExp(source)]; [None] stands for a pattern that does not
    compile. *)
Definition parse (source : string) : option regex :=
  ts ← lex Normal source; parse_tokens ts (frame0 None) nil 1%nat.

(** A regular-expression literal of the source file, written as its
    pattern text. *)
Definition literal (source : string) : regex :=
  match parse source with
  | Some r => r
  | None => Cls false nil
  end.

Fixpoint ngroups (r : regex) : nat :=
  match r with
  | Seq r1 r2 | Alt r1 r2 => Nat.max (ngroups r1) (ngroups r2)
  | Star _ r1 => ngroups r1
  | Grp n r1 => Nat.max n (ngroups r1)
  | _ => O
  end.

(** *** Matching *)

Definition captures : Type := list (nat * string).

Fixpoint capture (n : nat) (cs : captures) : option string :=
  match cs with
  | nil => None
  | (k, v) :: cs' => if Nat.eqb k n then Some v else capture n cs'
  end.

(** The line terminators that [.] does not accept: the line feed and the
    carriage return, and the separators U+2028 and U+2029, whose UTF-8
    forms are the bytes E2 80 A8 and E2 80 A9. *)
Definition line_terminator (c : ascii) : bool :=
  Ascii.eqb c "010" || Ascii.eqb c "013".

Definition line_separator_ahead (s : string) : bool :=
  match s with
  | String c1 (String c2 (String c3 _)) =>
      Ascii.eqb c1 "226" && Ascii.eqb c2 "128" && (Ascii.eqb c3 "168" || Ascii.eqb c3 "169")
  | _ => false
  end.

Definition in_range (c : ascii) (r : ascii * ascii) : bool :=
  ((nat_of_ascii (fst r) <=? nat_of_ascii c) && (nat_of_ascii c <=? nat_of_ascii (snd r)))%nat.

Definition in_ranges (rs : list (ascii * ascii)) (c : ascii) : bool :=
  existsb (in_range c) rs.

Section Matcher.

(** The [i] flag. *)
Variable ignore_case : bool.

Definition chr_eq (a b : ascii) : bool :=
  if ignore_case then Ascii.eqb (JS.upper a) (JS.upper b) else Ascii.eqb a b.

Definition cls_mem (neg : bool) (rs : list (ascii * ascii)) (c : ascii) : bool :=
  let hit :=
    if ignore_case
    then in_ranges rs c || in_ranges rs (JS.upper c) || in_ranges rs (JS.lower c)
    else in_ranges rs c in
  xorb neg hit.

(** A continuation receives the position reached, the rest of the
    subject and the captures, and answers with the end of the whole
    match. *)
Definition cont : Type := nat -> string -> captures -> option (nat * captures).

Definition step_char (ok : ascii -> bool) (i : nat) (s : string) (cs : captures)
           (k : cont) : option (nat * captures) :=
  match s with
  | String c s' => if ok c then k (S i) s' cs else None
  | EmptyString => None
  end.

(** [.] takes a byte that is no line terminator and does not start one;
    the patterns of the file have it under a star only, where it takes a
    character outside ASCII byte by byte. *)
Definition step_any (i : nat) (s : string) (cs : captures) (k : cont)
  : option (nat * captures) :=
  if line_separator_ahead s then None
  else step_char (fun c => negb (line_terminator c)) i s cs k.

(** The iterations of a quantified item [body]: a greedy quantifier
    tries one more iteration before the continuation, a lazy one the
    continuation first.  An iteration consumes at least one character, so
    the length of the subject bounds their number. *)
Fixpoint star_loop (body : nat -> string -> captures -> cont -> option (nat * captures))
         (greedy : bool) (k : cont) (fuel : nat) (i : nat) (s : string) (cs : captures)
  : option (nat * captures) :=
  match fuel with
  | O => k i s cs
  | S fuel' =>
      let more :=
        body i s cs
          (fun i' s' cs' =>
             if Nat.eqb i' i then None else star_loop body greedy k fuel' i' s' cs') in
      if greedy
      then match more with Some res => Some res | None => k i s cs end
      else match k i s cs with Some res => Some res | None => more end
  end.

Fixpoint rmatch (r : regex) (i : nat) (s : string) (cs : captures) (k : cont)
  {struct r} : option (nat * captures) :=
  match r with
  | Eps => k i s cs
  | Chr c => step_char (chr_eq c) i s cs k
  | Any => step_any i s cs k
  | Cls neg rs => step_char (cls_mem neg rs) i s cs k
  | Bol => if Nat.eqb i 0 then k i s cs else None
  | Eol => match s with EmptyString => k i s cs | _ => None end
  | Seq r1 r2 => rmatch r1 i s cs (fun i' s' cs' => rmatch r2 i' s' cs' k)
  | Alt r1 r2 =>
      match rmatch r1 i s cs k with
      | Some res => Some res
      | None => rmatch r2 i s cs k
      end
  | Grp n r1 =>
      rmatch r1 i s cs
        (fun i' s' cs' => k i' s' ((n, JS.take (i' - i) s) :: cs'))
  | Star greedy r1 => star_loop (rmatch r1) greedy k (String.length s) i s cs
  end.

(** The leftmost start position at which the pattern matches. *)
Fixpoint search (r : regex) (i : nat) (s : string) : option (nat * nat * captures) :=
  match rmatch r i s nil (fun j _ cs => Some (j, cs)) with
  | Some (j, cs) => Some (i, j, cs)
  | None =>
      match s with
      | EmptyString => None
      | String _ s' => search r (S i) s'
      end
  end.

(** The array returned by [exec]: element 0 is the whole match, element
    [n] the text of group [n], [None] for a group that did not take
    part. *)
Definition exec (r : regex) (subject : string) : option (list (option string)) :=
  match search r 0 subject with
  | Some (i, j, cs) =>
      Some (Some (JS.take (j - i) (JS.drop i subject))
              :: map (fun n => capture n cs) (seq 1 (ngroups r)))
  | None => None
  end.

(** Where the match starts ([m.index]). *)
Definition exec_index (r : regex) (subject : string) : option nat :=
  match search r 0 subject with
  | Some (i, _, _) => Some i
  | None => None
  end.

Definition test (r : regex) (subject : string) : bool :=
  match search r 0 subject with Some _ => true | None => false end.

End Matcher.

(** [s.replace(r, by)] for a pattern without the [g] flag: the leftmost
    match is replaced by what [by] makes of its captures. *)
Definition replace (ignore_case : bool) (r : regex) (s : string)
           (by_ : captures -> string) : string :=
  match search ignore_case r 0 s with
  | Some (i, j, cs) => JS.take i s +:+ by_ cs +:+ JS.drop j s
  | None => s
  end.

(** [m[i]] *)
Definition group (m : list (option string)) (i : Z) : option string :=
  if i <? 0 then None else nth (Z.to_nat i) m None.

End RegExp.

(** ** URLs

    A model of [url.parse] of the [url] module the file requires (an
    external dependency, the legacy Node parser), with the fields the file
    reads and [href].  The model follows the parser statement by statement
    for a URL whose host is of ASCII characters.  The conversion of a host
    name with other characters to its IDN form is left out: such a host
    name is kept as its bytes, in the case of its letters. *)

Module Url.

Record t : Type := Make {
  protocol : option string;
  slashes : bool;
  auth : option string;
  host : option string;
  port : option string;
  hostname : option string;
  hash : option string;
  search : option string;
  query : option string;
  pathname : option string;
  path : option string;
  href : string
}.

Definition mem (c : ascii) (cs : string) : bool :=
  match JS.find (String c EmptyString) cs 0 with Some _ => true | None => false end.

(** The longest prefix of characters that satisfy [p], and the rest. *)
Fixpoint span (p : ascii -> bool) (s : string) : string * string :=
  match s with
  | EmptyString => (EmptyString, EmptyString)
  | String c s' =>
      if p c then let '(a, b) := span p s' in (String c a, b)
      else (EmptyString, s)
  end.

(** [s.replace(/\\/g, '/')] *)
Fixpoint forward_slashes (s : string) : string :=
  match s with
  | EmptyString => EmptyString
  | String c s' => String (if Ascii.eqb c "\" then "/"%char else c) (forward_slashes s')
  end.

(** The first statements of [Url.prototype.parse]: the backslashes in
    front of the query string become slashes.  The input is split at [?]
    when a [?] comes before the first [#], and at [#] otherwise. *)
Definition backslashes (url : string) : string :=
  let queryIndex := JS.indexOf url "?" 0 in
  let splitter :=
    if negb (queryIndex =? -1) && (queryIndex <? JS.indexOf url "#" 0) then "?" else "#" in
  match JS.find splitter url 0 with
  | Some i => forward_slashes (JS.take i url) +:+ JS.drop i url
  | None => forward_slashes url
  end.

(** The two groups of the match of [simplePathPattern]: a path that
    starts with one slash or two, not three, and has no white space, and
    a query from the first [?] on. *)
Definition simplePath (rest : string) : option (string * option string) :=
  match rest with
  | String "/" rest' =>
      if JS.prefix "//" rest' || JS.has_space rest then None
      else
        match JS.find "?" rest 0 with
        | Some i => Some (JS.take i rest, Some (JS.drop i rest))
        | None => Some (rest, None)
        end
  | _ => None
  end.

(** [protocolPattern = /^([a-z0-9.+-]+:)/i] *)
Definition is_protocol_char (c : ascii) : bool :=
  JS.is_alnum c || mem c ".+-".

Definition split_protocol (s : string) : option string * string :=
  let '(p, rest) := span is_protocol_char s in
  match p, rest with
  | String _ _, String ":" rest' => (Some (p +:+ ":"), rest')
  | _, _ => (None, s)
  end.

Definition slashedProtocol (proto : option string) : bool :=
  match proto with
  | Some p => existsb (String.eqb p) ["http:"; "https:"; "ftp:"; "gopher:"; "file:"]
  | None => false
  end.

(** [hostlessProtocol] and [unsafeProtocol] *)
Definition hostlessProtocol (proto : option string) : bool :=
  match proto with
  | Some p => String.eqb p "javascript:"
  | None => false
  end.

(** [rest.match(/^\/\/[^@\/]+@[^@\/]+/)] *)
Definition userinfo_ahead (rest : string) : bool :=
  match rest with
  | String "/" (String "/" rest') =>
      let '(user, after) :=
        span (fun c => negb (Ascii.eqb c "@" || Ascii.eqb c "/")) rest' in
      match user, after with
      | String _ _, String "@" (String c _) => negb (Ascii.eqb c "@" || Ascii.eqb c "/")
      | _, _ => false
      end
  | _ => false
  end.

(** [autoEscape]: characters that are percent-encoded wherever they occur
    after the host. *)
Definition autoEscape (c : ascii) : bool :=
  mem c "{}|\^`<>' " || Ascii.eqb c "034" || Ascii.eqb c "009"
  || Ascii.eqb c "010" || Ascii.eqb c "013".

(** [nonHostChars]: the host ends at the first of them. *)
Definition nonHostChar (c : ascii) : bool := mem c "%/?;#" || autoEscape c.

Definition hostEndingChar (c : ascii) : bool := mem c "/?#".

Definition hex_digit (n : nat) : ascii :=
  if (n <? 10)%nat then ascii_of_nat (48 + n) else ascii_of_nat (55 + n).

(** [encodeURIComponent(c)] (or [escape(c)]) of one of the characters above *)
Definition percent (c : ascii) : string :=
  let n := nat_of_ascii c in
  String "%" (String (hex_digit (n / 16)) (String (hex_digit (n mod 16)) EmptyString)).

Fixpoint escape_rest (s : string) : string :=
  match s with
  | EmptyString => EmptyString
  | String c s' =>
      if autoEscape c then percent c +:+ escape_rest s'
      else String c (escape_rest s')
  end.

(** The part up to the last [@], when there is one. *)
Definition split_auth (s : string) : option string * string :=
  match JS.find_last "@" s 0 with
  | Some i => (Some (JS.take i s), JS.drop (S i) s)
  | None => (None, s)
  end.

(** [portPattern = /:[0-9]*$/] *)
Definition portPattern : RegExp.regex :=
  Eval vm_compute in RegExp.literal ":[0-9]*$".

(** [Url.prototype.parseHost]: the host without its port, and the port. *)
Definition parseHost (h : string) : string * option string :=
  match RegExp.exec_index false portPattern h with
  | Some i =>
      let p := JS.drop i h in
      (JS.take i h, if String.eqb p ":" then None else Some (JS.drop 1 p))
  | None => (h, None)
  end.

(** The characters of [hostnamePartPattern = /^[+a-z0-9A-Z_-]{0,63}$/]. *)
Definition hostnamePartChar (c : ascii) : bool := JS.is_alnum c || mem c "+_-".

(** The label that [s] starts with has at most [n] characters, each of
    them of [hostnamePartPattern] or outside ASCII (the validation tests
    the label a second time with an [x] for every such character). *)
Fixpoint part_ok (n : nat) (s : string) {struct s} : bool :=
  match s with
  | EmptyString => true
  | String c s' =>
      if Ascii.eqb c "." then true
      else
        match n with
        | O => false
        | S n' => (hostnamePartChar c || (127 <? nat_of_ascii c)%nat) && part_ok n' s'
        end
  end.

(** The first group of [hostnamePartStart]: at most [n] characters of
    [hostnamePartPattern] in front of [s]. *)
Fixpoint part_start (n : nat) (s : string) : string :=
  match n, s with
  | S n', String c s' =>
      if hostnamePartChar c then String c (part_start n' s') else EmptyString
  | _, _ => EmptyString
  end.

(** The validation of the labels of a host name: the host name that is
    kept and, when a label is not valid, what goes to the front of the
    path: the host name is cut behind the valid start of that label.
    [start] says that a label starts at the head of [hostname]. *)
Fixpoint validate (start : bool) (hostname : string) : string * option string :=
  match hostname with
  | EmptyString => (EmptyString, None)
  | String c hostname' =>
      if start && negb (part_ok 63 hostname) then
        let bit1 := part_start 63 hostname in
        (bit1, Some (JS.drop (String.length bit1) hostname))
      else
        let '(validParts, notHost) := validate (Ascii.eqb c ".") hostname' in
        (String c validParts, notHost)
  end.

(** The host name starts with [[] and ends with []]. *)
Definition ipv6Hostname (hostname : string) : bool :=
  JS.prefix "[" hostname && JS.prefix "]" (JS.reverse hostname).

Definition nonempty (s : string) : option string :=
  if String.eqb s "" then None else Some s.

Definition or_empty (v : option string) : string :=
  match v with Some s => s | None => "" end.

(** [Url.prototype.format] on the parsed fields *)
Definition format (proto : option string) (sl : bool) (au : option string)
           (h : option string) (pathname_ search_ hash_ : option string) : string :=
  let auth :=
    match au with
    | Some a =>
        if String.eqb a "" then ""
        else JS.replace_first (JS.encodeURIComponent a) "%3A" ":" +:+ "@"
    | None => ""
    end in
  let protocol := or_empty proto in
  let pathname := or_empty pathname_ in
  let host0 : option string :=
    match h with
    | Some hs => if String.eqb hs "" then None else Some (auth +:+ hs)
    | None => None
    end in
  let '(hostpart, pathname') :=
    if sl || ((String.eqb protocol "" || slashedProtocol proto)
              && match host0 with Some _ => true | None => false end)
    then ("//" +:+ or_empty host0,
          match pathname with
          | String c _ => if Ascii.eqb c "/" then pathname else "/" +:+ pathname
          | EmptyString => pathname
          end)
    else (or_empty host0, pathname) in
  protocol +:+ hostpart +:+ pathname' +:+ or_empty search_ +:+ or_empty hash_.

(** The part of [Url.prototype.parse] that reads the host in front of
    [rest]: the user information, the host, the port, the host name, and
    what is left for the path.  [decodeURIComponent] throws on user
    information that it cannot decode. *)
Definition parse_host (rest : string)
  : completion (option string * string * option string * string * string) :=
  let '(before, after) := span (fun c => negb (hostEndingChar c)) rest in
  let '(au, before') := split_auth before in
  do au <-
    match au with
    | Some a => do decoded <- JS.decodeURIComponent a; Return (Some decoded)
    | None => Return None
    end;
  let rest := before' +:+ after in
  let '(host0, rest) := span (fun c => negb (nonHostChar c)) rest in
  let '(hostname0, prt) := parseHost host0 in
  let ipv6 := ipv6Hostname hostname0 in
  let '(hostname1, rest) :=
    if ipv6 then (hostname0, rest)
    else
      match validate true hostname0 with
      | (validParts, Some notHost) => (validParts, "/" +:+ notHost +:+ rest)
      | (validParts, None) => (validParts, rest)
      end in
  let hostname2 :=
    if (255 <? String.length hostname1)%nat then "" else JS.toLowerCase hostname1 in
  let h := hostname2 +:+ match prt with Some p => ":" +:+ p | None => "" end in
  if ipv6 then
    Return (au, h, prt,
            JS.substr hostname2 1 (Z.of_nat (String.length hostname2) - 2),
            if JS.prefix "/" rest then rest else "/" +:+ rest)
  else Return (au, h, prt, hostname2, rest).

(** [url.parse(url)] for a string [url] *)
Definition parse (url : string) : completion t :=
  let url := backslashes url in
  let rest := JS.trim url in
  match (if mem "#" url then None else simplePath rest) with
  | Some (pathname_, search_) =>
      Return {| protocol := None; slashes := false; auth := None; host := None;
                port := None; hostname := None; hash := None; search := search_;
                query := JS.drop 1 <$> search_; pathname := Some pathname_;
                path := Some rest; href := rest |}
  | None =>
      let '(proto, rest) := split_protocol rest in
      let lowerProto := JS.toLowerCase <$> proto in
      let has_slashes :=
        (match proto with Some _ => true | None => userinfo_ahead rest end)
        && JS.prefix "//" rest in
      let sl := has_slashes && negb (hostlessProtocol proto) in
      let rest := if sl then JS.drop 2 rest else rest in
      do parsed <-
        (if negb (hostlessProtocol proto)
            && (has_slashes
                || match proto with Some _ => negb (slashedProtocol proto) | None => false end)
         then
           do parsed <- parse_host rest;
           let '(au, h, prt, hn, rest) := parsed in
           Return (au, Some h, prt, Some hn, rest)
         else Return (None, None, None, None, rest));
      let '(au, h, prt, hn, rest) := parsed in
      let rest := if hostlessProtocol lowerProto then rest else escape_rest rest in
      let '(rest, hash_) :=
        match JS.find "#" rest 0 with
        | Some i => (JS.take i rest, Some (JS.drop i rest))
        | None => (rest, None)
        end in
      let '(rest, search_, query_) :=
        match JS.find "?" rest 0 with
        | Some i => (JS.take i rest, Some (JS.drop i rest), Some (JS.drop (S i) rest))
        | None => (rest, None, None)
        end in
      let pathname0 := nonempty rest in
      let pathname_ :=
        match pathname0 with
        | Some p => Some p
        | None => if slashedProtocol lowerProto && JS.truthy hn then Some "/" else None
        end in
      let path_ :=
        match pathname_, search_ with
        | None, None => None
        | _, _ => Some (or_empty pathname_ +:+ or_empty search_)
        end in
      Return {| protocol := lowerProto; slashes := sl; auth := au; host := h; port := prt;
                hostname := hn; hash := hash_; search := search_; query := query_;
                pathname := pathname_; path := path_;
                href := format lowerProto sl au h pathname_ search_ hash_ |}
  end.

End Url.

Import RegExp.

(** ** [Zotero.Utilities] *)

Module Utilities.

(** Modelled from the spec: [Zotero.Utilities.quotemeta] is defined
    outside this file.  The compiler builds the matcher "by
    literal-escaping every other character of the template": each
    character with a meaning in a pattern gets a backslash in front
    (the set of [Zotero.Utilities.quotemeta]: [-[\]{}()*+?.\^$|,#] and
    white space). *)
Definition is_meta (c : ascii) : bool :=
  Url.mem c "-[]{}()*+?.\^$|,# " || Ascii.eqb c "009" || Ascii.eqb c "010"
  || Ascii.eqb c "011" || Ascii.eqb c "012" || Ascii.eqb c "013".

Fixpoint quotemeta (literal : string) : string :=
  match literal with
  | EmptyString => EmptyString
  | String c s' =>
      if is_meta c then String "\" (String c (quotemeta s'))
      else String c (quotemeta s')
  end.

End Utilities.

(** ** [Zotero.Proxy]: one proxy *)

Module Proxy.

Record t : Type := Make {
  hosts : list string;
  multiHost : bool;
  autoAssociate : bool;
  scheme : string;
  regexp : option regex;        (* [None]: not compiled *)
  parameters : list string;
  indices : gmap string Z
}.

(** The persisted form of a proxy. *)
Record json : Type := Json {
  json_multiHost : bool;
  json_autoAssociate : bool;
  json_scheme : string;
  json_hosts : list string
}.

(** [new Zotero.Proxy] *)
Definition new : t := Make nil false false "" None nil ∅.

(** [Zotero_Proxy_schemeParameters] as the file declares it.  The object
    is shared by every compilation, so its current content is part of
    the program state. *)
Definition Zotero_Proxy_schemeParameters : list (string * string) :=
  [("%p", "(.*?)"); ("%d", "(.*?)"); ("%f", "(.*?)"); ("%a", "(.*?)")].

Definition Zotero_Proxy_schemeParameterRegexps : list (string * regex) :=
  Eval vm_compute in
    [("%p", literal "([^%])%p"); ("%d", literal "([^%])%d");
     ("%f", literal "([^%])%f"); ("%h", literal "([^%])%h");
     ("%a", literal "([^%])%a")].

Definition hostParameter : string := "([a-zA-Z0-9]+\.[a-zA-Z0-9.]+)".

(** [obj[k]] and [obj[k] = v] on an object whose properties are
    enumerated in insertion order. *)
Fixpoint prop_get {A : Type} (k : string) (obj : list (string * A)) : option A :=
  match obj with
  | nil => None
  | (k', v) :: obj' => if String.eqb k' k then Some v else prop_get k obj'
  end.

Fixpoint prop_set {A : Type} (k : string) (v : A) (obj : list (string * A))
  : list (string * A) :=
  match obj with
  | nil => [(k, v)]
  | (k', v') :: obj' =>
      if String.eqb k' k then (k, v) :: obj' else (k', v') :: prop_set k v obj'
  end.

(** The [while] loop of [compileRegexp] that skips escaped occurrences:
    an occurrence preceded by [%] loses that [%] and the search goes on
    behind it.  Each round removes a character, so the length of the
    scheme bounds the number of rounds. *)
Fixpoint unescape (fuel : nat) (scheme param : string) (index : Z) : string * Z :=
  match fuel with
  | O => (scheme, index)
  | S fuel' =>
      match JS.charAt scheme (index - 1) with
      | Some c =>
          if Ascii.eqb c "%" then
            let scheme' :=
              JS.substr scheme 0 (index - 1) +:+ JS.substr_from scheme index in
            unescape fuel' scheme' param (JS.indexOf scheme' param (index + 1))
          else (scheme, index)
      | None => (scheme, index)
      end
  end.

(** One round of the [for (var param in parametersToCheck)] loop. *)
Definition check_parameter (acc : string * gmap string Z * list string)
           (param : string) : string * gmap string Z * list string :=
  let '(scheme, indices, parameters) := acc in
  let '(scheme', index) :=
    unescape (String.length scheme) scheme param (JS.indexOf scheme param 0) in
  if index =? -1 then (scheme', indices, parameters)
  else (scheme', <[param := index]> indices, (parameters ++ [param])%list).

(** [parameters.sort(function(a, b) { return indices[a]-indices[b] })] *)
Fixpoint insert_by (cmp : string -> string -> Z) (x : string) (l : list string)
  : list string :=
  match l with
  | nil => [x]
  | y :: l' => if cmp x y <=? 0 then x :: y :: l' else y :: insert_by cmp x l'
  end.

Definition sort_by (cmp : string -> string -> Z) (l : list string) : list string :=
  fold_right (insert_by cmp) nil l.

Definition index_of (indices : gmap string Z) (param : string) : Z :=
  default 0 (indices !! param).

(** One round of the loop that replaces a placeholder by its pattern
    fragment: [re.replace(regexps[param], "$1" + parametersToCheck[param])]. *)
Definition substitute (parametersToCheck : list (string * string))
           (re param : string) : string :=
  match prop_get param Zotero_Proxy_schemeParameterRegexps with
  | Some r =>
      RegExp.replace false r re
        (fun cs => JS.str_undefined (capture 1 cs)
                   +:+ JS.str_undefined (prop_get param parametersToCheck))
  | None => re
  end.

(** The pattern source that [compileRegexp] hands to [new RegExp]. *)
Definition pattern (parametersToCheck : list (string * string))
           (scheme : string) (parameters : list string) : string :=
  fold_left (substitute parametersToCheck) (rev parameters)
            ("^" +:+ Utilities.quotemeta scheme +:+ "$").

(** [Zotero.Proxy.prototype.compileRegexp]: the shared parameter table
    and the proxy, both as the call leaves them. *)
Definition compileRegexp (schemeParameters : list (string * string)) (this : t)
  : list (string * string) * t :=
  let parametersToCheck :=
    if multiHost this then prop_set "%h" hostParameter schemeParameters
    else schemeParameters in
  let '(scheme', indices', found) :=
    fold_left check_parameter (map fst parametersToCheck) (scheme this, ∅, nil) in
  let parameters' :=
    sort_by (fun a b => index_of indices' a - index_of indices' b) found in
  let re := pattern parametersToCheck scheme' parameters' in
  (parametersToCheck,
   {| hosts := hosts this; multiHost := multiHost this;
      autoAssociate := autoAssociate this; scheme := scheme';
      regexp := RegExp.parse re; parameters := parameters'; indices := indices' |}).

(** The pattern source of the last compilation of [this]. *)
Definition source (schemeParameters : list (string * string)) (this : t) : string :=
  let parametersToCheck :=
    if multiHost this then prop_set "%h" hostParameter schemeParameters
    else schemeParameters in
  let '(scheme', indices', found) :=
    fold_left check_parameter (map fst parametersToCheck) (scheme this, ∅, nil) in
  pattern parametersToCheck scheme'
    (sort_by (fun a b => index_of indices' a - index_of indices' b) found).

(** [m[this.parameters.indexOf(param)+1]] *)
Definition captured (this : t) (m : list (option string)) (param : string)
  : option string :=
  RegExp.group m (JS.strings_indexOf (parameters this) param + 1).

(** [Zotero.Proxy.prototype.toProper] *)
Definition toProper (this : t) (m : list (option string)) : string :=
  let properURL :=
    if multiHost this
    then "http://" +:+ JS.str_undefined (captured this m "%h") +:+ "/"
    else "http://" +:+ JS.str_undefined (hosts this !! 0%nat) +:+ "/" in
  let has_p :=
    match indices this !! "%p" with
    | Some i => negb (i =? 0)
    | None => false
    end in
  if has_p then properURL +:+ JS.str_undefined (captured this m "%p")
  else
    let dir := captured this m "%d" in
    let file := captured this m "%f" in
    let properURL :=
      match dir with
      | Some EmptyString => properURL
      | _ => properURL +:+ JS.str_undefined dir +:+ "/"
      end in
    properURL +:+ JS.str_undefined file.

(** The value a placeholder takes in [toProxy]; reading a component of a
    path that is [null] throws. *)
Definition value_of (uri : Url.t) (param : string) : completion string :=
  if String.eqb param "%h" then Return (JS.str_null (Url.host uri))
  else if String.eqb param "%p" then
    match Url.path uri with
    | Some p => Return (JS.substr_from p 1)
    | None => Throw "TypeError"
    end
  else if String.eqb param "%d" then
    match Url.path uri with
    | Some p => Return (JS.substr p 0 (JS.lastIndexOf p "/"))
    | None => Throw "TypeError"
    end
  else if String.eqb param "%f" then
    match Url.path uri with
    | Some p => Return (JS.substr_from p (JS.lastIndexOf p "/" + 1))
    | None => Throw "TypeError"
    end
  else Return "".

(** [Zotero.Proxy.prototype.toProxy] *)
Definition toProxy (this : t) (uri : Url.t) : completion string :=
  fold_left
    (fun (acc : completion string) (param : string) =>
       do proxyURL <- acc;
       do value <- value_of uri param;
       let i := index_of (indices this) param in
       Return (JS.substr proxyURL 0 i +:+ value +:+ JS.substr_from proxyURL (i + 2)))
    (rev (parameters this)) (Return (scheme this)).

(** [Zotero.Proxy.prototype.loadFromJSON] *)
Definition loadFromJSON (schemeParameters : list (string * string)) (j : json)
  : list (string * string) * t :=
  compileRegexp schemeParameters
    {| hosts := json_hosts j; multiHost := json_multiHost j;
       autoAssociate := json_autoAssociate j; scheme := json_scheme j;
       regexp := None; parameters := nil; indices := ∅ |}.

Definition toJSON (this : t) : json :=
  {| json_multiHost := multiHost this; json_autoAssociate := autoAssociate this;
     json_scheme := scheme this; json_hosts := hosts this |}.

End Proxy.

(** ** The intercepted exchange *)

Record Header : Type := { name : string; value : string }.

(** The [details] object a [webRequest] listener receives. *)
Record RawDetails : Type := {
  raw_url : string;
  raw_statusCode : Z;
  raw_requestID : string;
  raw_responseHeaders : list Header;
  raw_originUrl : option string
}.

(** [details] once [observe] has replaced the header arrays by objects;
    the request headers are [undefined] when none were stored. *)
Record Details : Type := {
  url : string;
  statusCode : Z;
  requestHeaders : option (gmap string string);
  responseHeaders : gmap string string;
  originUrl : option string
}.

(** ** [Zotero.Proxies]: the registry *)

Module Proxies.

(** Proxy objects are shared between [proxies] and [hosts]: both hold
    references into [heap]. *)
Record t : Type := Make {
  autoRecognize : bool;
  disabledByDomain : bool;
  showRedirectNotification : bool;
  heap : gmap nat Proxy.t;
  proxies : list nat;
  hosts : gmap string nat;
  schemeParameters : list (string * string);   (* [Zotero_Proxy_schemeParameters] *)
  _reqIDToHeaders : gmap string (gmap string string);
  _ignoreURLs : gset string;
  listeners : list string;                     (* targets of pending probes *)
  prefs : list Proxy.json                      (* ['proxies.proxies'] in storage *)
}.

Definition empty : t :=
  Make false false false ∅ nil ∅ Proxy.Zotero_Proxy_schemeParameters ∅ ∅ nil nil.

Definition with_registry (st : t) (h : gmap nat Proxy.t) (ps : list nat)
           (hs : gmap string nat) (sp : list (string * string))
           (pr : list Proxy.json) : t :=
  Make (autoRecognize st) (disabledByDomain st) (showRedirectNotification st)
       h ps hs sp (_reqIDToHeaders st) (_ignoreURLs st) (listeners st) pr.

(** A reference that no object of the heap uses yet. *)
Definition fresh (h : gmap nat Proxy.t) : nat :=
  S (map_fold (fun k _ acc => Nat.max k acc) O h).

(** [new Zotero.Proxy] followed by the assignments that fill it. *)
Definition alloc (st : t) (proxy : Proxy.t) : t * nat :=
  let id := fresh (heap st) in
  (with_registry st (<[id := proxy]> (heap st)) (proxies st) (hosts st)
                 (schemeParameters st) (prefs st), id).

Definition index_hosts (id : nat) (hs : list string) (index : gmap string nat)
  : gmap string nat :=
  fold_left (fun acc h => <[h := id]> acc) hs index.

(** The entries of the host index that [save] keeps: all but those that
    point to the saved proxy for a host it no longer lists. *)
Definition keeps (id : nat) (hs : list string) (entry : string * nat) : bool :=
  negb (Nat.eqb (snd entry) id && (JS.strings_indexOf hs (fst entry) =? -1)).

(** [Zotero.Proxies.save] *)
Definition save (st : t) (id : nat) : t :=
  match heap st !! id with
  | None => st
  | Some proxy =>
      let proxies' :=
        if existsb (Nat.eqb id) (proxies st) then proxies st
        else (proxies st ++ [id])%list in
      let '(schemeParameters', proxy') :=
        match Proxy.regexp proxy with
        | None => Proxy.compileRegexp (schemeParameters st) proxy
        | Some _ => (schemeParameters st, proxy)
        end in
      let heap' := <[id := proxy']> (heap st) in
      let hosts' :=
        index_hosts id (Proxy.hosts proxy')
          (filter (fun entry => keeps id (Proxy.hosts proxy') entry = true) (hosts st)) in
      with_registry st heap' proxies' hosts' schemeParameters'
        (omap (fun i => Proxy.toJSON <$> heap' !! i) proxies')
  end.

(** [proxy.hosts.push(host)] *)
Definition push_host (st : t) (id : nat) (host : string) : t :=
  with_registry st
    (alter (fun p => Proxy.Make (Proxy.hosts p ++ [host])%list (Proxy.multiHost p)
                       (Proxy.autoAssociate p) (Proxy.scheme p) (Proxy.regexp p)
                       (Proxy.parameters p) (Proxy.indices p)) id (heap st))
    (proxies st) (hosts st) (schemeParameters st) (prefs st).

(** [Zotero.Proxies.init]: the proxies of the stored list, compiled and
    indexed one after the other. *)
Definition load (st : t) (j : Proxy.json) : t :=
  let '(sp, proxy) := Proxy.loadFromJSON (schemeParameters st) j in
  let id := fresh (heap st) in
  with_registry st (<[id := proxy]> (heap st)) (proxies st ++ [id])%list
    (index_hosts id (Proxy.hosts proxy) (hosts st)) sp (prefs st).

Definition init (autoRecognize_ showRedirectNotification_ : bool)
           (stored : list Proxy.json) : t :=
  fold_left load stored
    (Make autoRecognize_ false showRedirectNotification_ ∅ nil ∅
          Proxy.Zotero_Proxy_schemeParameters ∅ ∅ nil stored).

(** The first proxy of the list that satisfies [want], has a compiled
    matcher and matches [URL]: the [for (var proxy of proxies)] loops. *)
Fixpoint first_match (h : gmap nat Proxy.t) (want : Proxy.t -> bool)
         (ids : list nat) (URL : string)
  : option (nat * Proxy.t * list (option string)) :=
  match ids with
  | nil => None
  | id :: ids' =>
      match h !! id with
      | Some proxy =>
          match (if want proxy then Proxy.regexp proxy else None) with
          | Some r =>
              match exec false r URL with
              | Some m => Some (id, proxy, m)
              | None => first_match h want ids' URL
              end
          | None => first_match h want ids' URL
          end
      | None => first_match h want ids' URL
      end
  end.

(** [Zotero.Proxies.proxyToProper]: [None] is the value [false]. *)
Definition proxyToProper (st : t) (URL : string) (onlyReturnIfProxied : bool)
  : option string :=
  match first_match (heap st) (fun _ => true) (proxies st) URL with
  | Some (_, proxy, m) => Some (Proxy.toProper proxy m)
  | None => if onlyReturnIfProxied then None else Some URL
  end.

(** [Zotero.Proxies.properToProxy]: [None] is the value [false].  For a
    host without an entry of its own that names a property of
    [Object.prototype], [hosts[uri.host]] is that property, which has no
    method [toProxy]. *)
Definition properToProxy (st : t) (URL : string) (onlyReturnIfProxied : bool)
  : completion (option string) :=
  do uri <- Url.parse URL;
  match hosts st !! JS.str_null (Url.host uri) with
  | Some id =>
      match heap st !! id with
      | Some proxy => do toProxy <- Proxy.toProxy proxy uri; Return (Some toProxy)
      | None => Throw "TypeError"
      end
  | None =>
      if JS.inherited (JS.str_null (Url.host uri)) then Throw "TypeError"
      else Return (if onlyReturnIfProxied then None else Some URL)
  end.

(** [hostBlacklist] and [hostWhitelist] of [_isBlacklisted] *)
Definition hostBlacklist : list regex :=
  Eval vm_compute in
    [literal "edu$"; literal "google\.com$"; literal "wikipedia\.org$";
     literal "^[^.]*$"; literal "doubleclick\.net$"].

Definition hostWhitelist : list regex :=
  Eval vm_compute in
    [literal "^scholar\.google\.com$"; literal "^muse\.jhu\.edu$"].

Fixpoint blacklisted_by (blacklist : list regex) (host : string) : bool :=
  match blacklist with
  | nil => false
  | blackPattern :: blacklist' =>
      if test false blackPattern host
      then negb (existsb (fun whitePattern => test false whitePattern host) hostWhitelist)
      else blacklisted_by blacklist' host
  end.

Definition _isBlacklisted (host : string) : bool := blacklisted_by hostBlacklist host.

(** [_processHeaders]: the properties of the object it returns.  The
    assignment of a string to the property [__proto__] of an object has
    no effect.  The file reads the object by the keys [referer],
    [location] and [server], which [Object.prototype] does not have. *)
Definition _processHeaders (headerArray : list Header) : gmap string string :=
  fold_left
    (fun headers header =>
       if String.eqb (JS.toLowerCase (name header)) "__proto__" then headers
       else <[JS.toLowerCase (name header) := value header]> headers)
    headerArray ∅.

(** [Zotero.Proxies.storeRequestHeaders], on the [requestID] and the
    [requestHeaders] of its [details].  The assignment to the property
    [__proto__] makes the header object the prototype of
    [_reqIDToHeaders]: the entry for [__proto__] of the map is that
    prototype. *)
Definition storeRequestHeaders (st : t) (requestID : string)
           (requestHeaders : list Header) : t :=
  Make (autoRecognize st) (disabledByDomain st) (showRedirectNotification st)
       (heap st) (proxies st) (hosts st) (schemeParameters st)
       (<[requestID := _processHeaders requestHeaders]> (_reqIDToHeaders st))
       (_ignoreURLs st) (listeners st) (prefs st).

(** [Zotero.Proxies.removeRequestHeaders]: [delete] removes a property
    of the object itself, which [__proto__] is not. *)
Definition removeRequestHeaders (st : t) (requestID : string) : t :=
  if String.eqb requestID "__proto__" then st
  else
    Make (autoRecognize st) (disabledByDomain st) (showRedirectNotification st)
         (heap st) (proxies st) (hosts st) (schemeParameters st)
         (delete requestID (_reqIDToHeaders st))
         (_ignoreURLs st) (listeners st) (prefs st).

(** Whether [_reqIDToHeaders] inherits a property [requestID]: from the
    header object that is its prototype, or from [Object.prototype]. *)
Definition inherits (st : t) (requestID : string) : bool :=
  JS.inherited requestID
  || match _reqIDToHeaders st !! "__proto__" with
     | Some prototype => bool_decide (is_Some (prototype !! requestID))
     | None => false
     end.

(** [Zotero.Proxies._reqIDToHeaders[requestID]]: [None] is [undefined].
    Without a property of its own by that name the object answers with
    what it inherits.  None of these values is a header object, and none
    has a property [referer]: an empty header object stands for them. *)
Definition requestHeaders_of (st : t) (requestID : string) : option (gmap string string) :=
  match _reqIDToHeaders st !! requestID with
  | Some headers => Some headers
  | None => if inherits st requestID then Some ∅ else None
  end.

(** [Zotero.Proxies.disableByDomain] as [init] sets it from the
    preferences: [None] is [null]. *)
Definition disableByDomain_init (transparent disableByDomainPref : bool)
           (disableByDomainString : string) : option string :=
  if transparent && disableByDomainPref then Some disableByDomainString else None.

(** The loop of [updateDisabledByDomain] over the hostnames of the client:
    the value of [disabledByDomain] when it ends.  [indexOf] turns a
    pattern that is [null] into the string [null]. *)
Fixpoint hostnames_disable (disableByDomain : option string) (hostnames : list string)
  : bool :=
  match hostnames with
  | nil => false
  | host :: hostnames' =>
      if negb (JS.indexOf (JS.toLowerCase host) (JS.str_null disableByDomain) 0 =? -1)
      then true
      else hostnames_disable disableByDomain hostnames'
  end.

(** What the check by domain keeps besides [disabledByDomain]. *)
Record domains : Type := Domains {
  disableByDomain : option string;
  lastIPCheck : Z
}.

(** [Zotero.Proxies.updateDisabledByDomain] at the time [now], once the
    promise of [getHostnames] is settled: [answer] is the list of the
    client's hostnames, [None] when the promise is rejected. *)
Definition updateDisabledByDomain (st : t) (c : domains) (now : Z)
           (answer : option (list string)) : t * domains :=
  if 15 * 60 * 1000 <? now - lastIPCheck c then
    match answer with
    | Some hostnames =>
        let disabled := hostnames_disable (disableByDomain c) hostnames in
        (Make (autoRecognize st) disabled (showRedirectNotification st)
              (heap st) (proxies st) (hosts st) (schemeParameters st)
              (_reqIDToHeaders st) (_ignoreURLs st) (listeners st) (prefs st),
         (* IP update interval is every 15 minutes *)
         if disabled then c else Domains (disableByDomain c) now)
    | None => (st, c)
    end
  else (st, c).

Definition top2DomainsRe : regex := Eval vm_compute in literal "[^\.]+\.[^\.]+$".

(** [top2DomainsRe.exec(hostname)]: the text matched, [None] when there
    is no match.  A hostname that is [null] is matched as the string
    [null]. *)
Definition top2 (hostname : option string) : option string :=
  match exec false top2DomainsRe (JS.str_null hostname) with
  | Some m => Some (JS.str_undefined (RegExp.group m 0))
  | None => None
  end.

(** [_maybeRedirect]: [Return None] is [return;], [Return (Some u)] is
    [return {redirectUrl: u}].  The notification that precedes the
    redirect has no effect on the result. *)
Definition _maybeRedirect (st : t) (details : Details) (proxied : string)
  : completion (option string) :=
  do proxiedURI <- Url.parse proxied;
  match requestHeaders details with
  | None => Throw "TypeError"
  | Some headers =>
      let referer := headers !! "referer" in
      do stop <-
        (if JS.truthy referer then
           (* the referrer is a proxiable host: we already have access *)
           do proxiable <- properToProxy st (Url.or_empty referer) true;
           if JS.truthy proxiable then Return true
           else
             (* the referrer is the host we are about to redirect to *)
             do refererURI <- Url.parse (Url.or_empty referer);
             Return (JS.loose_eq (Url.hostname refererURI) (Url.hostname proxiedURI))
         else Return false);
      if stop : bool then Return None
      else
        let origin := originUrl details in
        do stop <-
          (if JS.truthy origin then
             (* the original URI was a proxied host *)
             if JS.truthy (proxyToProper st (Url.or_empty origin) true) then Return true
             else
               (* the original URI is the host we are about to redirect to *)
               do originURI <- Url.parse (Url.or_empty origin);
               Return (JS.loose_eq (Url.hostname originURI) (Url.hostname proxiedURI))
           else Return false);
        if stop : bool then Return None
        else
          (* the top two domains of the request and of the target must differ *)
          do requestURI <- Url.parse (url details);
          let top21 := top2 (Url.hostname requestURI) in
          let top22 := top2 (Url.hostname proxiedURI) in
          match top21, top22 with
          | Some a, Some b =>
              if String.eqb a b then Return None else Return (Some proxied)
          | _, _ => Return None
          end
  end.

End Proxies.

(** The verdict the transport gets from a listener: a redirect, or none
    (the listener returned nothing, or was aborted by an exception). *)
Inductive verdict : Type :=
| Redirect (to : string)
| NoRedirect.

Definition verdict_of (c : completion (option string)) : verdict :=
  match c with
  | Return (Some u) => Redirect u
  | Return None => NoRedirect
  | Throw _ => NoRedirect
  end.

(** The redirect decision for an exchange and a candidate proxied target. *)
Definition decide_redirect (st : Proxies.t) (details : Details) (proxied : string)
  : verdict :=
  verdict_of (Proxies._maybeRedirect st details proxied).

(** ** [Zotero.Proxies.Detectors] *)

Module Detectors.

(** What a detector hands back: the proxy it proposes ([None] is
    [false]), and the URL for which it started a probe (a [Listener]
    and an [XMLHttpRequest]), if it did. *)
Record result : Type := { found : option Proxy.t; probe : option string }.

Definition declined : result := {| found := None; probe := None |}.

Definition queryRe : regex := Eval vm_compute in literal "(url|qurl)=([^&]+)".

(** [[80, 443].indexOf(port) == -1], with [lead] in front of the array *)
Definition port_not_in (lead : list JS.value) (port : option string) : bool :=
  JS.array_indexOf (lead ++ [JS.VNum 80; JS.VNum 443])%list (JS.of_option port) =? -1.

(** [Zotero.Proxies.Detectors.EZProxy.learn] *)
Definition EZProxy_learn (st : Proxies.t) (loginURI proxiedURI : Url.t)
  : completion (option Proxy.t) :=
  match exec true queryRe (JS.str_null (Url.query loginURI)) with
  | None => Return None
  | Some m =>
      if JS.truthy (Proxies.proxyToProper st (Url.href proxiedURI) true) then Return None
      else
        do properURL <-
          (if String.eqb (JS.toLowerCase (JS.str_undefined (RegExp.group m 1))) "qurl"
           then JS.decodeURI (JS.str_undefined (RegExp.group m 2))
           else Return (JS.str_undefined (RegExp.group m 2)));
        do properURI <- Url.parse properURL;
        if negb (JS.truthy (Url.protocol properURI)) then Return None
        else if JS.loose_eq (Url.hostname loginURI) (Url.hostname proxiedURI)
                && (negb (JS.truthy (Url.port proxiedURI))
                    || port_not_in [JS.of_option (Url.port loginURI)] (Url.port proxiedURI))
        then
          (* Proxy by port *)
          Return (Some
            {| Proxy.hosts := [JS.str_null (Url.host properURI)];
               Proxy.multiHost := false;
               Proxy.autoAssociate := false;
               Proxy.scheme := JS.str_null (Url.protocol proxiedURI) +:+ "//"
                               +:+ JS.str_null (Url.host proxiedURI) +:+ "/%p";
               Proxy.regexp := None; Proxy.parameters := nil; Proxy.indices := ∅ |})
        else if negb (JS.loose_eq (Url.hostname proxiedURI) (Url.hostname loginURI))
        then
          match Url.host proxiedURI with
          | None => Throw "TypeError"
          | Some proxiedHost =>
              if negb (JS.indexOf proxiedHost (JS.str_null (Url.hostname properURI)) 0 =? -1)
              then
                (* Proxy by host *)
                Return (Some
                  {| Proxy.hosts := [JS.str_null (Url.host properURI)];
                     Proxy.multiHost := true;
                     Proxy.autoAssociate := true;
                     Proxy.scheme :=
                       JS.str_null (Url.protocol proxiedURI) +:+ "//"
                       +:+ JS.replace_first proxiedHost
                             (JS.str_null (Url.hostname properURI)) "%h"
                       +:+ "/%p";
                     Proxy.regexp := None; Proxy.parameters := nil; Proxy.indices := ∅ |})
              else Return None
          end
        else Return None
  end.

(** [try { u = url.parse(v) } catch (e) {}] for a header [v]: a header
    that is [undefined] makes [url.parse] throw as well. *)
Definition try_parse (v : option string) : option Url.t :=
  match v with
  | Some s => match Url.parse s with Return u => Some u | Throw _ => None end
  | None => None
  end.

(** [Zotero.Proxies.Detectors.EZProxy] *)
Definition EZProxy (st : Proxies.t) (details : Details) : completion result :=
  do uri <- Url.parse (url details);
  (* Try to catch links from one proxy-by-port site to another *)
  let link : option (option string) :=
    if negb (JS.truthy (Url.port uri)) || port_not_in nil (Url.port uri) then
      let '(toProxy, fromProxy) :=
        if existsb (Z.eqb (statusCode details)) [301; 302; 303] then
          match try_parse (responseHeaders details !! "location") with
          | Some toProxy => (Some toProxy, Some uri)
          | None => (None, None)
          end
        else
          (Some uri, try_parse (responseHeaders details !! "referer")) in
      match fromProxy, toProxy with
      | Some fromProxy, Some toProxy =>
          if JS.loose_eq (Url.hostname fromProxy) (Url.hostname toProxy)
             && negb (JS.loose_eq (Url.port fromProxy) (Url.port toProxy))
             && (negb (JS.truthy (Url.port toProxy)) || port_not_in nil (Url.port toProxy))
          then
            match Proxies.first_match (Proxies.heap st) (fun _ => true)
                    (Proxies.proxies st) (Url.href fromProxy) with
            | Some (_, proxy, _) =>
                if Proxy.multiHost proxy
                   || JS.truthy (Proxies.proxyToProper st (Url.href toProxy) true)
                then Some None
                else Some (Some (Url.href toProxy))
            | None => None
            end
          else None
      | _, _ => None
      end
    else None in
  match link with
  | Some probed => Return {| found := None; probe := probed |}
  | None =>
      (* Now try to catch redirects *)
      match try_parse (responseHeaders details !! "location") with
      | None => Return declined
      | Some proxiedURI =>
          if negb (JS.truthy (Url.protocol proxiedURI))
             || negb (statusCode details =? 302)
             || negb (JS.loose_eq (responseHeaders details !! "server") (Some "EZproxy"))
          then Return declined
          else
            do loginURI <- Url.parse (url details);
            do proxy <- EZProxy_learn st loginURI proxiedURI;
            Return {| found := proxy; probe := None |}
      end
  end.

(** The function object [String.prototype.toLowerCase] in a comparison
    with a string: [!=] converts it to its source text. *)
Definition toLowerCase_as_string : string := "function toLowerCase() { [native code] }".

(** [Zotero.Proxies.Detectors.EZProxy.Listener.prototype.onBeforeSendHeaders]:
    the filter tests [header.name.toLowerCase != 'cookie'], where
    [toLowerCase] is not called. *)
Definition EZProxy_Listener_onBeforeSendHeaders (requestHeaders : list Header)
  : list Header :=
  filter (fun header => negb (String.eqb toLowerCase_as_string "cookie") = true)
         requestHeaders.

(** [Zotero.Proxies.Detectors.EZProxy.Listener.prototype.onHeadersReceived]:
    [Return false] and [Return true] are [return false] and
    [return {cancel: true}].  When a proxy is learned the call to
    [Zotero.debug] reads [aSubject], which is not declared, before
    [save] is reached. *)
Definition EZProxy_Listener_onHeadersReceived (st : Proxies.t) (details : Details)
  : completion bool :=
  match try_parse (responseHeaders details !! "location") with
  | None => Return false
  | Some loginURI =>
      if negb (JS.truthy (Url.protocol loginURI))
         || negb (statusCode details =? 302)
         || negb (JS.loose_eq (responseHeaders details !! "server") (Some "EZproxy"))
      then Return false
      else
        do proxiedURI <- Url.parse (url details);
        do proxy <- EZProxy_learn st loginURI proxiedURI;
        match proxy with
        | Some _ => Throw "ReferenceError"
        | None => Return true
        end
  end.

(** A value that reaches [deregister] as its [requestURL]: none when the
    call passes no argument, a string, or an array of strings. *)
Inductive argument : Type :=
| NoArgument
| StringArgument (s : string)
| ArrayArgument (items : list string).

(** [Zotero.Proxies.Detectors.EZProxy.Listener.prototype.deregister]:
    [_ignoreURLs.delete(requestURL)] removes the element that is
    [requestURL] itself, and the set holds strings.  The [removeListener]
    calls name the functions of the prototype, not the bound functions
    that the constructor registered, and remove nothing. *)
Definition EZProxy_Listener_deregister (st : Proxies.t) (requestURL : argument)
  : Proxies.t :=
  match requestURL with
  | StringArgument u =>
      Proxies.Make (Proxies.autoRecognize st) (Proxies.disabledByDomain st)
        (Proxies.showRedirectNotification st) (Proxies.heap st) (Proxies.proxies st)
        (Proxies.hosts st) (Proxies.schemeParameters st) (Proxies._reqIDToHeaders st)
        (Proxies._ignoreURLs st ∖ {[u]}) (Proxies.listeners st) (Proxies.prefs st)
  | NoArgument | ArrayArgument _ => st
  end.

(** The listener that the constructor registers for [onErrorOccurred]:
    [this.deregister.bind(this, [requestURL])]. *)
Definition EZProxy_Listener_onErrorOccurred (st : Proxies.t) (requestURL : string)
  : Proxies.t :=
  EZProxy_Listener_deregister st (ArrayArgument [requestURL]).

(** The registry that [onHeadersReceived] leaves: it calls
    [this.deregister()] when it gets to its last statements. *)
Definition EZProxy_Listener_registry_onHeadersReceived (st : Proxies.t)
           (details : Details) : Proxies.t :=
  match EZProxy_Listener_onHeadersReceived st details with
  | Return true => EZProxy_Listener_deregister st NoArgument
  | Return false | Throw _ => st
  end.

Definition juniperRe : regex :=
  Eval vm_compute in
    literal "^(https?:\/\/[^\/:]+(?:\:[0-9]+)?)\/(.*),DanaInfo=([^+,]*)([^+]*)(?:\+(.*))?$".

(** [Zotero.Proxies.Detectors.Juniper] *)
Definition Juniper (st : Proxies.t) (details : Details) : completion result :=
  match exec false juniperRe (url details) with
  | None => Return declined
  | Some m =>
      Return {| found := Some
                  {| Proxy.hosts := [JS.str_undefined (RegExp.group m 3)];
                     Proxy.multiHost := true;
                     Proxy.autoAssociate := false;
                     Proxy.scheme := JS.str_undefined (RegExp.group m 1) +:+ "/%d"
                                     +:+ ",DanaInfo=%h%a+%f";
                     Proxy.regexp := None; Proxy.parameters := nil; Proxy.indices := ∅ |};
                probe := None |}
  end.

(** The detectors in the order [for (var detectorName in Detectors)]
    visits them. *)
Definition all : list (Proxies.t -> Details -> completion result) := [EZProxy; Juniper].

End Detectors.

(** ** [Zotero.Proxies.observe] *)

Module Observer.

Definition processed (st : Proxies.t) (d : RawDetails) : Details :=
  {| url := raw_url d; statusCode := raw_statusCode d;
     requestHeaders := Proxies.requestHeaders_of st (raw_requestID d);
     responseHeaders := Proxies._processHeaders (raw_responseHeaders d);
     originUrl := raw_originUrl d |}.

(** The auto-association step: the host captured by a known multi-host
    proxy is appended to its hosts and the proxy is saved.  A host that
    names a property of [Object.prototype] is found in [hosts] as well; it
    has no dot and is blacklisted, so the test of the index does not
    decide for it. *)
Definition associate (st : Proxies.t) (id : nat) (proxy : Proxy.t)
           (m : list (option string)) (status : Z) : Proxies.t :=
  let host := JS.str_undefined (Proxy.captured proxy m "%h") in
  if Proxy.autoAssociate proxy
     && (status <? 400)
     && negb (bool_decide (is_Some (Proxies.hosts st !! host)))
     && (JS.strings_indexOf (Proxy.hosts proxy) host =? -1)
     && negb (Proxies._isBlacklisted host)
  then Proxies.save (Proxies.push_host st id host) id
  else st.

(** The synchronous part of [observe]: the registry it leaves, what it
    returns, and whether it scheduled the detection of a new proxy.  The
    refresh of [disabledByDomain] is asynchronous: the call reads the
    value of the last check. *)
Definition observe (st : Proxies.t) (d : RawDetails)
  : Proxies.t * completion (option string) * bool :=
  if bool_decide (raw_url d ∈ Proxies._ignoreURLs st) || (400 <=? raw_statusCode d)
  then (st, Return None, false)
  else
    match Url.parse (raw_url d) with
    | Throw e => (st, Throw e, false)
    | Return requestURI =>
        let '(st1, scheduled) :=
          match Proxies.first_match (Proxies.heap st) Proxy.multiHost
                  (Proxies.proxies st) (raw_url d) with
          | Some (id, proxy, m) => (associate st id proxy m (raw_statusCode d), false)
          | None => (st, Proxies.autoRecognize st)
          end in
        if Proxies.disabledByDomain st1 then (st1, Return None, scheduled)
        else
          match Proxies.properToProxy st1 (raw_url d) true with
          | Throw e => (st1, Throw e, scheduled)
          | Return proxied =>
              if negb (JS.truthy proxied) then (st1, Return None, scheduled)
              else (st1, Proxies._maybeRedirect st1 (processed st1 d) (Url.or_empty proxied),
                    scheduled)
          end
    end.

(** [new Zotero.Proxies.Detectors.EZProxy.Listener(requestURL)] *)
Definition start_probe (st : Proxies.t) (requestURL : string) : Proxies.t :=
  Proxies.Make (Proxies.autoRecognize st) (Proxies.disabledByDomain st)
    (Proxies.showRedirectNotification st) (Proxies.heap st) (Proxies.proxies st)
    (Proxies.hosts st) (Proxies.schemeParameters st) (Proxies._reqIDToHeaders st)
    ({[requestURL]} ∪ Proxies._ignoreURLs st) (requestURL :: Proxies.listeners st)
    (Proxies.prefs st).

(** The loop over the detectors: one that throws is passed over, the
    first proxy found is saved. *)
Fixpoint run_detectors (ds : list (Proxies.t -> Details -> completion Detectors.result))
         (st : Proxies.t) (details : Details) : Proxies.t :=
  match ds with
  | nil => st
  | detector :: ds' =>
      match detector st details with
      | Throw _ => run_detectors ds' st details
      | Return r =>
          let st1 :=
            match Detectors.probe r with
            | Some u => start_probe st u
            | None => st
            end in
          match Detectors.found r with
          | Some proxy => let '(st2, id) := Proxies.alloc st1 proxy in Proxies.save st2 id
          | None => run_detectors ds' st1 details
          end
      end
  end.

(** The function [observe] hands to [setTimeout]. *)
Definition observe_deferred (st : Proxies.t) (d : RawDetails) : Proxies.t :=
  run_detectors Detectors.all st (processed st d).

End Observer.


(** * Vocabulary of the properties *)

(** ** Strings *)

(** Every character of [s] satisfies [p]. *)
Fixpoint all_chars (p : ascii -> bool) (s : string) : bool :=
  match s with
  | EmptyString => true
  | String c s' => p c && all_chars p s'
  end.

Definition not_dot (c : ascii) : bool := negb (Ascii.eqb c ".").

Definition not_percent (c : ascii) : bool := negb (Ascii.eqb c "%").

(** The characters that [.] matches. *)
Definition any_char (c : ascii) : bool := negb (line_terminator c).

(** [s] has no line terminator: [.] accepts each of its characters. *)
Fixpoint no_line_break (s : string) : bool :=
  match s with
  | EmptyString => true
  | String c s' => any_char c && negb (line_separator_ahead s) && no_line_break s'
  end.

(** The labels of [s] are made of letters, digits, [+], [_] and [-]; the
    one in front has at most [n] characters and the others at most 63. *)
Fixpoint host_labels (n : nat) (s : string) : bool :=
  match s with
  | EmptyString => true
  | String c s' =>
      if Ascii.eqb c "." then host_labels 63 s'
      else
        match n with
        | O => false
        | S n' => Url.hostnamePartChar c && host_labels n' s'
        end
  end.

(** A host name that [url.parse] keeps, but for the case of its letters:
    labels of at most 63 characters, 255 characters in all. *)
Definition host_name (host : string) : Prop :=
  host_labels 63 host = true /\ (String.length host <= 255)%nat.

(** [s] is empty or ends with a printable character of ASCII that is no
    space. *)
Definition ends_plain (s : string) : bool :=
  match JS.reverse s with
  | EmptyString => true
  | String c _ => ((32 <? nat_of_ascii c) && (nat_of_ascii c <? 127))%nat
  end.

(** The characters of a host name: those of its labels, and the dot. *)
Definition host_name_char (c : ascii) : bool := Url.hostnamePartChar c || Ascii.eqb c ".".

(** Characters that [url.parse] leaves as they are in the path and query. *)
Definition path_char (c : ascii) : bool :=
  negb (Url.autoEscape c) && negb (Ascii.eqb c "#").

(** The number of dots of a string. *)
Fixpoint dots (s : string) : nat :=
  match s with
  | EmptyString => O
  | String c s' => ((if Ascii.eqb c "." then 1 else 0) + dots s')%nat
  end.

(** [s] without its prefix [p]. *)
Fixpoint strip (p s : string) : option string :=
  match p, s with
  | EmptyString, _ => Some s
  | String a p', String b s' => if Ascii.eqb a b then strip p' s' else None
  | String _ _, EmptyString => None
  end.

(** The last character of [String c s]. *)
Fixpoint last_char (c : ascii) (s : string) : ascii :=
  match s with
  | EmptyString => c
  | String c' s' => last_char c' s'
  end.

(** A label: not empty, without a dot. *)
Definition label (s : string) : Prop := s <> "" /\ all_chars not_dot s = true.

(** What precedes the last two labels of a hostname: nothing, or labels
    that end with a dot. *)
Definition leading_labels (s : string) : Prop := s = "" \/ exists s', s = s' +:+ ".".

(** ** Patterns *)

(** The characters of [s], each as a pattern. *)
Definition chars (s : string) : list regex := map Chr (list_ascii_of_string s).

(** [^], an escaped literal, [$]. *)
Definition literal_regex (s : string) : regex :=
  seq_of_list (Bol :: chars s ++ [Eol]).

(** [^], an escaped literal, [(.*?)], [$]. *)
Definition path_regex (pre : string) : regex :=
  seq_of_list (Bol :: chars pre ++ [Grp 1 (Seq (Star false Any) Eps); Eol]).

(** [/([^%])%q/], the entry of [Zotero_Proxy_schemeParameterRegexps] for
    the placeholder [%q]. *)
Definition placeholder_regexp (q : ascii) : regex :=
  Seq (Grp 1 (Seq (Cls true [("%"%char, "%"%char)]) Eps))
      (Seq (Chr "%") (Seq (Chr q) Eps)).

(** ** Compiled proxies *)

Definition placeholders : list string := ["%p"; "%d"; "%f"; "%a"; "%h"].

(** The parameter table is the one the file declares, with or without the
    [%h] that a multi-host compilation adds. *)
Definition declared_table (sp : list (string * string)) : Prop :=
  sp = Proxy.Zotero_Proxy_schemeParameters
  \/ sp = Proxy.prop_set "%h" Proxy.hostParameter Proxy.Zotero_Proxy_schemeParameters.

(** None of the five placeholders occurs in the scheme. *)
Definition no_placeholder (scheme : string) : bool :=
  forallb (fun param => JS.indexOf scheme param 0 =? -1) placeholders.

(** The matcher, if any, that compiling the stored proxy [j] gives when it
    is the first to be compiled. *)
Definition compile (j : Proxy.json) : option regex :=
  Proxy.regexp (snd (Proxy.loadFromJSON Proxy.Zotero_Proxy_schemeParameters j)).



(** A single-host proxy with the scheme [pre%p], not compiled yet. *)
Definition pathProxy (pre host : string) (auto : bool) : Proxy.t :=
  {| Proxy.hosts := [host]; Proxy.multiHost := false; Proxy.autoAssociate := auto;
     Proxy.scheme := pre +:+ "%p"; Proxy.regexp := None; Proxy.parameters := nil;
     Proxy.indices := ∅ |}.

(** The round trip of the specification for one matched URL: the
    proxied URL made from the canonical URL matches again, with the same
    canonical URL. *)
Definition round_trip (proxy : Proxy.t) (URL : string) : Prop :=
  forall r m,
    Proxy.regexp proxy = Some r -> exec false r URL = Some m ->
    exists uri proxied m',
      Url.parse (Proxy.toProper proxy m) = Return uri
      /\ Proxy.toProxy proxy uri = Return proxied
      /\ exec false r proxied = Some m'
      /\ Proxy.toProper proxy m' = Proxy.toProper proxy m.

(** ** The guards of the redirect decision *)

(** [url.parse] reads the hostname [hostname] ([None] is [null]) from [url]. *)
Definition hostname_of (url : string) (hostname : option string) : Prop :=
  exists uri, Url.parse url = Return uri /\ Url.hostname uri = hostname.

(** The referrer of the exchange has the hostname of the candidate target. *)
Definition referrer_is_target (details : Details) (proxied : string) : Prop :=
  exists headers referer hostname,
    requestHeaders details = Some headers
    /\ headers !! "referer" = Some referer
    /\ hostname_of referer hostname /\ hostname_of proxied hostname.

(** [top2DomainsRe] matches the same text in the hostnames of the request
    and of the candidate target. *)
Definition same_top_two_domains (details : Details) (proxied : string) : Prop :=
  exists hostname1 hostname2 top,
    hostname_of (url details) hostname1 /\ hostname_of proxied hostname2
    /\ Proxies.top2 hostname1 = Some top
    /\ Proxies.top2 hostname2 = Some top.

(** The hostnames of the request and of the candidate target end in the
    same two labels. *)
Definition share_last_two_labels (details : Details) (proxied : string) : Prop :=
  exists pre1 pre2 l1 l2,
    leading_labels pre1 /\ leading_labels pre2 /\ label l1 /\ label l2
    /\ hostname_of (url details) (Some (pre1 +:+ l1 +:+ "." +:+ l2))
    /\ hostname_of proxied (Some (pre2 +:+ l1 +:+ "." +:+ l2)).

(** One of the two hostnames of the last guard is not matched by
    [top2DomainsRe]: it is a single label (or [null]), or has an empty
    label at its end. *)
Definition lacks_top_two_domains (details : Details) (proxied : string) : Prop :=
  (exists hostname, hostname_of (url details) hostname /\ Proxies.top2 hostname = None)
  \/ (exists hostname, hostname_of proxied hostname /\ Proxies.top2 hostname = None)
  \/ (exists h, hostname_of (url details) (Some h) /\ all_chars not_dot h = true)
  \/ (exists h, hostname_of proxied (Some h) /\ all_chars not_dot h = true).

(** ** The host index *)

(** Every host a registered proxy lists is indexed to that proxy. *)
Definition covers (st : Proxies.t) : Prop :=
  forall id proxy h,
    id ∈ Proxies.proxies st -> Proxies.heap st !! id = Some proxy ->
    h ∈ Proxy.hosts proxy -> Proxies.hosts st !! h = Some id.

(** Every entry of the index points to a registered proxy that lists the host. *)
Definition sound (st : Proxies.t) : Prop :=
  forall h id,
    Proxies.hosts st !! h = Some id ->
    id ∈ Proxies.proxies st
    /\ exists proxy, Proxies.heap st !! id = Some proxy /\ h ∈ Proxy.hosts proxy.



(** [covers] for the proxies other than [id], the one about to be saved,
    whose hosts may have changed since the index was built. *)
Definition covers_others (id : nat) (st : Proxies.t) : Prop :=
  forall id' proxy h,
    id' <> id -> id' ∈ Proxies.proxies st -> Proxies.heap st !! id' = Some proxy ->
    h ∈ Proxy.hosts proxy -> Proxies.hosts st !! h = Some id'.

(** [sound] for the entries that point to a proxy other than [id]. *)
Definition sound_others (id : nat) (st : Proxies.t) : Prop :=
  forall h id',
    Proxies.hosts st !! h = Some id' -> id' <> id ->
    id' ∈ Proxies.proxies st
    /\ exists proxy, Proxies.heap st !! id' = Some proxy /\ h ∈ Proxy.hosts proxy.

(** No other registered proxy lists a host of [hs]. *)
Definition unshared (id : nat) (hs : list string) (st : Proxies.t) : Prop :=
  forall id' proxy h,
    id' <> id -> id' ∈ Proxies.proxies st -> Proxies.heap st !! id' = Some proxy ->
    h ∈ Proxy.hosts proxy -> h ∉ hs.


(** ** Example proxies, registries and exchanges *)

(** A multi-host proxy by host rewriting, and a single-host proxy whose
    scheme has the text [%host] in it. *)
Definition hostRewriteJSON : Proxy.json :=
  {| Proxy.json_multiHost := true; Proxy.json_autoAssociate := true;
     Proxy.json_scheme := "https://%h.proxy.example.com/%p";
     Proxy.json_hosts := ["journal.example.org"] |}.

Definition singleHostJSON : Proxy.json :=
  {| Proxy.json_multiHost := false; Proxy.json_autoAssociate := false;
     Proxy.json_scheme := "https://proxy.example.net/%host/%p";
     Proxy.json_hosts := ["archive.example.org"] |}.


Definition proxiedAbstract : string :=
  "https://journal.example.org.proxy.example.com/abstract".

(** Templates with the sequence [%x], which is no placeholder. *)
Definition unknownSequenceJSON : Proxy.json :=
  {| Proxy.json_multiHost := false; Proxy.json_autoAssociate := false;
     Proxy.json_scheme := "https://proxy.example.com/%x";
     Proxy.json_hosts := ["journal.example.org"] |}.

Definition unknownAndPathJSON : Proxy.json :=
  {| Proxy.json_multiHost := false; Proxy.json_autoAssociate := false;
     Proxy.json_scheme := "https://proxy.example.com/%x/%p";
     Proxy.json_hosts := ["journal.example.org"] |}.

(** A page behind a Juniper gateway, and the proxy that the Juniper
    detector proposes for it, stored and compiled. *)
Definition juniperPage : string :=
  "https://vpn.example.com/dir/,DanaInfo=journal.example.org,SSL+file.html".

Definition juniperJSON : Proxy.json :=
  {| Proxy.json_multiHost := true; Proxy.json_autoAssociate := false;
     Proxy.json_scheme := "https://vpn.example.com/%d,DanaInfo=%h%a+%f";
     Proxy.json_hosts := ["journal.example.org"] |}.

Definition juniperProxy : Proxy.t :=
  snd (Proxy.loadFromJSON Proxy.Zotero_Proxy_schemeParameters juniperJSON).

(** A registry with one multi-host proxy, before and after its first
    save; the proxy as compiled, and its match of a page of another host. *)
Definition campusProxy : Proxy.t :=
  {| Proxy.hosts := ["journal.example.org"]; Proxy.multiHost := true;
     Proxy.autoAssociate := true; Proxy.scheme := "https://%h.proxy.example.com/%p";
     Proxy.regexp := None; Proxy.parameters := nil; Proxy.indices := ∅ |}.

Definition unsaved : Proxies.t := fst (Proxies.alloc Proxies.empty campusProxy).

Definition campus : Proxies.t := Proxies.save unsaved 1%nat.

Definition campusCompiled : Proxy.t :=
  snd (Proxy.compileRegexp Proxy.Zotero_Proxy_schemeParameters campusProxy).

Definition archiveMatch : list (option string) :=
  [Some "https://archive.example.org.proxy.example.com/toc";
   Some "archive.example.org"; Some "toc"].

(** An exchange whose referrer is on the candidate target's host, one
    whose request host shares the target's top two domains, one that is
    redirected, and one for a host of a single label. *)
Definition fromProxiedPage : Details :=
  {| url := "http://journal.example.org/abstract"; statusCode := 200;
     requestHeaders := Some {[ "referer" := "https://journal.example.org.proxy.example.com/toc" ]};
     responseHeaders := ∅; originUrl := None |}.

Definition onCampus : Details :=
  {| url := "http://library.example.com/catalog"; statusCode := 200;
     requestHeaders := Some ∅; responseHeaders := ∅; originUrl := None |}.

Definition fromElsewhere : Details :=
  {| url := "http://journal.example.org/abstract"; statusCode := 200;
     requestHeaders := Some {[ "referer" := "http://search.example.net/results" ]};
     responseHeaders := ∅; originUrl := None |}.

Definition singleLabel : Details :=
  {| url := "http://intranet/journal"; statusCode := 200;
     requestHeaders := Some ∅; responseHeaders := ∅; originUrl := None |}.

(** The answer of an EZProxy server to the request for [login]: a redirect
    to [location]. *)
Definition loginExchange (login location : string) : RawDetails :=
  {| raw_url := login; raw_statusCode := 302; raw_requestID := "1";
     raw_responseHeaders := [ {| name := "Server"; value := "EZproxy" |};
                              {| name := "Location"; value := location |} ];
     raw_originUrl := None |}.

(** The registry at the start, with the detection of proxies switched on. *)
Definition started : Proxies.t := Proxies.init true false nil.

(** Two EZProxy servers answer the login for the same journal. *)
Definition firstLibrary : RawDetails :=
  loginExchange "https://login.ezproxy.example.edu/login?url=http://journal.example.org/path"
                "http://journal.example.org.ezproxy.example.edu/path".







(** The exchange of [firstLibrary] with user information in its
    [location]. *)
Definition userLibrary : RawDetails :=
  loginExchange "https://login.ezproxy.example.edu/login?url=http://journal.example.org/path"
                "http://reader@journal.example.org.ezproxy.example.edu/path".

(** ** Requests and answers *)

(** The value of the last header of [headerArray] whose name is [k] when
    the case of its letters is dropped. *)
Fixpoint last_header (k : string) (headerArray : list Header) : option string :=
  match headerArray with
  | nil => None
  | header :: rest =>
      match last_header k rest with
      | Some v => Some v
      | None =>
          if String.eqb (JS.toLowerCase (name header)) k then Some (value header) else None
      end
  end.

(** What a header object answers for a key: the property of its own, a
    property that it inherits from [Object.prototype], or [undefined]. *)
Inductive answered : Type :=
| Own (v : string)
| Inherited
| Undefined.

Definition property_of (headers : gmap string string) (k : string) : answered :=
  match headers !! k with
  | Some v => Own v
  | None => if JS.inherited k then Inherited else Undefined
  end.

(** The registry that [observe] leaves, and what it returns. *)
Definition registry_after (st : Proxies.t) (d : RawDetails) : Proxies.t :=
  fst (fst (Observer.observe st d)).

Definition answer (st : Proxies.t) (d : RawDetails) : completion (option string) :=
  snd (fst (Observer.observe st d)).

(** The settings and the request headers of two registries are the same. *)
Definition same_settings (a b : Proxies.t) : Prop :=
  Proxies.autoRecognize a = Proxies.autoRecognize b
  /\ Proxies.disabledByDomain a = Proxies.disabledByDomain b
  /\ Proxies._reqIDToHeaders a = Proxies._reqIDToHeaders b
  /\ Proxies._ignoreURLs a = Proxies._ignoreURLs b.

(** The exchange [d] as [observe] hands it to the redirect decision, with
    [headers] for its request headers. *)
Definition with_request_headers (d : RawDetails) (headers : option (gmap string string))
  : Details :=
  {| url := raw_url d; statusCode := raw_statusCode d; requestHeaders := headers;
     responseHeaders := Proxies._processHeaders (raw_responseHeaders d);
     originUrl := raw_originUrl d |}.

(** ** The blacklist as text *)

(** [s] ends with [p]. *)
Fixpoint ends_with (p s : string) : bool :=
  String.eqb s p
  || match s with
     | String _ s' => ends_with p s'
     | EmptyString => false
     end.

(** An escaped literal, [$]. *)
Definition suffix_regex (p : string) : regex := seq_of_list (chars p ++ [Eol]).

(** What [_isBlacklisted] says in terms of the host's text. *)
Definition blacklisted (host : string) : bool :=
  (ends_with "edu" host || ends_with "google.com" host || ends_with "wikipedia.org" host
   || all_chars not_dot host || ends_with "doubleclick.net" host)
  && negb (String.eqb host "scholar.google.com" || String.eqb host "muse.jhu.edu").

(** ** Recorded placeholders *)

(** The positions [ix] gives to the elements of [l] never decrease. *)
Fixpoint ascending (ix : string -> Z) (l : list string) : bool :=
  match l with
  | a :: (b :: _) as l' => (ix a <=? ix b) && ascending ix l'
  | _ => true
  end.

(** What the loop over the placeholders keeps: the placeholders found are
    those with a recorded position, and no position is negative. *)
Definition recorded (acc : string * gmap string Z * list string) : Prop :=
  (forall param, param ∈ acc.2 <-> is_Some (acc.1.2 !! param))
  /\ (forall param i, acc.1.2 !! param = Some i -> 0 <= i).

(** ** Schemes with an escape and schemes that rewrite the host *)

(** A single-host proxy whose scheme ends with the escaped sequence [%%p],
    not compiled yet. *)
Definition escapedProxy (pre : string) (hs : list string) (auto : bool) : Proxy.t :=
  {| Proxy.hosts := hs; Proxy.multiHost := false; Proxy.autoAssociate := auto;
     Proxy.scheme := pre +:+ "%%p"; Proxy.regexp := None; Proxy.parameters := nil;
     Proxy.indices := ∅ |}.

(** A multi-host proxy with the scheme [pre%hmid%p], not compiled yet. *)
Definition hostProxy (pre mid : string) (hs : list string) (auto : bool) : Proxy.t :=
  {| Proxy.hosts := hs; Proxy.multiHost := true; Proxy.autoAssociate := auto;
     Proxy.scheme := pre +:+ "%h" +:+ mid +:+ "%p"; Proxy.regexp := None;
     Proxy.parameters := nil; Proxy.indices := ∅ |}.

(** The characters of [[a-zA-Z0-9.]]. *)
Definition host_rest (c : ascii) : bool := JS.is_alnum c || Ascii.eqb c ".".

(** The ranges of [[a-zA-Z0-9]] and of [[a-zA-Z0-9.]]. *)
Definition alnum_ranges : list (ascii * ascii) :=
  [("a"%char, "z"%char); ("A"%char, "Z"%char); ("0"%char, "9"%char)].

Definition host_rest_ranges : list (ascii * ascii) :=
  [("a"%char, "z"%char); ("A"%char, "Z"%char); ("0"%char, "9"%char); ("."%char, "."%char)].

(** [([a-zA-Z0-9]+\.[a-zA-Z0-9.]+)], the pattern fragment of [%h]. *)
Definition hostParameter_regex : regex :=
  Grp 1 (Seq (Plus true (Cls false alnum_ranges))
             (Seq (Chr ".") (Seq (Plus true (Cls false host_rest_ranges)) Eps))).

(** [^], an escaped literal, the fragment of [%h], an escaped literal,
    [(.*?)], [$]. *)
Definition host_regex (pre mid : string) : regex :=
  seq_of_list (Bol :: chars pre
                 ++ hostParameter_regex :: chars mid
                 ++ [Grp 2 (Seq (Star false Any) Eps); Eol]).

(** A host name as the fragment of [%h] accepts it: letters and digits, a
    dot, then letters, digits and dots. *)
Definition hostlike (h : string) : Prop :=
  exists a b,
    h = a +:+ "." +:+ b /\ a <> "" /\ b <> ""
    /\ all_chars JS.is_alnum a = true /\ all_chars host_rest b = true.

(** ** The registry *)

(** No proxy is registered twice, and every registered reference is to an
    object of the heap. *)
Definition well_formed (st : Proxies.t) : Prop :=
  NoDup (Proxies.proxies st)
  /\ forall id, id ∈ Proxies.proxies st -> is_Some (Proxies.heap st !! id).


(** The hosts of the registered proxies, in the order of registration. *)
Definition registered_hosts (st : Proxies.t) : list (list string) :=
  omap (fun id => Proxy.hosts <$> Proxies.heap st !! id) (Proxies.proxies st).

(** ** The domain check and the probes *)

(** No upper-case letter. *)
Definition not_upper (c : ascii) : bool := negb (JS.is_upper c).

(** What happens to the probe that a listener watches: its headers are
    received, or the request fails. *)
Inductive probe_event : Type :=
| HeadersReceived (details : Details)
| ErrorOccurred.

(** The registry after the events of the probe for [requestURL]. *)
Definition after_probe_events (st : Proxies.t) (requestURL : string)
           (events : list probe_event) : Proxies.t :=
  fold_left
    (fun st event =>
       match event with
       | HeadersReceived details =>
           Detectors.EZProxy_Listener_registry_onHeadersReceived st details
       | ErrorOccurred => Detectors.EZProxy_Listener_onErrorOccurred st requestURL
       end)
    events st.

(** ** More example exchanges *)

(** Requests for a page of the journal, with and without an error status,
    and for a proxied page of another host; the request headers of a
    browser that comes from a search engine. *)
Definition abstractRequest : RawDetails :=
  {| raw_url := "http://journal.example.org/abstract"; raw_statusCode := 200;
     raw_requestID := "7"; raw_responseHeaders := nil; raw_originUrl := None |}.

Definition missingPage : RawDetails :=
  {| raw_url := "http://journal.example.org/abstract"; raw_statusCode := 404;
     raw_requestID := "7"; raw_responseHeaders := nil; raw_originUrl := None |}.

Definition archiveRequest : RawDetails :=
  {| raw_url := "https://archive.example.org.proxy.example.com/toc"; raw_statusCode := 200;
     raw_requestID := "8"; raw_responseHeaders := nil; raw_originUrl := None |}.

Definition fromSearch : list Header :=
  [ {| name := "Referer"; value := "http://search.example.net/results" |} ].

(** An exchange whose referrer is a page of the journal, not proxied, and
    one that a proxied page started. *)
Definition fromJournalPage : Details :=
  {| url := "http://journal.example.org/abstract"; statusCode := 200;
     requestHeaders := Some {[ "referer" := "http://journal.example.org/toc" ]};
     responseHeaders := ∅; originUrl := None |}.

Definition fromProxiedOrigin : Details :=
  {| url := "http://cdn.example.net/style.css"; statusCode := 200;
     requestHeaders := Some ∅; responseHeaders := ∅;
     originUrl := Some "https://journal.example.org.proxy.example.com/toc" |}.

(** The proxy that the EZProxy detector makes of [firstLibrary]. *)
Definition firstLibraryProxy : Proxy.t :=
  {| Proxy.hosts := ["journal.example.org"]; Proxy.multiHost := true;
     Proxy.autoAssociate := true; Proxy.scheme := "http://%h.ezproxy.example.edu/%p";
     Proxy.regexp := None; Proxy.parameters := nil; Proxy.indices := ∅ |}.

(** A page behind a gateway that is not a Juniper one. *)
Definition plainPage : Details :=
  {| url := "https://vpn.example.com/dir/file.html"; statusCode := 200;
     requestHeaders := Some ∅; responseHeaders := ∅; originUrl := None |}.

(** The settings of the domain check at the start, without a domain and
    with one. *)
Definition noDomain : Proxies.domains :=
  {| Proxies.disableByDomain := Proxies.disableByDomain_init true false "example.edu";
     Proxies.lastIPCheck := 0 |}.

Definition campusDomain : Proxies.domains :=
  {| Proxies.disableByDomain := Proxies.disableByDomain_init true true "example.edu";
     Proxies.lastIPCheck := 0 |}.

(** * Properties *)

(** ** Strings *)

Lemma append_nil (s : string) : "" +:+ s = s.
Proof. reflexivity. Qed.

Lemma append_cons (c : ascii) (s t : string) : String c s +:+ t = String c (s +:+ t).
Proof. reflexivity. Qed.

Ltac unfold_append := rewrite ?append_cons, ?append_nil.

Lemma append_empty_r (s : string) : s +:+ "" = s.
Proof. induction s as [|c s IH]; unfold_append; [reflexivity | now rewrite IH]. Qed.

Lemma append_assoc (a b c : string) : (a +:+ b) +:+ c = a +:+ (b +:+ c).
Proof. induction a as [|x a IH]; unfold_append; [reflexivity | now rewrite IH]. Qed.

Lemma length_append (a b : string) :
  String.length (a +:+ b) = (String.length a + String.length b)%nat.
Proof. induction a as [|x a IH]; unfold_append; simpl; [reflexivity | now rewrite IH]. Qed.

Lemma take_append (a b : string) : JS.take (String.length a) (a +:+ b) = a.
Proof.
  induction a as [|x a IH]; unfold_append; simpl; [now destruct b | now rewrite IH].
Qed.

Lemma drop_append (a b : string) : JS.drop (String.length a) (a +:+ b) = b.
Proof. induction a as [|x a IH]; unfold_append; simpl; [reflexivity | exact IH]. Qed.

Lemma drop_add (n m : nat) (s : string) : JS.drop (n + m) s = JS.drop m (JS.drop n s).
Proof.
  revert s. induction n as [|n IH]; intros s; [reflexivity|].
  destruct s as [|c s]; cbn [Nat.add JS.drop]; [now destruct m | apply IH].
Qed.

Lemma take_all (s : string) : JS.take (String.length s) s = s.
Proof. rewrite <- (append_empty_r s) at 2. apply take_append. Qed.

Lemma take_drop (n : nat) (s : string) : JS.take n s +:+ JS.drop n s = s.
Proof.
  revert s. induction n as [|n IH]; intros s.
  - now destruct s.
  - destruct s as [|c s]; [reflexivity|]. cbn [JS.take JS.drop]. unfold_append.
    now rewrite IH.
Qed.

Lemma take_init_last (c : ascii) (s t : string) :
  JS.take (String.length s) (String c s +:+ t) +:+ String (last_char c s) "" = String c s.
Proof.
  revert c. induction s as [|x s IH]; intros c; unfold_append.
  - reflexivity.
  - cbn [String.length JS.take last_char]. unfold_append. f_equal.
    rewrite <- append_cons. apply IH.
Qed.

Lemma all_chars_append (p : ascii -> bool) (a b : string) :
  all_chars p (a +:+ b) = all_chars p a && all_chars p b.
Proof.
  induction a as [|x a IH]; unfold_append; simpl; [reflexivity | now rewrite IH, andb_assoc].
Qed.

Lemma all_chars_tail (p : ascii -> bool) (c : ascii) (t : string) :
  all_chars p (String c t) = true -> all_chars p t = true.
Proof. simpl. intros H. now apply andb_prop in H as [_ H]. Qed.

Lemma all_chars_get (p : ascii -> bool) (s : string) (n : nat) (c : ascii) :
  all_chars p s = true -> String.get n s = Some c -> p c = true.
Proof.
  revert n. induction s as [|x s IH]; intros n Hs Hget; [discriminate Hget|].
  simpl in Hs. apply andb_prop in Hs as [Hx Hs].
  destruct n as [|n]; simpl in Hget.
  - now injection Hget as <-.
  - now apply (IH n).
Qed.

Lemma all_chars_impl (p q : ascii -> bool) (s : string) :
  (forall c, p c = true -> q c = true) -> all_chars p s = true -> all_chars q s = true.
Proof.
  intros Hpq. induction s as [|c s IH]; [reflexivity|]. simpl. intros H.
  apply andb_prop in H as [Hc Hs]. now rewrite (Hpq c Hc), IH.
Qed.

Lemma dots_append (a b : string) : dots (a +:+ b) = (dots a + dots b)%nat.
Proof.
  induction a as [|c a IH]; unfold_append; cbn [dots]; [reflexivity | rewrite IH; lia].
Qed.

Lemma dots_none (s : string) : all_chars not_dot s = true -> dots s = 0%nat.
Proof.
  induction s as [|c s IH]; [reflexivity|]. simpl. unfold not_dot at 1. intros H.
  apply andb_prop in H as [Hc Hs]. rewrite (IH Hs). now destruct (Ascii.eqb c ".").
Qed.

Lemma find_ge (pat s : string) (i j : nat) : JS.find pat s i = Some j -> (i <= j)%nat.
Proof.
  revert i. induction s as [|x s IH]; intros i; cbn [JS.find].
  - destruct (JS.prefix pat ""); [intros [= <-]; lia | discriminate].
  - destruct (JS.prefix pat (String x s)); [intros [= <-]; lia|].
    intros H. apply IH in H. lia.
Qed.

Lemma find_char_none (c : ascii) (s : string) (i : nat) :
  all_chars (fun x => negb (Ascii.eqb x c)) s = true ->
  JS.find (String c "") s i = None.
Proof.
  revert i. induction s as [|x s IH]; intros i Hs; [reflexivity|].
  simpl in Hs. apply andb_prop in Hs as [Hx Hs]. cbn [JS.find JS.prefix].
  rewrite Ascii.eqb_sym. destruct (Ascii.eqb x c); [discriminate Hx|].
  cbn [andb]. now apply IH.
Qed.

Lemma find_last_none (c : ascii) (s : string) (i : nat) :
  all_chars (fun x => negb (Ascii.eqb x c)) s = true -> JS.find_last c s i = None.
Proof.
  revert i. induction s as [|x s IH]; intros i Hs; [reflexivity|].
  simpl in Hs. apply andb_prop in Hs as [Hx Hs]. cbn [JS.find_last].
  rewrite (IH (S i) Hs). rewrite Ascii.eqb_sym. now destruct (Ascii.eqb x c).
Qed.

Lemma prefix_percent_false (q : ascii) (c : ascii) (s : string) :
  not_percent c = true -> JS.prefix (String "%" (String q "")) (String c s) = false.
Proof.
  unfold not_percent. intros H. cbn [JS.prefix].
  rewrite Ascii.eqb_sym. now destruct (Ascii.eqb c "%").
Qed.

(** In a string whose only [%] is the one of a final placeholder, a
    placeholder is found at that place or nowhere. *)
Lemma find_placeholder (q p : ascii) (pre : string) (i : nat) :
  all_chars not_percent pre = true ->
  JS.find (String "%" (String q "")) (pre +:+ String "%" (String p "")) i
  = if Ascii.eqb q p then Some (i + String.length pre)%nat else None.
Proof.
  revert i. induction pre as [|c pre IH]; intros i Hpre; unfold_append.
  - cbn [JS.find JS.prefix String.length]. rewrite Nat.add_0_r, Ascii.eqb_refl.
    cbn [andb]. rewrite andb_true_r.
    destruct (Ascii.eqb q p); [reflexivity|].
    rewrite andb_false_r. reflexivity.
  - simpl in Hpre. apply andb_prop in Hpre as [Hc Hpre].
    cbn [JS.find]. rewrite (prefix_percent_false q c _ Hc).
    rewrite (IH (S i) Hpre). cbn [String.length]. rewrite Nat.add_succ_r. reflexivity.
Qed.

Lemma strip_append (p t : string) : strip p (p +:+ t) = Some t.
Proof.
  induction p as [|c p IH]; unfold_append; [reflexivity|].
  cbn [strip]. now rewrite Ascii.eqb_refl.
Qed.

Lemma strip_Some (p s t : string) : strip p s = Some t -> s = p +:+ t.
Proof.
  revert s. induction p as [|c p IH]; intros s H.
  - now injection H as ->.
  - destruct s as [|x s]; [discriminate H|]. cbn [strip] in H.
    destruct (Ascii.eqb_spec c x) as [->|_]; [|discriminate H].
    unfold_append. now rewrite (IH s H).
Qed.

(** ** The matcher *)

Lemma cls_not_percent (c : ascii) :
  cls_mem false true [("%"%char, "%"%char)] c = not_percent c.
Proof.
  destruct c as [[] [] [] [] [] [] [] []]; reflexivity.
Qed.

Lemma cls_not_dot (c : ascii) :
  cls_mem false true [("."%char, "."%char)] c = not_dot c.
Proof. destruct c as [[] [] [] [] [] [] [] []]; reflexivity. Qed.

(** A quantified character test gives no match when the continuation
    fails on every string the iterations can reach. *)
Lemma star_loop_fails (ok : ascii -> bool) (P : string -> Prop)
      (body : nat -> string -> captures -> cont -> option (nat * captures))
      (greedy : bool) (k : cont) :
  (forall i s cs k', body i s cs k' = step_char ok i s cs k') ->
  (forall c t, ok c = true -> P (String c t) -> P t) ->
  (forall j t cs, P t -> k j t cs = None) ->
  forall fuel i s cs, P s -> star_loop body greedy k fuel i s cs = None.
Proof.
  intros Hbody Htail Hk. induction fuel as [|fuel IH]; intros i s cs HP; cbn [star_loop].
  - now apply Hk.
  - rewrite Hbody, (Hk i s cs HP).
    assert (Hmore : step_char ok i s cs
              (fun i' s' cs' =>
                 if Nat.eqb i' i then None else star_loop body greedy k fuel i' s' cs') = None).
    { destruct s as [|c t]; cbn [step_char]; [reflexivity|].
      destruct (ok c) eqn:Hc; [|reflexivity].
      destruct (Nat.eqb (S i) i); [reflexivity|].
      apply IH. now apply (Htail c). }
    rewrite Hmore. now destruct greedy.
Qed.

(** A greedy quantified character test takes the whole run of characters
    it accepts when the continuation succeeds behind it. *)
Lemma star_loop_greedy (ok : ascii -> bool)
      (body : nat -> string -> captures -> cont -> option (nat * captures))
      (k : cont) (a t : string) (res : nat * captures) :
  (forall i s cs k', body i s cs k' = step_char ok i s cs k') ->
  all_chars ok a = true ->
  match t with EmptyString => True | String c _ => ok c = false end ->
  forall fuel i cs,
    (String.length a <= fuel)%nat ->
    k (i + String.length a)%nat t cs = Some res ->
    star_loop body true k fuel i (a +:+ t) cs = Some res.
Proof.
  intros Hbody Ha Ht. induction a as [|x a IH]; intros fuel i cs Hfuel Hk.
  - unfold_append. cbn [String.length] in Hk. rewrite Nat.add_0_r in Hk.
    destruct fuel as [|fuel]; cbn [star_loop]; [exact Hk|].
    rewrite Hbody. destruct t as [|c t]; cbn [step_char]; [exact Hk|].
    now rewrite Ht.
  - simpl in Ha. apply andb_prop in Ha as [Hx Ha].
    destruct fuel as [|fuel]; [cbn [String.length] in Hfuel; lia|].
    rewrite append_cons. cbn [star_loop]. rewrite Hbody. cbn [step_char]. rewrite Hx.
    replace (Nat.eqb (S i) i) with false by (symmetry; apply Nat.eqb_neq; lia).
    rewrite (IH Ha fuel (S i) cs); [reflexivity | cbn [String.length] in Hfuel; lia|].
    cbn [String.length] in Hk.
    now replace (S i + String.length a)%nat with (i + S (String.length a))%nat by lia.
Qed.

Lemma star_loop_greedy_end (ok : ascii -> bool)
      (body : nat -> string -> captures -> cont -> option (nat * captures))
      (k : cont) (a : string) (res : nat * captures) :
  (forall i s cs k', body i s cs k' = step_char ok i s cs k') ->
  all_chars ok a = true ->
  forall fuel i cs,
    (String.length a <= fuel)%nat ->
    k (i + String.length a)%nat "" cs = Some res ->
    star_loop body true k fuel i a cs = Some res.
Proof.
  intros Hbody Ha fuel i cs Hfuel Hk.
  rewrite <- (append_empty_r a) at 1.
  now apply (star_loop_greedy ok body k a "" res Hbody Ha I).
Qed.

(** A lazy [.*] in front of a continuation that accepts only the end of
    the subject runs to that end, over characters [.] accepts. *)
Lemma lazy_any_to_end
      (body : nat -> string -> captures -> cont -> option (nat * captures))
      (k : cont) (u : string) :
  (forall i s cs k', body i s cs k' = step_any i s cs k') ->
  (forall j c t cs, k j (String c t) cs = None) ->
  forall fuel i cs,
    (String.length u <= fuel)%nat ->
    star_loop body false k fuel i u cs
    = if no_line_break u then k (i + String.length u)%nat "" cs else None.
Proof.
  intros Hbody Hk. induction u as [|c u IH]; intros fuel i cs Hfuel.
  - cbn [no_line_break String.length]. rewrite Nat.add_0_r.
    destruct fuel as [|fuel]; [reflexivity|]. cbn [star_loop]. rewrite Hbody.
    unfold step_any. cbn [line_separator_ahead step_char]. now destruct (k i "" cs).
  - destruct fuel as [|fuel]; [cbn [String.length] in Hfuel; lia|].
    cbn [star_loop no_line_break String.length]. rewrite Hk, Hbody. unfold step_any.
    destruct (line_separator_ahead (String c u));
      [rewrite andb_false_r; reflexivity|].
    cbn [step_char]. fold (any_char c).
    destruct (any_char c); [|reflexivity]. cbn [andb negb].
    replace (Nat.eqb (S i) i) with false by (symmetry; apply Nat.eqb_neq; lia).
    rewrite IH by (cbn [String.length] in Hfuel; lia).
    now replace (i + S (String.length u))%nat with (S i + String.length u)%nat by lia.
Qed.

Lemma rmatch_chars (p : string) (rs : list regex) (i : nat) (s : string)
      (cs : captures) (k : cont) :
  rmatch false (seq_of_list (chars p ++ rs)) i s cs k
  = match strip p s with
    | Some t => rmatch false (seq_of_list rs) (i + String.length p) t cs k
    | None => None
    end.
Proof.
  revert i s. induction p as [|c p IH]; intros i s.
  - cbn [chars list_ascii_of_string map app strip String.length]. now rewrite Nat.add_0_r.
  - unfold chars in *. cbn [list_ascii_of_string map app seq_of_list fold_right].
    cbn [rmatch]. destruct s as [|x s]; [reflexivity|].
    cbn [strip step_char chr_eq]. destruct (Ascii.eqb c x); [|reflexivity].
    change (fold_right Seq Eps (map Chr (list_ascii_of_string p) ++ rs))
      with (seq_of_list (map Chr (list_ascii_of_string p) ++ rs)).
    rewrite IH. cbn [String.length].
    now replace (i + S (String.length p))%nat with (S i + String.length p)%nat by lia.
Qed.

Lemma ngroups_chars (p : string) (rs : list regex) :
  ngroups (seq_of_list (chars p ++ rs)) = ngroups (seq_of_list rs).
Proof.
  induction p as [|c p IH]; [reflexivity|].
  unfold chars in *. cbn [list_ascii_of_string map app seq_of_list fold_right ngroups].
  exact IH.
Qed.

(** An anchored pattern matches at the start of the subject or nowhere. *)
Lemma search_anchored_later (r : regex) (s : string) (i : nat) :
  search false (Seq Bol r) (S i) s = None.
Proof.
  revert i. induction s as [|c s IH]; intros i; cbn [search rmatch Nat.eqb]; [reflexivity|].
  apply IH.
Qed.

Lemma search_anchored (r : regex) (s : string) :
  search false (Seq Bol r) 0 s
  = match rmatch false r 0 s nil (fun j _ cs => Some (j, cs)) with
    | Some (j, cs) => Some (0%nat, j, cs)
    | None => None
    end.
Proof.
  destruct s as [|c s]; cbn [search rmatch Nat.eqb];
    destruct (rmatch false r 0 _ nil _) as [[j cs]|]; try reflexivity.
  apply search_anchored_later.
Qed.

(** The matcher of a literal template accepts the template and nothing else. *)
Lemma exec_literal (s URL : string) :
  exec false (literal_regex s) URL = if String.eqb URL s then Some [Some URL] else None.
Proof.
  unfold exec, literal_regex. cbn [seq_of_list fold_right].
  change (fold_right Seq Eps (chars s ++ [Eol])) with (seq_of_list (chars s ++ [Eol])).
  rewrite search_anchored, rmatch_chars.
  destruct (strip s URL) as [t|] eqn:Hstrip.
  - apply strip_Some in Hstrip. subst URL.
    cbn [seq_of_list fold_right rmatch]. destruct t as [|c t].
    + rewrite append_empty_r, String.eqb_refl. cbn [Nat.add Nat.sub JS.drop].
      rewrite Nat.sub_0_r, take_all.
      cbn [ngroups]. rewrite ngroups_chars. reflexivity.
    + destruct (String.eqb_spec (s +:+ String c t) s) as [Heq|_]; [|reflexivity].
      exfalso. apply (f_equal String.length) in Heq. rewrite length_append in Heq.
      cbn [String.length] in Heq. lia.
  - destruct (String.eqb_spec URL s) as [->|_]; [|reflexivity].
    pose proof (strip_append s "") as H. rewrite append_empty_r in H. congruence.
Qed.

(** The matcher of [pre%p] accepts the URLs that start with [pre] and go
    on without a line break, and captures what follows [pre]. *)
Lemma exec_path (pre URL : string) :
  exec false (path_regex pre) URL
  = match strip pre URL with
    | Some u => if no_line_break u then Some [Some URL; Some u] else None
    | None => None
    end.
Proof.
  unfold exec, path_regex. cbn [seq_of_list fold_right].
  change (fold_right Seq Eps (chars pre ++ [Grp 1 (Seq (Star false Any) Eps); Eol]))
    with (seq_of_list (chars pre ++ [Grp 1 (Seq (Star false Any) Eps); Eol])).
  rewrite search_anchored, rmatch_chars.
  destruct (strip pre URL) as [u|] eqn:Hstrip; [|reflexivity].
  apply strip_Some in Hstrip. subst URL.
  cbn [seq_of_list fold_right rmatch].
  rewrite lazy_any_to_end; [|intros; reflexivity|intros; reflexivity|lia].
  destruct (no_line_break u); [|reflexivity].
  cbn [Nat.add Nat.sub JS.drop ngroups]. rewrite ngroups_chars.
  cbn [seq_of_list fold_right ngroups Nat.max seq map capture Nat.eqb].
  replace (String.length pre + String.length u - String.length pre)%nat
    with (String.length u) by lia.
  rewrite Nat.sub_0_r, <- length_append, !take_all. reflexivity.
Qed.

(** The leftmost occurrence of [[^%]%q] in a string whose first [%] is
    that of [%q]. *)
Lemma search_placeholder (q : ascii) (c : ascii) (a b : string) (i : nat) :
  all_chars not_percent (String c a) = true ->
  search false (placeholder_regexp q) i (String c a +:+ String "%" (String q b))
  = Some ((i + String.length a)%nat, (i + String.length a + 3)%nat,
          [(1%nat, String (last_char c a) "")]).
Proof.
  revert c i. induction a as [|x a IH]; intros c i Ha.
  - unfold_append. cbn [search placeholder_regexp rmatch step_char String.length last_char].
    simpl in Ha. rewrite andb_true_r in Ha. rewrite cls_not_percent, Ha.
    cbn [chr_eq]. rewrite !Ascii.eqb_refl.
    replace (S i - i)%nat with 1%nat by lia. cbn [JS.take].
    replace (i + 0)%nat with i by lia.
    replace (S (S (S i))) with (i + 3)%nat by lia. reflexivity.
  - simpl in Ha. apply andb_prop in Ha as [Hc Ha].
    pose proof Ha as Ha'. apply andb_prop in Ha' as [Hx _].
    rewrite append_cons. cbn [search].
    assert (Hhere : rmatch false (placeholder_regexp q) i
                      (String c (String x a +:+ String "%" (String q b))) nil
                      (fun j _ cs => Some (j, cs)) = None).
    { rewrite append_cons. cbn [placeholder_regexp rmatch step_char].
      rewrite cls_not_percent, Hc.
      cbn [chr_eq]. unfold not_percent in Hx. rewrite Ascii.eqb_sym.
      now destruct (Ascii.eqb x "%"). }
    rewrite Hhere. rewrite (IH x (S i)).
    + cbn [String.length last_char].
      replace (i + S (String.length a))%nat with (S i + String.length a)%nat by lia.
      reflexivity.
    + simpl. exact Ha.
Qed.

(** Replacing the placeholder by its pattern fragment. *)
Lemma replace_placeholder (q : ascii) (c : ascii) (a b fragment : string) :
  all_chars not_percent (String c a) = true ->
  RegExp.replace false (placeholder_regexp q)
    (String c a +:+ String "%" (String q b))
    (fun cs => JS.str_undefined (capture 1 cs) +:+ fragment)
  = String c a +:+ fragment +:+ b.
Proof.
  intros Ha. unfold RegExp.replace. rewrite (search_placeholder q c a b 0 Ha).
  cbn [Nat.add capture Nat.eqb JS.str_undefined].
  rewrite <- !append_assoc. rewrite take_init_last.
  f_equal.
  replace (String.length a + 3)%nat with (String.length (String c a) + 2)%nat
    by (cbn [String.length]; lia).
  rewrite drop_add, drop_append. reflexivity.
Qed.

(** ** Parsing the pattern of an escaped literal *)

Lemma lex_escaped (c : ascii) (s : string) :
  Utilities.is_meta c = true ->
  lex Normal (String "\" (String c s)) = cons (TChr c) <$> lex Normal s.
Proof.
  destruct c as [[] [] [] [] [] [] [] []]; intros H; cbv in H; try discriminate H; reflexivity.
Qed.

Lemma lex_plain (c : ascii) (s : string) :
  Utilities.is_meta c = false ->
  lex Normal (String c s) = cons (TChr c) <$> lex Normal s.
Proof.
  destruct c as [[] [] [] [] [] [] [] []]; intros H; cbv in H; try discriminate H; reflexivity.
Qed.

(** The tokens of [quotemeta s] are the characters of [s]. *)
Lemma lex_quotemeta (s rest : string) :
  lex Normal (Utilities.quotemeta s +:+ rest)
  = (fun ts => map TChr (list_ascii_of_string s) ++ ts)%list <$> lex Normal rest.
Proof.
  induction s as [|c s IH]; cbn [Utilities.quotemeta list_ascii_of_string map].
  - unfold_append. now destruct (lex Normal rest).
  - destruct (Utilities.is_meta c) eqn:Hc; unfold_append.
    + rewrite (lex_escaped c _ Hc), IH. now destruct (lex Normal rest).
    + rewrite (lex_plain c _ Hc), IH. now destruct (lex Normal rest).
Qed.

Lemma parse_tokens_chars (l : list ascii) (ts : list token) (cur : frame)
      (stack : list frame) (next : nat) :
  parse_tokens (map TChr l ++ ts) cur stack next
  = parse_tokens ts
      (Frame (f_alts cur) (rev (map Chr l) ++ f_items cur)
             (match l with nil => f_quantifiable cur | _ => true end) (f_group cur))
      stack next.
Proof.
  revert cur. induction l as [|c l IH]; intros cur.
  - cbn [map app rev]. now destruct cur.
  - cbn [map app parse_tokens]. rewrite IH. cbn [push_item f_alts f_items f_group rev].
    rewrite <- app_assoc. cbn [app]. now destruct l.
Qed.

Lemma parse_literal (s : string) :
  RegExp.parse ("^" +:+ Utilities.quotemeta s +:+ "$") = Some (literal_regex s).
Proof.
  unfold RegExp.parse. rewrite append_cons, append_nil.
  change (lex Normal (String "^" (Utilities.quotemeta s +:+ "$")))
    with (cons TBol <$> lex Normal (Utilities.quotemeta s +:+ "$")).
  rewrite lex_quotemeta. change (lex Normal "$") with (Some [TEol]).
  cbn [fmap option_fmap option_map mbind option_bind].
  cbn [parse_tokens]. rewrite parse_tokens_chars.
  cbn [parse_tokens push_item frame0 f_alts f_items f_group frame_regex fold_left].
  unfold literal_regex, chars. f_equal. f_equal.
  cbn [rev]. rewrite rev_app_distr, rev_involutive. reflexivity.
Qed.

Lemma parse_path (pre : string) :
  RegExp.parse ("^" +:+ Utilities.quotemeta pre +:+ "(.*?)$") = Some (path_regex pre).
Proof.
  unfold RegExp.parse. rewrite append_cons, append_nil.
  change (lex Normal (String "^" (Utilities.quotemeta pre +:+ "(.*?)$")))
    with (cons TBol <$> lex Normal (Utilities.quotemeta pre +:+ "(.*?)$")).
  rewrite lex_quotemeta.
  change (lex Normal "(.*?)$") with (Some [TOpen true; TAny; TStar; TQuest; TClose; TEol]).
  cbn [fmap option_fmap option_map mbind option_bind].
  cbn [parse_tokens]. rewrite parse_tokens_chars.
  cbn [parse_tokens push_item frame0 f_alts f_items f_group f_quantifiable frame_regex
       fold_left quantify mbind option_bind seq_of_list fold_right rev app].
  unfold path_regex, chars, seq_of_list. f_equal.
  rewrite !rev_app_distr, rev_involutive. cbn [rev app]. rewrite <- !app_assoc.
  reflexivity.
Qed.

(** ** Parsing a canonical URL *)

Lemma span_append (p : ascii -> bool) (a : string) (c : ascii) (b : string) :
  all_chars p a = true -> p c = false ->
  Url.span p (a +:+ String c b) = (a, String c b).
Proof.
  intros Ha Hc. induction a as [|x a IH]; unfold_append; cbn [Url.span].
  - now rewrite Hc.
  - simpl in Ha. apply andb_prop in Ha as [Hx Ha]. now rewrite Hx, IH.
Qed.

Lemma escape_rest_plain (s : string) :
  all_chars (fun c => negb (Url.autoEscape c)) s = true -> Url.escape_rest s = s.
Proof.
  induction s as [|c s IH]; [reflexivity|]. simpl. intros H.
  apply andb_prop in H as [Hc Hs]. destruct (Url.autoEscape c); [discriminate Hc|].
  now rewrite IH.
Qed.

Lemma split_protocol_http (r : string) :
  Url.split_protocol (String "h" (String "t" (String "t" (String "p" (String ":" r)))))
  = (Some "http:", r).
Proof. reflexivity. Qed.

Lemma reverse_append (a b : string) : JS.reverse (a +:+ b) = JS.reverse b +:+ JS.reverse a.
Proof.
  induction a as [|c a IH]; unfold_append; cbn [JS.reverse].
  - now rewrite append_empty_r.
  - now rewrite IH, append_assoc.
Qed.

Lemma reverse_reverse (s : string) : JS.reverse (JS.reverse s) = s.
Proof.
  induction s as [|c s IH]; [reflexivity|]. cbn [JS.reverse].
  rewrite reverse_append, IH. reflexivity.
Qed.

Lemma length_reverse (s : string) : String.length (JS.reverse s) = String.length s.
Proof.
  induction s as [|c s IH]; [reflexivity|]. cbn [JS.reverse].
  rewrite length_append, IH. cbn. lia.
Qed.

Lemma forward_slashes_plain (s : string) :
  all_chars (fun c => negb (Ascii.eqb c "\")) s = true -> Url.forward_slashes s = s.
Proof.
  induction s as [|c s IH]; [reflexivity|]. cbn [all_chars Url.forward_slashes]. intros H.
  apply andb_prop in H as [Hc Hs]. destruct (Ascii.eqb c "\"); [discriminate Hc|].
  now rewrite IH.
Qed.

Lemma all_chars_take (p : ascii -> bool) (n : nat) (s : string) :
  all_chars p s = true -> all_chars p (JS.take n s) = true.
Proof.
  revert n. induction s as [|c s IH]; intros [|n] H; try reflexivity.
  cbn [all_chars JS.take] in *. apply andb_prop in H as [Hc Hs]. now rewrite Hc, IH.
Qed.

Lemma backslashes_plain (s : string) :
  all_chars (fun c => negb (Ascii.eqb c "\")) s = true -> Url.backslashes s = s.
Proof.
  intros H. unfold Url.backslashes.
  destruct (JS.find _ s 0) as [i|].
  - rewrite (forward_slashes_plain _ (all_chars_take _ i s H)). apply take_drop.
  - apply forward_slashes_plain. exact H.
Qed.

Lemma trimEnd_plain (s : string) : ends_plain s = true -> JS.trimEnd s = s.
Proof.
  unfold ends_plain, JS.trimEnd. intros H.
  rewrite <- (length_reverse s).
  destruct (JS.reverse s) as [|c r] eqn:Hr.
  - rewrite <- (reverse_reverse s), Hr. reflexivity.
  - cbn [String.length JS.strip_all].
    replace (JS.strip_one (map JS.reverse JS.whiteSpace) (String c r)) with (@None string).
    + rewrite <- Hr. apply reverse_reverse.
    + symmetry. destruct c as [[] [] [] [] [] [] [] []]; try discriminate H; reflexivity.
Qed.

Lemma ends_plain_after_slash (a u : string) :
  ends_plain u = true -> ends_plain (a +:+ "/" +:+ u) = true.
Proof.
  unfold ends_plain. rewrite !reverse_append.
  destruct (JS.reverse u) as [|c r]; [reflexivity|]. intros H. exact H.
Qed.

Lemma host_labels_part_ok (s : string) (n : nat) :
  host_labels n s = true -> Url.part_ok n s = true.
Proof.
  revert n. induction s as [|c s IH]; intros n H; [reflexivity|].
  cbn [host_labels Url.part_ok] in *. destruct (Ascii.eqb c "."); [reflexivity|].
  destruct n as [|n]; [discriminate H|]. apply andb_prop in H as [Hc Hs].
  rewrite Hc, (IH n Hs). reflexivity.
Qed.

Lemma validate_host_labels (s : string) (n : nat) (start : bool) :
  host_labels n s = true -> (start = true -> n = 63%nat) ->
  Url.validate start s = (s, None).
Proof.
  revert n start. induction s as [|c s IH]; intros n start H Hstart; [reflexivity|].
  cbn [Url.validate].
  replace (start && negb (Url.part_ok 63 (String c s))) with false.
  2:{ destruct start; [|reflexivity]. rewrite <- (Hstart eq_refl).
      rewrite (host_labels_part_ok _ _ H). reflexivity. }
  cbn [host_labels] in H. destruct (Ascii.eqb c ".") eqn:Hc.
  - rewrite (IH 63%nat true H (fun _ => eq_refl)). reflexivity.
  - destruct n as [|n]; [discriminate H|]. apply andb_prop in H as [_ Hs].
    rewrite (IH n false Hs); [reflexivity | discriminate].
Qed.

Lemma host_labels_chars (s : string) (n : nat) :
  host_labels n s = true -> all_chars host_name_char s = true.
Proof.
  revert n. induction s as [|c s IH]; intros n H; [reflexivity|].
  cbn [host_labels all_chars] in *. unfold host_name_char at 1.
  destruct (Ascii.eqb c ".").
  - rewrite orb_true_r. exact (IH _ H).
  - destruct n as [|n]; [discriminate H|]. apply andb_prop in H as [Hc Hs].
    rewrite Hc. exact (IH _ Hs).
Qed.

Lemma host_name_char_facts (c : ascii) :
  host_name_char c = true ->
  negb (Url.hostEndingChar c) = true /\ negb (Url.nonHostChar c) = true
  /\ negb (Ascii.eqb c "@") = true /\ negb (Ascii.eqb c ":") = true
  /\ negb (Ascii.eqb c "\") = true /\ negb (Ascii.eqb c "[") = true.
Proof. destruct c as [[] [] [] [] [] [] [] []]; cbv; intuition congruence. Qed.

Lemma portPattern_none (h : string) (i : nat) :
  all_chars (fun c => negb (Ascii.eqb c ":")) h = true ->
  search false Url.portPattern i h = None.
Proof.
  revert i. induction h as [|c h IH]; intros i Hh; [reflexivity|].
  cbn [all_chars] in Hh. apply andb_prop in Hh as [Hc Hh].
  cbn [search]. unfold Url.portPattern at 1. cbn [rmatch step_char chr_eq].
  rewrite Ascii.eqb_sym. destruct (Ascii.eqb c ":"); [discriminate|]. apply IH. exact Hh.
Qed.

Lemma parseHost_plain (h : string) :
  all_chars (fun c => negb (Ascii.eqb c ":")) h = true -> Url.parseHost h = (h, None).
Proof.
  intros Hh. unfold Url.parseHost, exec_index. rewrite (portPattern_none h 0 Hh). reflexivity.
Qed.

(** What [url.parse] reads from [http://host/u]: the host name in lower
    case, and the path. *)
Lemma parse_canonical (host u : string) :
  host_name host -> all_chars path_char u = true -> ends_plain u = true ->
  exists uri,
    Url.parse ("http://" +:+ host +:+ "/" +:+ u) = Return uri
    /\ Url.host uri = Some (JS.toLowerCase host)
    /\ Url.hostname uri = Some (JS.toLowerCase host)
    /\ Url.path uri = Some ("/" +:+ u).
Proof.
  intros [Hlabels Hlen] Hu Hend.
  pose proof (host_labels_chars _ _ Hlabels) as Hchars.
  assert (Hh1 : all_chars (fun c => negb (Url.hostEndingChar c)) host = true).
  { revert Hchars. apply all_chars_impl. intros c Hc. apply (host_name_char_facts c Hc). }
  assert (Hh2 : all_chars (fun c => negb (Url.nonHostChar c)) host = true).
  { revert Hchars. apply all_chars_impl. intros c Hc. apply (host_name_char_facts c Hc). }
  assert (Hh3 : all_chars (fun x => negb (Ascii.eqb x "@")) host = true).
  { revert Hchars. apply all_chars_impl. intros c Hc. apply (host_name_char_facts c Hc). }
  assert (Hh4 : all_chars (fun x => negb (Ascii.eqb x ":")) host = true).
  { revert Hchars. apply all_chars_impl. intros c Hc. apply (host_name_char_facts c Hc). }
  assert (Hh5 : all_chars (fun x => negb (Ascii.eqb x "\")) host = true).
  { revert Hchars. apply all_chars_impl. intros c Hc. apply (host_name_char_facts c Hc). }
  assert (Hu1 : all_chars (fun c => negb (Url.autoEscape c)) (String "/" u) = true).
  { simpl. revert Hu. apply all_chars_impl. intros c H. unfold path_char in H.
    now apply andb_prop in H as [H _]. }
  assert (Hu2 : all_chars (fun x => negb (Ascii.eqb x "#")) (String "/" u) = true).
  { simpl. revert Hu. apply all_chars_impl. intros c H. unfold path_char in H.
    now apply andb_prop in H as [_ H]. }
  assert (Hu3 : all_chars (fun x => negb (Ascii.eqb x "\")) u = true).
  { revert Hu. apply all_chars_impl. intros c.
    destruct c as [[] [] [] [] [] [] [] []]; cbv; congruence. }
  assert (Hipv6 : Url.ipv6Hostname host = false).
  { unfold Url.ipv6Hostname. destruct host as [|c host]; [reflexivity|].
    cbn [all_chars] in Hchars. apply andb_prop in Hchars as [Hc _].
    apply host_name_char_facts in Hc. destruct Hc as (_ & _ & _ & _ & _ & Hc).
    cbn [JS.prefix]. rewrite Ascii.eqb_sym. apply negb_true_iff in Hc. rewrite Hc. reflexivity. }
  set (URL := "http://" +:+ host +:+ "/" +:+ u).
  assert (Hback : Url.backslashes URL = URL).
  { apply backslashes_plain. unfold URL. rewrite !all_chars_append, Hh5, Hu3. reflexivity. }
  assert (Htrim : JS.trim URL = URL).
  { unfold JS.trim. replace (JS.trimStart URL) with URL by reflexivity.
    apply trimEnd_plain. unfold URL.
    rewrite <- append_assoc. apply ends_plain_after_slash. exact Hend. }
  unfold Url.parse. rewrite Hback, Htrim.
  replace (if Url.mem "#" URL then None else Url.simplePath URL)
    with (@None (string * option string)) by (destruct (Url.mem "#" URL); reflexivity).
  unfold URL. rewrite !append_cons, !append_nil.
  rewrite split_protocol_http. cbv beta iota zeta.
  change (JS.toLowerCase <$> Some "http:") with (Some "http:").
  change (Url.hostlessProtocol (Some "http:")) with false.
  change (Url.slashedProtocol (Some "http:")) with true.
  cbn [JS.prefix Ascii.eqb Bool.eqb andb negb JS.drop orb].
  unfold Url.parse_host.
  rewrite (span_append _ host "/" u Hh1 eq_refl).
  unfold Url.split_auth. rewrite (find_last_none "@" host 0 Hh3).
  cbv beta iota zeta. cbn [bind]. rewrite (span_append _ host "/" u Hh2 eq_refl).
  rewrite (parseHost_plain host Hh4), Hipv6.
  rewrite (validate_host_labels host 63 true Hlabels (fun _ => eq_refl)).
  replace (255 <? String.length host)%nat with false
    by (symmetry; apply Nat.ltb_ge; exact Hlen).
  rewrite append_empty_r. cbn [bind].
  rewrite (escape_rest_plain _ Hu1).
  rewrite (find_char_none "#" _ 0 Hu2). cbv beta iota zeta.
  destruct (JS.find "?" (String "/" u) 0) as [i|] eqn:Hq; cbv beta iota zeta;
    (eexists; split; [reflexivity|]); cbn [Url.host Url.hostname Url.path];
    (split; [reflexivity|]); (split; [reflexivity|]).
  - assert (Hi : (1 <= i)%nat).
    { cbn [JS.find JS.prefix Ascii.eqb Bool.eqb andb] in Hq. now apply find_ge in Hq. }
    destruct i as [|i]; [lia|]. cbn [JS.take Url.nonempty String.eqb].
    cbn [Url.or_empty JS.drop]. rewrite append_cons. now rewrite take_drop.
  - cbn [Url.nonempty String.eqb Url.or_empty]. now rewrite append_empty_r.
Qed.

(** ** The scheme compiler *)

Lemma quotemeta_append (a b : string) :
  Utilities.quotemeta (a +:+ b) = Utilities.quotemeta a +:+ Utilities.quotemeta b.
Proof.
  induction a as [|c a IH]; unfold_append; [reflexivity|].
  cbn [Utilities.quotemeta]. rewrite IH. now destruct (Utilities.is_meta c).
Qed.

Lemma quotemeta_not_percent (s : string) :
  all_chars not_percent s = true -> all_chars not_percent (Utilities.quotemeta s) = true.
Proof.
  induction s as [|c s IH]; [reflexivity|]. simpl. intros H.
  apply andb_prop in H as [Hc Hs]. destruct (Utilities.is_meta c); simpl; rewrite Hc, IH; auto.
Qed.

Lemma indexOf_placeholder (q : ascii) (pre : string) :
  all_chars not_percent pre = true ->
  JS.indexOf (pre +:+ "%p") (String "%" (String q "")) 0
  = if Ascii.eqb q "p" then Z.of_nat (String.length pre) else -1.
Proof.
  intros Hpre. unfold JS.indexOf. cbn [Z.max Z.to_nat Nat.min JS.drop].
  change (Z.to_nat (Z.max 0 0)) with 0%nat. cbn [Nat.min JS.drop].
  rewrite (find_placeholder q "p" pre 0 Hpre).
  now destruct (Ascii.eqb q "p").
Qed.

Lemma unescape_absent (fuel : nat) (scheme param : string) :
  Proxy.unescape fuel scheme param (-1) = (scheme, -1).
Proof. destruct fuel; reflexivity. Qed.

Lemma unescape_plain (fuel : nat) (pre rest param : string) :
  all_chars not_percent pre = true ->
  Proxy.unescape fuel (pre +:+ rest) param (Z.of_nat (String.length pre))
  = (pre +:+ rest, Z.of_nat (String.length pre)).
Proof.
  intros Hpre. destruct fuel as [|fuel]; [reflexivity|]. cbn [Proxy.unescape].
  unfold JS.charAt. destruct (Z.of_nat (String.length pre) - 1 <? 0) eqn:Hneg; [reflexivity|].
  apply Z.ltb_ge in Hneg.
  destruct (String.get _ _) as [c|] eqn:Hget; [|reflexivity].
  rewrite <- append_correct1 in Hget by lia.
  pose proof (all_chars_get _ _ _ _ Hpre Hget) as Hc. unfold not_percent in Hc.
  now destruct (Ascii.eqb c "%").
Qed.

(** The rounds of the loop over the placeholders, for a scheme whose only
    [%] is that of a final [%p]. *)
Lemma check_parameter_other (q : ascii) (pre : string) (indices : gmap string Z)
      (found : list string) :
  all_chars not_percent pre = true -> Ascii.eqb q "p" = false ->
  Proxy.check_parameter (pre +:+ "%p", indices, found) (String "%" (String q ""))
  = (pre +:+ "%p", indices, found).
Proof.
  intros Hpre Hq. unfold Proxy.check_parameter.
  rewrite (indexOf_placeholder q pre Hpre), Hq, unescape_absent. reflexivity.
Qed.

Lemma check_parameter_path (pre : string) (indices : gmap string Z) (found : list string) :
  all_chars not_percent pre = true ->
  Proxy.check_parameter (pre +:+ "%p", indices, found) "%p"
  = (pre +:+ "%p", <["%p" := Z.of_nat (String.length pre)]> indices,
     (found ++ ["%p"])%list).
Proof.
  intros Hpre. unfold Proxy.check_parameter.
  rewrite (indexOf_placeholder "p" pre Hpre). cbn [Ascii.eqb Bool.eqb].
  rewrite (unescape_plain _ pre "%p" "%p" Hpre).
  destruct (Z.of_nat (String.length pre) =? -1) eqn:H; [|reflexivity].
  apply Z.eqb_eq in H. lia.
Qed.

Lemma check_all_parameters (sp : list (string * string)) (pre : string) :
  declared_table sp -> all_chars not_percent pre = true ->
  fold_left Proxy.check_parameter (map fst sp) (pre +:+ "%p", ∅, nil)
  = (pre +:+ "%p", {["%p" := Z.of_nat (String.length pre)]}, ["%p"]).
Proof.
  intros [-> | ->] Hpre; cbn [map fst fold_left Proxy.Zotero_Proxy_schemeParameters
                              Proxy.prop_set String.eqb Ascii.eqb Bool.eqb];
    rewrite (check_parameter_path pre _ _ Hpre);
    rewrite !(check_parameter_other _ pre _ _ Hpre) by reflexivity;
    reflexivity.
Qed.

(** The pattern source for a scheme [pre%p] without another [%]. *)
Lemma pattern_path (sp : list (string * string)) (pre : string) :
  declared_table sp -> all_chars not_percent pre = true ->
  Proxy.pattern sp (pre +:+ "%p") ["%p"]
  = "^" +:+ Utilities.quotemeta pre +:+ "(.*?)$".
Proof.
  intros Hsp Hpre. unfold Proxy.pattern. cbn [rev app fold_left].
  unfold Proxy.substitute.
  change (Proxy.prop_get "%p" Proxy.Zotero_Proxy_schemeParameterRegexps)
    with (Some (placeholder_regexp "p")).
  assert (Hfrag : Proxy.prop_get "%p" sp = Some "(.*?)") by (destruct Hsp as [-> | ->]; reflexivity).
  rewrite Hfrag. cbn [JS.str_undefined].
  rewrite quotemeta_append. change (Utilities.quotemeta "%p") with "%p".
  change ("^" +:+ (Utilities.quotemeta pre +:+ "%p") +:+ "$")
    with (String "^" ((Utilities.quotemeta pre +:+ "%p") +:+ "$")).
  rewrite append_assoc.
  change (String "^" (Utilities.quotemeta pre +:+ "%p" +:+ "$"))
    with (String "^" (Utilities.quotemeta pre) +:+ String "%" (String "p" "$")).
  rewrite (replace_placeholder "p" "^" (Utilities.quotemeta pre) "$" "(.*?)").
  - reflexivity.
  - simpl. now apply quotemeta_not_percent.
Qed.

(** What [compileRegexp] makes of a single-host proxy with such a scheme. *)
Lemma compileRegexp_path (sp : list (string * string)) (pre : string)
      (hs : list string) (auto : bool) (r0 : option regex) (ps0 : list string)
      (ix0 : gmap string Z) :
  declared_table sp -> all_chars not_percent pre = true ->
  Proxy.compileRegexp sp (Proxy.Make hs false auto (pre +:+ "%p") r0 ps0 ix0)
  = (sp, Proxy.Make hs false auto (pre +:+ "%p")
           (RegExp.parse ("^" +:+ Utilities.quotemeta pre +:+ "(.*?)$"))
           ["%p"] {["%p" := Z.of_nat (String.length pre)]}).
Proof.
  intros Hsp Hpre. unfold Proxy.compileRegexp. cbn [Proxy.multiHost Proxy.scheme].
  rewrite (check_all_parameters sp pre Hsp Hpre).
  cbn [Proxy.sort_by fold_right Proxy.insert_by].
  rewrite (pattern_path sp pre Hsp Hpre). reflexivity.
Qed.

Lemma check_parameter_absent (scheme param : string) (indices : gmap string Z)
      (found : list string) :
  JS.indexOf scheme param 0 = -1 ->
  Proxy.check_parameter (scheme, indices, found) param = (scheme, indices, found).
Proof.
  intros H. unfold Proxy.check_parameter. now rewrite H, unescape_absent.
Qed.

Lemma check_no_parameters (scheme : string) (params : list string) :
  (forall param, In param params -> JS.indexOf scheme param 0 = -1) ->
  fold_left Proxy.check_parameter params (scheme, ∅, nil) = (scheme, ∅, nil).
Proof.
  induction params as [|param params IH]; intros H; [reflexivity|].
  cbn [fold_left]. rewrite check_parameter_absent by (apply H; now left).
  apply IH. intros q Hq. apply H. now right.
Qed.

Lemma declared_keys (sp : list (string * string)) (multi : bool) (param : string) :
  declared_table sp ->
  In param (map fst (if multi then Proxy.prop_set "%h" Proxy.hostParameter sp else sp)) ->
  In param placeholders.
Proof.
  intros [-> | ->]; destruct multi; cbn; tauto.
Qed.

Lemma compileRegexp_literal (sp : list (string * string)) (proxy : Proxy.t) :
  declared_table sp -> no_placeholder (Proxy.scheme proxy) = true ->
  snd (Proxy.compileRegexp sp proxy)
  = Proxy.Make (Proxy.hosts proxy) (Proxy.multiHost proxy) (Proxy.autoAssociate proxy)
      (Proxy.scheme proxy) (Some (literal_regex (Proxy.scheme proxy))) nil ∅.
Proof.
  intros Hsp Hno. unfold Proxy.compileRegexp.
  rewrite check_no_parameters.
  - cbn [Proxy.sort_by fold_right snd]. unfold Proxy.pattern. cbn [rev fold_left].
    now rewrite parse_literal.
  - intros param Hin. apply (declared_keys sp _ param Hsp) in Hin.
    unfold no_placeholder in Hno. rewrite forallb_forall in Hno.
    apply Z.eqb_eq. now apply Hno.
Qed.

Lemma compileRegexp_hosts (sp : list (string * string)) (proxy : Proxy.t) :
  Proxy.hosts (snd (Proxy.compileRegexp sp proxy)) = Proxy.hosts proxy.
Proof.
  unfold Proxy.compileRegexp.
  destruct (fold_left _ _ _) as [[scheme' indices'] found]. reflexivity.
Qed.

(** C7 (the code departs from it): compiled first, a proxy with
    [multiHost = false] has the parameters [%p]; compiled after a
    multi-host proxy it has [%h] too, because the first compilation added
    [%h] to the table that all compilations share. *)
Theorem compileRegexp_host_parameter_leaks :
  Proxy.parameters
    (snd (Proxy.loadFromJSON Proxy.Zotero_Proxy_schemeParameters singleHostJSON)) = ["%p"]
  /\ Proxy.parameters
       (snd (Proxy.loadFromJSON
               (fst (Proxy.loadFromJSON Proxy.Zotero_Proxy_schemeParameters hostRewriteJSON))
               singleHostJSON)) = ["%h"; "%p"]
  /\ map fst (fst (Proxy.loadFromJSON Proxy.Zotero_Proxy_schemeParameters hostRewriteJSON))
     = ["%p"; "%d"; "%f"; "%a"; "%h"].
Proof. repeat split; vm_compute; reflexivity. Qed.

(** C4 as stated fails: the template [https://proxy.example.com/%x], with
    the sequence [%x] that is no placeholder, is compiled, not rejected. *)
Lemma compileRegexp_unknown_sequence_counterexample :
  compile unknownSequenceJSON <> None.
Proof. vm_compute. discriminate. Qed.

(** C4, amended: [compileRegexp] does not reject a template for a [%]
    sequence that is not a recognised placeholder; the sequence stays
    literal text of the matcher.  A template in which none of the five
    placeholders occurs is left as it is, has no parameters, and its
    matcher accepts the template text and nothing else; the template
    [https://proxy.example.com/%x/%p] gets a matcher that accepts
    [https://proxy.example.com/%x/toc] and not
    [https://proxy.example.com/zz/toc]. *)
Theorem compileRegexp_keeps_unknown_sequences :
  (forall sp proxy,
     declared_table sp -> no_placeholder (Proxy.scheme proxy) = true ->
     let compiled := snd (Proxy.compileRegexp sp proxy) in
     Proxy.scheme compiled = Proxy.scheme proxy
     /\ Proxy.parameters compiled = nil
     /\ exists r,
          Proxy.regexp compiled = Some r
          /\ forall URL,
               exec false r URL
               = if String.eqb URL (Proxy.scheme proxy) then Some [Some URL] else None)
  /\ (exists r,
        compile unknownAndPathJSON = Some r
        /\ exec false r "https://proxy.example.com/%x/toc"
           = Some [Some "https://proxy.example.com/%x/toc"; Some "toc"]
        /\ exec false r "https://proxy.example.com/zz/toc" = None).
Proof.
  split.
  - intros sp proxy Hsp Hno compiled. subst compiled.
    rewrite (compileRegexp_literal sp proxy Hsp Hno). cbn [Proxy.scheme Proxy.parameters
                                                            Proxy.regexp].
    split; [reflexivity|]. split; [reflexivity|].
    exists (literal_regex (Proxy.scheme proxy)). split; [reflexivity|].
    intros URL. apply exec_literal.
  - destruct (compile unknownAndPathJSON) as [r|] eqn:Hr; [|vm_compute in Hr; discriminate Hr].
    exists r. split; [reflexivity|].
    assert (Hr' : compile unknownAndPathJSON = Some r) by exact Hr.
    vm_compute in Hr. injection Hr as <-. split; vm_compute; reflexivity.
Qed.

Lemma compileRegexp_keeps_unknown_sequences_witness :
  declared_table Proxy.Zotero_Proxy_schemeParameters
  /\ no_placeholder "https://proxy.example.com/%x" = true
  /\ exists r,
       compile unknownSequenceJSON = Some r
       /\ exec false r "https://proxy.example.com/%x" = Some [Some "https://proxy.example.com/%x"]
       /\ exec false r "https://proxy.example.com/articles" = None.
Proof.
  assert (Hsp : declared_table Proxy.Zotero_Proxy_schemeParameters) by now left.
  assert (Hno : no_placeholder "https://proxy.example.com/%x" = true)
    by (vm_compute; reflexivity).
  split; [exact Hsp|]. split; [exact Hno|].
  destruct (proj1 compileRegexp_keeps_unknown_sequences
              Proxy.Zotero_Proxy_schemeParameters
              (Proxy.Make ["journal.example.org"] false false
                          "https://proxy.example.com/%x" None nil ∅) Hsp Hno)
    as (_ & _ & r & Hr & Hexec).
  exists r. split; [exact Hr|]. split; rewrite Hexec; reflexivity.
Defined.

(** ** The two transforms *)



Lemma toProper_truthy (proxy : Proxy.t) (m : list (option string)) :
  JS.truthy (Some (Proxy.toProper proxy m)) = true.
Proof.
  unfold Proxy.toProper.
  destruct (Proxy.multiHost proxy);
    destruct (match Proxy.indices proxy !! "%p" with Some i => negb (i =? 0) | None => false end);
    try reflexivity;
    destruct (Proxy.captured proxy m "%d") as [[|c d]|]; reflexivity.
Qed.

Lemma toProxy_path (pre host u : string) (auto : bool) (r : option regex) (uri : Url.t) :
  pre <> "" -> Url.path uri = Some ("/" +:+ u) ->
  Proxy.toProxy
    (Proxy.Make [host] false auto (pre +:+ "%p") r ["%p"]
                {["%p" := Z.of_nat (String.length pre)]}) uri
  = Return (pre +:+ u).
Proof.
  intros Hpre Hpath. unfold Proxy.toProxy.
  cbn [Proxy.parameters rev app fold_left Proxy.scheme bind Proxy.indices].
  unfold Proxy.value_of. cbn [String.eqb Ascii.eqb Bool.eqb]. rewrite Hpath. cbn [bind].
  unfold Proxy.index_of. rewrite lookup_singleton_eq. cbn [default from_option id].
  f_equal. unfold JS.substr, JS.substr_from.
  assert (Hlen : (0 < String.length pre)%nat) by (destruct pre; [contradiction | cbn; lia]).
  destruct (Z.of_nat (String.length pre) <=? 0) eqn:H1; [apply Z.leb_le in H1; lia|].
  destruct (Z.of_nat (String.length pre) + 2 <? 0) eqn:H2; [apply Z.ltb_lt in H2; lia|].
  cbn [Z.ltb Z.compare Z.to_nat JS.drop]. rewrite Nat2Z.id.
  replace (Z.to_nat (Z.of_nat (String.length pre) + 2)) with (String.length pre + 2)%nat by lia.
  change (Z.to_nat 0) with 0%nat. change (Z.to_nat 1) with 1%nat.
  rewrite append_cons, append_nil. cbn [JS.drop].
  rewrite take_append, drop_add, drop_append. cbn [JS.drop].
  now rewrite append_empty_r.
Qed.

Lemma toProper_path (pre host u URL : string) (auto : bool) (r : option regex) :
  pre <> "" ->
  Proxy.toProper
    (Proxy.Make [host] false auto (pre +:+ "%p") r ["%p"]
                {["%p" := Z.of_nat (String.length pre)]}) [Some URL; Some u]
  = "http://" +:+ host +:+ "/" +:+ u.
Proof.
  intros Hpre. unfold Proxy.toProper. cbn [Proxy.multiHost Proxy.hosts Proxy.indices].
  rewrite lookup_singleton_eq.
  assert (Hlen : (0 < String.length pre)%nat) by (destruct pre; [contradiction | cbn; lia]).
  destruct (Z.of_nat (String.length pre) =? 0) eqn:H0; [apply Z.eqb_eq in H0; lia|].
  cbn [negb]. rewrite !append_assoc. reflexivity.
Qed.

Example juniper_detected :
  Detectors.Juniper Proxies.empty
    {| url := juniperPage; statusCode := 200; requestHeaders := None;
       responseHeaders := ∅; originUrl := None |}
  = Return {| Detectors.found :=
                Some {| Proxy.hosts := ["journal.example.org"]; Proxy.multiHost := true;
                        Proxy.autoAssociate := false;
                        Proxy.scheme := "https://vpn.example.com/%d,DanaInfo=%h%a+%f";
                        Proxy.regexp := None; Proxy.parameters := nil;
                        Proxy.indices := ∅ |};
              Detectors.probe := None |}.
Proof. vm_compute. reflexivity. Qed.

(** C1 as stated fails: for the Juniper template the proxied URL made from
    the canonical URL has lost the [%a] span and gained a slash, and its
    canonical URL is another one. *)
Lemma round_trip_counterexample : ~ round_trip juniperProxy juniperPage.
Proof.
  intros H.
  destruct (Proxy.regexp juniperProxy) as [r|] eqn:Hr; [|vm_compute in Hr; discriminate Hr].
  destruct (H r [Some juniperPage; Some "dir/"; Some "journal.example.org"; Some ",SSL";
                 Some "file.html"] Hr) as (uri & proxied & m' & Hu & Hp & Hm & Hc).
  - vm_compute in Hr. injection Hr as <-. vm_compute. reflexivity.
  - vm_compute in Hu. injection Hu as <-.
    vm_compute in Hp. injection Hp as <-.
    vm_compute in Hr. injection Hr as <-.
    vm_compute in Hm. injection Hm as <-.
    vm_compute in Hc. discriminate Hc.
Qed.

(** C1, amended: for a single-host proxy whose template is [pre%p], with
    [pre] not empty and free of [%], the matcher accepts the URLs
    [pre ++ u] where [u] has no line break, and no other; for a matched
    URL [toProper] gives [http://host/u], and whenever [url.parse] reads
    the path [/u] back from that canonical URL, [toProxy] of the parsed
    URL is the matched URL itself, which therefore matches again and has
    the same canonical URL.  [url.parse] does read that path, and the
    matched URL makes the round trip, when the host is a host name of
    labels of letters, digits, [+], [_] and [-], of at most 63 characters
    each and 255 in all, and [u] has no [#] and no character that
    [url.parse] escapes (the backslash among them), and is empty or ends
    in a printable character of ASCII other than the space. *)
Theorem round_trip_path_template
        (sp : list (string * string)) (pre host : string) (auto : bool) :
  declared_table sp -> pre <> "" -> all_chars not_percent pre = true ->
  let proxy := snd (Proxy.compileRegexp sp (pathProxy pre host auto)) in
  exists r,
    Proxy.regexp proxy = Some r
    /\ (forall u, no_line_break u = true ->
                  exec false r (pre +:+ u) = Some [Some (pre +:+ u); Some u])
    /\ (forall URL m,
          exec false r URL = Some m ->
          exists u,
            URL = pre +:+ u /\ m = [Some URL; Some u]
            /\ Proxy.toProper proxy m = "http://" +:+ host +:+ "/" +:+ u
            /\ (forall uri,
                  Url.parse (Proxy.toProper proxy m) = Return uri ->
                  Url.path uri = Some ("/" +:+ u) ->
                  Proxy.toProxy proxy uri = Return URL /\ round_trip proxy URL)
            /\ (host_name host -> all_chars path_char u = true -> ends_plain u = true ->
                exists uri,
                  Url.parse (Proxy.toProper proxy m) = Return uri
                  /\ Url.path uri = Some ("/" +:+ u)
                  /\ Proxy.toProxy proxy uri = Return URL
                  /\ round_trip proxy URL)).
Proof.
  intros Hsp Hpre Hpct proxy. subst proxy. unfold pathProxy.
  rewrite (compileRegexp_path sp pre [host] auto None nil ∅ Hsp Hpct).
  cbn [snd Proxy.regexp]. rewrite parse_path.
  exists (path_regex pre). split; [reflexivity|]. split.
  - intros u Hu. now rewrite exec_path, strip_append, Hu.
  - intros URL m Hexec. pose proof Hexec as Hexec'. rewrite exec_path in Hexec.
    destruct (strip pre URL) as [u|] eqn:Hstrip; [|discriminate Hexec].
    destruct (no_line_break u); [|discriminate Hexec]. injection Hexec as <-.
    apply strip_Some in Hstrip.
    exists u. split; [exact Hstrip|]. split; [reflexivity|].
    rewrite (toProper_path pre host u URL auto _ Hpre). split; [reflexivity|].
    assert (Hround : forall uri,
               Url.parse ("http://" +:+ host +:+ "/" +:+ u) = Return uri ->
               Url.path uri = Some ("/" +:+ u) ->
               Proxy.toProxy
                 (Proxy.Make [host] false auto (pre +:+ "%p") (Some (path_regex pre))
                             ["%p"] {["%p" := Z.of_nat (String.length pre)]})
                 uri = Return URL
               /\ round_trip
                    (Proxy.Make [host] false auto (pre +:+ "%p") (Some (path_regex pre))
                                ["%p"] {["%p" := Z.of_nat (String.length pre)]})
                    URL).
    { intros uri Hparse Hpath.
      assert (Hback : Proxy.toProxy
                        (Proxy.Make [host] false auto (pre +:+ "%p") (Some (path_regex pre))
                                    ["%p"] {["%p" := Z.of_nat (String.length pre)]})
                        uri = Return URL).
      { rewrite Hstrip. apply toProxy_path; [exact Hpre | exact Hpath]. }
      split; [exact Hback|].
      intros r m0 Hr Hm0. cbn [Proxy.regexp] in Hr. injection Hr as <-.
      rewrite Hexec' in Hm0. injection Hm0 as <-.
      exists uri, URL, [Some URL; Some u].
      rewrite (toProper_path pre host u URL auto _ Hpre). auto. }
    split; [exact Hround|].
    intros Hhost Hu Hend.
    destruct (parse_canonical host u Hhost Hu Hend) as (uri & Hparse & _ & _ & Hpath).
    exists uri. split; [exact Hparse|]. split; [exact Hpath|]. apply Hround; assumption.
Qed.

Lemma round_trip_path_template_witness :
  let proxy :=
    snd (Proxy.loadFromJSON Proxy.Zotero_Proxy_schemeParameters
           {| Proxy.json_multiHost := false; Proxy.json_autoAssociate := false;
              Proxy.json_scheme := "https://proxy.example.com/%p";
              Proxy.json_hosts := ["journal.example.org"] |}) in
  exists r,
    Proxy.regexp proxy = Some r
    /\ exec false r "https://proxy.example.com/articles/1"
       = Some [Some "https://proxy.example.com/articles/1"; Some "articles/1"]
    /\ Proxy.toProper proxy [Some "https://proxy.example.com/articles/1"; Some "articles/1"]
       = "http://journal.example.org/articles/1"
    /\ (do uri <- Url.parse "http://journal.example.org/articles/1"; Proxy.toProxy proxy uri)
       = Return "https://proxy.example.com/articles/1"
    /\ round_trip proxy "https://proxy.example.com/articles/1".
Proof.
  cbv zeta.
  assert (Hsp : declared_table Proxy.Zotero_Proxy_schemeParameters) by now left.
  assert (Hpre : "https://proxy.example.com/" <> "") by discriminate.
  assert (Hpct : all_chars not_percent "https://proxy.example.com/" = true)
    by (vm_compute; reflexivity).
  assert (Hhost : host_name "journal.example.org").
  { split; [vm_compute; reflexivity | cbn; lia]. }
  destruct (round_trip_path_template Proxy.Zotero_Proxy_schemeParameters
              "https://proxy.example.com/" "journal.example.org" false
              Hsp Hpre Hpct) as (r & Hr & Hmatch & Hround).
  exists r. split; [exact Hr|].
  assert (Hany : no_line_break "articles/1" = true) by (vm_compute; reflexivity).
  pose proof (Hmatch "articles/1" Hany) as Hexec.
  change ("https://proxy.example.com/" +:+ "articles/1")
    with "https://proxy.example.com/articles/1" in Hexec.
  split; [exact Hexec|].
  destruct (Hround _ _ Hexec) as (u & Hu & Hm & Hproper & Hback & Hparse).
  injection Hm as <-.
  assert (Hpath : all_chars path_char "articles/1" = true) by (vm_compute; reflexivity).
  assert (Hend : ends_plain "articles/1" = true) by (vm_compute; reflexivity).
  destruct (Hparse Hhost Hpath Hend) as (uri & Huri & Hp & Hproxy & Hrt).
  split; [exact Hproper|]. split; [|exact Hrt].
  rewrite Hproper in Huri.
  change ("http://" +:+ "journal.example.org" +:+ "/" +:+ "articles/1")
    with "http://journal.example.org/articles/1" in Huri.
  rewrite Huri. exact Hproxy.
Defined.

(** ** The top two domains of a hostname *)

Lemma top2_null : Proxies.top2 None = None.
Proof. vm_compute. reflexivity. Qed.

(** [top2DomainsRe] does not match a string without a dot, wherever the
    search starts. *)
Lemma top2_search_no_dot (s : string) :
  all_chars not_dot s = true ->
  forall i, search false Proxies.top2DomainsRe i s = None.
Proof.
  induction s as [|c t IH]; intros Hs i.
  - reflexivity.
  - cbn [search].
    assert (Hhere : rmatch false Proxies.top2DomainsRe i (String c t) nil
                      (fun j _ cs => Some (j, cs)) = None).
    { unfold Proxies.top2DomainsRe. cbn [rmatch step_char].
      destruct (cls_mem false true _ c); [|reflexivity].
      apply (star_loop_fails (cls_mem false true [("."%char, "."%char)])
               (fun u => all_chars not_dot u = true)).
      - reflexivity.
      - intros c' t' _. apply all_chars_tail.
      - intros j u cs Hu. destruct u as [|c' u']; [reflexivity|].
        simpl in Hu. apply andb_prop in Hu as [Hc' _].
        unfold not_dot in Hc'. cbn [step_char chr_eq].
        rewrite Ascii.eqb_sym. now destruct (Ascii.eqb c' ".").
      - now apply (all_chars_tail _ c). }
    rewrite Hhere. apply IH. now apply (all_chars_tail _ c).
Qed.

(** A hostname of a single label has no top two domains; nor has a
    hostname that is [null]. *)
Lemma top2_single_label (hostname : string) :
  all_chars not_dot hostname = true -> Proxies.top2 (Some hostname) = None.
Proof.
  intros H. unfold Proxies.top2, exec. cbn [JS.str_null].
  now rewrite (top2_search_no_dot hostname H 0%nat).
Qed.

(** [top2DomainsRe] cannot start where two dots or more are still to come. *)
Lemma top2_not_here (s : string) (i : nat) (cs : captures) (k : cont) :
  (2 <= dots s)%nat -> rmatch false Proxies.top2DomainsRe i s cs k = None.
Proof.
  intros Hs. unfold Proxies.top2DomainsRe. cbn [rmatch].
  destruct s as [|c s]; cbn [step_char]; [reflexivity|].
  rewrite cls_not_dot. destruct (not_dot c) eqn:Hc; [|reflexivity].
  assert (Hs' : (2 <= dots s)%nat).
  { cbn [dots] in Hs. unfold not_dot in Hc. destruct (Ascii.eqb c "."); [discriminate Hc | lia]. }
  apply (star_loop_fails not_dot (fun t => (2 <= dots t)%nat)).
  - intros. cbn [rmatch]. destruct s0; cbn [step_char]; [reflexivity|]. now rewrite cls_not_dot.
  - intros x t Hx Ht. cbn [dots] in Ht. unfold not_dot in Hx.
    destruct (Ascii.eqb x "."); [discriminate Hx | lia].
  - intros j t cs' Ht. cbn [rmatch]. destruct t as [|x t]; cbn [step_char chr_eq]; [reflexivity|].
    destruct (Ascii.eqb "." x) eqn:Hx; [|reflexivity].
    assert (Ht' : (1 <= dots t)%nat).
    { cbn [dots] in Ht. destruct (Ascii.eqb x "."); lia. }
    destruct t as [|y t]; cbn [step_char]; [reflexivity|].
    rewrite cls_not_dot. destruct (not_dot y) eqn:Hy; [|reflexivity].
    apply (star_loop_fails not_dot (fun u => (1 <= dots u)%nat)).
    + intros. cbn [rmatch]. destruct s0; cbn [step_char]; [reflexivity|]. now rewrite cls_not_dot.
    + intros z u Hz Hu. cbn [dots] in Hu. unfold not_dot in Hz.
      destruct (Ascii.eqb z "."); [discriminate Hz | lia].
    + intros j' u cs'' Hu. destruct u; [cbn [dots] in Hu; lia | reflexivity].
    + cbn [dots] in Ht'. unfold not_dot in Hy.
      destruct (Ascii.eqb y "."); [discriminate Hy | lia].
  - exact Hs'.
Qed.

(** [top2DomainsRe] matches two labels joined by a dot, to the end. *)
Lemma top2_here (l1 l2 : string) (i : nat) :
  label l1 -> label l2 ->
  rmatch false Proxies.top2DomainsRe i (l1 +:+ "." +:+ l2) nil (fun j _ cs => Some (j, cs))
  = Some ((i + String.length (l1 +:+ "." +:+ l2))%nat, nil).
Proof.
  intros [Hne1 Hl1] [Hne2 Hl2].
  destruct l1 as [|c l1]; [contradiction|]. destruct l2 as [|d l2]; [contradiction|].
  simpl in Hl1, Hl2. apply andb_prop in Hl1 as [Hc Hl1]. apply andb_prop in Hl2 as [Hd Hl2].
  unfold Proxies.top2DomainsRe. rewrite append_cons. cbn [rmatch step_char].
  rewrite cls_not_dot, Hc.
  apply (star_loop_greedy not_dot).
  - intros. cbn [rmatch]. destruct s; cbn [step_char]; [reflexivity|]. now rewrite cls_not_dot.
  - exact Hl1.
  - reflexivity.
  - rewrite !length_append. lia.
  - rewrite !append_cons, append_nil. cbn [rmatch step_char chr_eq Ascii.eqb Bool.eqb].
    rewrite cls_not_dot, Hd.
    apply (star_loop_greedy_end not_dot).
    + intros. destruct s; cbn [step_char]; [reflexivity|]. now rewrite cls_not_dot.
    + exact Hl2.
    + lia.
    + f_equal. f_equal. cbn [String.length]. rewrite !length_append.
      cbn [String.length]. lia.
Qed.

Lemma leading_labels_tail (c : ascii) (s : string) :
  leading_labels (String c s) -> s <> "" -> leading_labels s.
Proof.
  intros [H|(s' & H)] Hne; [discriminate H|]. right.
  destruct s' as [|x s']; rewrite ?append_cons, ?append_nil in H; injection H as -> ->.
  - contradiction.
  - now exists s'.
Qed.

Lemma leading_labels_dots (s : string) : leading_labels s -> s <> "" -> (1 <= dots s)%nat.
Proof.
  intros [->|(s' & ->)] Hne; [contradiction|]. rewrite dots_append. cbn. lia.
Qed.

(** The search skips the leading labels. *)
Lemma top2_search_skips (pre body : string) (i : nat) :
  leading_labels pre -> (1 <= dots body)%nat ->
  search false Proxies.top2DomainsRe i (pre +:+ body)
  = search false Proxies.top2DomainsRe (i + String.length pre) body.
Proof.
  revert i. induction pre as [|c pre IH]; intros i Hpre Hbody.
  - unfold_append. cbn [String.length]. now rewrite Nat.add_0_r.
  - rewrite append_cons. cbn [search]. rewrite top2_not_here.
    + destruct (String.eqb_spec pre "") as [->|Hne].
      * unfold_append. cbn [String.length].
        now replace (i + 1)%nat with (S i) by lia.
      * rewrite (IH (S i)); [|now apply (leading_labels_tail c)|exact Hbody].
        cbn [String.length].
        now replace (i + S (String.length pre))%nat with (S i + String.length pre)%nat by lia.
    + rewrite <- append_cons, dots_append.
      pose proof (leading_labels_dots _ Hpre). assert (String c pre <> "") by discriminate.
      specialize (H H0). lia.
Qed.

(** The top two domains of a hostname are its last two labels. *)
Lemma top2_last_two_labels (pre l1 l2 : string) :
  leading_labels pre -> label l1 -> label l2 ->
  Proxies.top2 (Some (pre +:+ l1 +:+ "." +:+ l2)) = Some (l1 +:+ "." +:+ l2).
Proof.
  intros Hpre Hl1 Hl2. unfold Proxies.top2, exec. cbn [JS.str_null].
  rewrite top2_search_skips.
  - destruct (l1 +:+ "." +:+ l2) as [|c body] eqn:Hbody.
    + destruct l1; discriminate Hbody.
    + cbn [search]. rewrite <- Hbody. rewrite (top2_here l1 l2 _ Hl1 Hl2).
      cbn [RegExp.group Z.ltb Z.compare Nat.add]. change (Z.to_nat 0) with 0%nat.
      cbn [nth JS.str_undefined].
      replace (String.length pre + String.length (l1 +:+ "." +:+ l2) - String.length pre)%nat
        with (String.length (l1 +:+ "." +:+ l2)) by lia.
      now rewrite drop_append, take_all.
  - exact Hpre.
  - rewrite !dots_append. cbn. lia.
Qed.

(** ** The redirect decision *)

Lemma loose_eq_refl (a : option string) : JS.loose_eq a a = true.
Proof. destruct a as [s|]; simpl; [apply String.eqb_refl | reflexivity]. Qed.

Lemma loose_eq_true (a b : option string) : a = b -> JS.loose_eq a b = true.
Proof. intros ->. apply loose_eq_refl. Qed.

Lemma hostname_of_empty : hostname_of "" None.
Proof. eexists. split; vm_compute; reflexivity. Qed.

Lemma hostname_of_unique (url : string) (h1 h2 : option string) :
  hostname_of url h1 -> hostname_of url h2 -> h1 = h2.
Proof. intros (u1 & H1 & <-) (u2 & H2 & <-). congruence. Qed.

(** Past the referrer and origin guards, the last guard alone decides. *)
Lemma maybeRedirect_cases (st : Proxies.t) (details : Details) (proxied : string) :
  decide_redirect st details proxied = NoRedirect
  \/ (exists hostname1 hostname2 a b,
        hostname_of (url details) hostname1 /\ hostname_of proxied hostname2
        /\ Proxies.top2 hostname1 = Some a
        /\ Proxies.top2 hostname2 = Some b
        /\ a <> b
        /\ decide_redirect st details proxied = Redirect proxied).
Proof.
  unfold decide_redirect, Proxies._maybeRedirect.
  destruct (Url.parse proxied) as [proxiedURI|e] eqn:Hp; [|left; reflexivity]. cbn [bind].
  destruct (requestHeaders details) as [headers|]; [|left; reflexivity].
  assert (Hlast :
    verdict_of
      (do requestURI <- Url.parse (url details);
       match Proxies.top2 (Url.hostname requestURI), Proxies.top2 (Url.hostname proxiedURI) with
       | Some a, Some b => if String.eqb a b then Return None else Return (Some proxied)
       | _, _ => Return None
       end) = NoRedirect
    \/ exists hostname1 hostname2 a b,
         hostname_of (url details) hostname1 /\ hostname_of proxied hostname2
         /\ Proxies.top2 hostname1 = Some a /\ Proxies.top2 hostname2 = Some b /\ a <> b
         /\ verdict_of
              (do requestURI <- Url.parse (url details);
               match Proxies.top2 (Url.hostname requestURI),
                     Proxies.top2 (Url.hostname proxiedURI) with
               | Some a, Some b => if String.eqb a b then Return None else Return (Some proxied)
               | _, _ => Return None
               end) = Redirect proxied).
  { destruct (Url.parse (url details)) as [requestURI|e] eqn:Hr; [|left; reflexivity].
    cbn [bind].
    destruct (Proxies.top2 (Url.hostname requestURI)) as [a|] eqn:Ha; [|left; reflexivity].
    destruct (Proxies.top2 (Url.hostname proxiedURI)) as [b|] eqn:Hb; [|left; reflexivity].
    destruct (String.eqb_spec a b) as [Heq|Hne]; [left; reflexivity|].
    right. exists (Url.hostname requestURI), (Url.hostname proxiedURI), a, b.
    repeat split; auto; eexists; eauto. }
  assert (Horigin :
    forall stop : completion bool,
      verdict_of
        (do stop <- stop;
         if stop : bool then Return None
         else
           do requestURI <- Url.parse (url details);
           match Proxies.top2 (Url.hostname requestURI),
                 Proxies.top2 (Url.hostname proxiedURI) with
           | Some a, Some b => if String.eqb a b then Return None else Return (Some proxied)
           | _, _ => Return None
           end) = NoRedirect
      \/ exists hostname1 hostname2 a b,
           hostname_of (url details) hostname1 /\ hostname_of proxied hostname2
           /\ Proxies.top2 hostname1 = Some a /\ Proxies.top2 hostname2 = Some b /\ a <> b
           /\ verdict_of
                (do stop <- stop;
                 if stop : bool then Return None
                 else
                   do requestURI <- Url.parse (url details);
                   match Proxies.top2 (Url.hostname requestURI),
                         Proxies.top2 (Url.hostname proxiedURI) with
                   | Some a, Some b =>
                       if String.eqb a b then Return None else Return (Some proxied)
                   | _, _ => Return None
                   end) = Redirect proxied).
  { intros [[|]|e]; cbn [bind]; [left; reflexivity | exact Hlast | left; reflexivity]. }
  destruct (JS.truthy (headers !! "referer")).
  - destruct (Proxies.properToProxy st _ true) as [proxiable|e]; [|left; reflexivity].
    cbn [bind].
    destruct (JS.truthy proxiable); cbn [bind]; [left; reflexivity|].
    destruct (Url.parse (Url.or_empty (headers !! "referer"))) as [refererURI|e];
      [|left; reflexivity].
    cbn [bind].
    destruct (JS.loose_eq _ _); [left; reflexivity|].
    cbv zeta. apply Horigin.
  - cbn [bind]. cbv zeta. apply Horigin.
Qed.

Lemma maybeRedirect_referrer (st : Proxies.t) (details : Details) (proxied : string) :
  referrer_is_target details proxied -> decide_redirect st details proxied = NoRedirect.
Proof.
  intros (headers & referer & hostname & Hheaders & Hreferer & Hr & Ht).
  destruct (String.eqb_spec referer "") as [->|Hne].
  - (* an empty referrer is skipped; the target then has no hostname *)
    pose proof (hostname_of_unique _ _ _ Hr hostname_of_empty) as ->.
    destruct (maybeRedirect_cases st details proxied)
      as [H|(h1 & h2 & a & b & _ & H2 & _ & Hb & _)]; [exact H|].
    pose proof (hostname_of_unique _ _ _ H2 Ht) as ->.
    rewrite top2_null in Hb. discriminate Hb.
  - destruct Hr as (refererURI & Hr & Hrh). destruct Ht as (proxiedURI & Ht & Hth).
    unfold decide_redirect, Proxies._maybeRedirect.
    rewrite Ht. cbn [bind]. rewrite Hheaders, Hreferer.
    assert (Htruthy : JS.truthy (Some referer) = true).
    { simpl. destruct (String.eqb_spec referer ""); [contradiction|reflexivity]. }
    rewrite Htruthy. cbn [Url.or_empty].
    destruct (Proxies.properToProxy st referer true) as [proxiable|e]; [|reflexivity].
    cbn [bind]. destruct (JS.truthy proxiable); cbn [bind]; [reflexivity|].
    rewrite Hr. cbn [bind]. rewrite Hrh, Hth, loose_eq_refl. reflexivity.
Qed.

Lemma maybeRedirect_top2 (st : Proxies.t) (details : Details) (proxied : string) :
  same_top_two_domains details proxied -> decide_redirect st details proxied = NoRedirect.
Proof.
  intros (h1 & h2 & top & Hh1 & Hh2 & H1 & H2).
  destruct (maybeRedirect_cases st details proxied)
    as [H|(h1' & h2' & a & b & Hh1' & Hh2' & Ha & Hb & Hne & _)]; [exact H|].
  pose proof (hostname_of_unique _ _ _ Hh1 Hh1') as <-.
  pose proof (hostname_of_unique _ _ _ Hh2 Hh2') as <-.
  congruence.
Qed.

Lemma maybeRedirect_labels (st : Proxies.t) (details : Details) (proxied : string) :
  share_last_two_labels details proxied -> decide_redirect st details proxied = NoRedirect.
Proof.
  intros (pre1 & pre2 & l1 & l2 & Hp1 & Hp2 & Hl1 & Hl2 & H1 & H2).
  apply maybeRedirect_top2. eexists _, _, (l1 +:+ "." +:+ l2).
  split; [exact H1|]. split; [exact H2|]. split; now apply top2_last_two_labels.
Qed.

(** C2: the decision is [NoRedirect] whenever the referrer has the
    hostname of the candidate target, and whenever the hostnames of the
    request and of the candidate target end in the same two labels (the
    text that [top2DomainsRe] matches in both). *)
Theorem maybeRedirect_loop_guards (st : Proxies.t) (details : Details) (proxied : string) :
  referrer_is_target details proxied
  \/ share_last_two_labels details proxied
  \/ same_top_two_domains details proxied ->
  decide_redirect st details proxied = NoRedirect.
Proof.
  intros [H|[H|H]].
  - now apply maybeRedirect_referrer.
  - now apply maybeRedirect_labels.
  - now apply maybeRedirect_top2.
Qed.

Lemma maybeRedirect_loop_guards_witness :
  (referrer_is_target fromProxiedPage proxiedAbstract
   /\ decide_redirect campus fromProxiedPage proxiedAbstract = NoRedirect)
  /\ (share_last_two_labels onCampus "https://library.example.com.proxy.example.com/catalog"
      /\ decide_redirect campus onCampus
           "https://library.example.com.proxy.example.com/catalog" = NoRedirect).
Proof.
  assert (H1 : referrer_is_target fromProxiedPage proxiedAbstract).
  { exists {[ "referer" := "https://journal.example.org.proxy.example.com/toc" ]},
           "https://journal.example.org.proxy.example.com/toc",
           (Some "journal.example.org.proxy.example.com").
    split; [reflexivity|]. split; [vm_compute; reflexivity|].
    split; eexists; (split; [vm_compute; reflexivity | reflexivity]). }
  assert (H2 : share_last_two_labels onCampus
                 "https://library.example.com.proxy.example.com/catalog").
  { exists "library.", "library.example.com.proxy.", "example", "com".
    split; [right; now exists "library"|].
    split; [right; now exists "library.example.com.proxy"|].
    split; [split; [discriminate | vm_compute; reflexivity]|].
    split; [split; [discriminate | vm_compute; reflexivity]|].
    split; eexists; (split; [vm_compute; reflexivity | reflexivity]). }
  split; (split; [assumption|]).
  - apply (maybeRedirect_loop_guards campus fromProxiedPage proxiedAbstract). now left.
  - apply (maybeRedirect_loop_guards campus onCampus
             "https://library.example.com.proxy.example.com/catalog"). right. now left.
Defined.

(** C10: when the hostname of the request or of the candidate target has
    no two dot-separated labels at its end, the decision is [NoRedirect]. *)
Theorem maybeRedirect_needs_two_labels (st : Proxies.t) (details : Details)
        (proxied : string) :
  lacks_top_two_domains details proxied ->
  decide_redirect st details proxied = NoRedirect.
Proof.
  intros H.
  destruct (maybeRedirect_cases st details proxied)
    as [Hno|(h1 & h2 & a & b & Hh1 & Hh2 & Ha & Hb & _)]; [exact Hno|].
  destruct H as [(h & Hh & Hn)|[(h & Hh & Hn)|[(h & Hh & Hd)|(h & Hh & Hd)]]].
  - pose proof (hostname_of_unique _ _ _ Hh Hh1) as ->. congruence.
  - pose proof (hostname_of_unique _ _ _ Hh Hh2) as ->. congruence.
  - pose proof (hostname_of_unique _ _ _ Hh Hh1) as <-.
    rewrite (top2_single_label h Hd) in Ha. discriminate Ha.
  - pose proof (hostname_of_unique _ _ _ Hh Hh2) as <-.
    rewrite (top2_single_label h Hd) in Hb. discriminate Hb.
Qed.

Lemma maybeRedirect_needs_two_labels_witness :
  lacks_top_two_domains singleLabel "https://intranet.proxy.example.com/journal"
  /\ decide_redirect campus singleLabel "https://intranet.proxy.example.com/journal"
     = NoRedirect.
Proof.
  assert (H : lacks_top_two_domains singleLabel "https://intranet.proxy.example.com/journal").
  { right. right. left. exists "intranet".
    split; [|vm_compute; reflexivity].
    eexists. split; [vm_compute; reflexivity | reflexivity]. }
  split; [exact H|].
  apply (maybeRedirect_needs_two_labels campus singleLabel
           "https://intranet.proxy.example.com/journal" H).
Defined.

(** Without a guard that applies, the exchange is redirected. *)
Example maybeRedirect_redirects :
  Proxies.properToProxy campus "http://journal.example.org/abstract" true
  = Return (Some proxiedAbstract)
  /\ decide_redirect campus fromElsewhere proxiedAbstract = Redirect proxiedAbstract.
Proof. split; vm_compute; reflexivity. Qed.

(** ** The host blacklist *)

(** The names of the properties of [Object.prototype] are blacklisted. *)
Lemma inherited_blacklisted (host : string) :
  JS.inherited host = true -> Proxies._isBlacklisted host = true.
Proof.
  unfold JS.inherited. intros H. apply existsb_exists in H.
  destruct H as (k & Hin & Heq). apply String.eqb_eq in Heq. subst k.
  repeat (destruct Hin as [<- | Hin]; [vm_compute; reflexivity|]).
  destruct Hin.
Qed.

Lemma whitelist_overrides (blacklist : list regex) (host : string) :
  existsb (fun whitePattern => test false whitePattern host) Proxies.hostWhitelist = true ->
  Proxies.blacklisted_by blacklist host = false.
Proof.
  intros Hwhite. induction blacklist as [|blackPattern blacklist IH]; cbn [Proxies.blacklisted_by].
  - reflexivity.
  - destruct (test false blackPattern host).
    + now rewrite Hwhite.
    + exact IH.
Qed.

(** C8: [_isBlacklisted] is true for math.google.com, false for
    scholar.google.com and true for the single-label host onecompany; and a
    host that a whitelist pattern matches is never blacklisted. *)
Theorem isBlacklisted_whitelist_overrides :
  Proxies._isBlacklisted "math.google.com" = true
  /\ Proxies._isBlacklisted "scholar.google.com" = false
  /\ Proxies._isBlacklisted "onecompany" = true
  /\ forall host,
       existsb (fun whitePattern => test false whitePattern host) Proxies.hostWhitelist = true ->
       Proxies._isBlacklisted host = false.
Proof.
  repeat split; try (vm_compute; reflexivity).
  intros host Hwhite. now apply whitelist_overrides.
Qed.

Lemma isBlacklisted_whitelist_overrides_witness :
  existsb (fun whitePattern => test false whitePattern "muse.jhu.edu") Proxies.hostWhitelist = true
  /\ Proxies._isBlacklisted "muse.jhu.edu" = false.
Proof.
  split.
  - vm_compute. reflexivity.
  - apply (proj2 (proj2 (proj2 isBlacklisted_whitelist_overrides))).
    vm_compute. reflexivity.
Defined.

(** ** The host index *)


Lemma strings_indexOf_from_none (arr : list string) (s : string) (i : Z) :
  0 <= i -> (JS.strings_indexOf_from arr s i = -1 <-> s ∉ arr).
Proof.
  revert i. induction arr as [|x arr IH]; intros i Hi; simpl.
  - split; [intros _; apply not_elem_of_nil | reflexivity].
  - rewrite not_elem_of_cons. destruct (String.eqb_spec x s) as [->|Hne].
    + split; [lia | intros [H _]; congruence].
    + rewrite IH by lia. split; [intros H; split; [congruence | exact H] | tauto].
Qed.

Lemma strings_indexOf_none (arr : list string) (s : string) :
  JS.strings_indexOf arr s = -1 <-> s ∉ arr.
Proof. apply strings_indexOf_from_none. lia. Qed.

Lemma index_hosts_lookup (id : nat) (hs : list string) (index : gmap string nat)
      (h : string) :
  Proxies.index_hosts id hs index !! h
  = if decide (h ∈ hs) then Some id else index !! h.
Proof.
  unfold Proxies.index_hosts. revert index.
  induction hs as [|x hs IH]; intros index; simpl.
  - destruct (decide (h ∈ [])) as [H|_]; [now apply elem_of_nil in H | reflexivity].
  - rewrite IH. destruct (decide (h ∈ hs)) as [Hin|Hnin].
    + destruct (decide (h ∈ x :: hs)) as [_|H]; [reflexivity|].
      exfalso. apply H. now apply elem_of_cons; right.
    + destruct (decide (x = h)) as [->|Hne].
      * rewrite lookup_insert_eq.
        destruct (decide (h ∈ h :: hs)) as [_|H]; [reflexivity|].
        exfalso. apply H. now apply elem_of_cons; left.
      * rewrite lookup_insert_ne by exact Hne.
        destruct (decide (h ∈ x :: hs)) as [H|_]; [|reflexivity].
        apply elem_of_cons in H as [H|H]; congruence.
Qed.

(** What [save] leaves in the registry, field by field. *)
Lemma save_fields (st : Proxies.t) (id : nat) (proxy : Proxy.t) :
  Proxies.heap st !! id = Some proxy ->
  exists proxy',
    Proxy.hosts proxy' = Proxy.hosts proxy
    /\ Proxies.heap (Proxies.save st id) = <[id := proxy']> (Proxies.heap st)
    /\ Proxies.proxies (Proxies.save st id)
       = (if existsb (Nat.eqb id) (Proxies.proxies st) then Proxies.proxies st
          else Proxies.proxies st ++ [id])%list
    /\ Proxies.hosts (Proxies.save st id)
       = Proxies.index_hosts id (Proxy.hosts proxy)
           (filter (fun entry => Proxies.keeps id (Proxy.hosts proxy) entry = true)
                   (Proxies.hosts st)).
Proof.
  intros Hp. unfold Proxies.save. rewrite Hp.
  destruct (Proxy.regexp proxy) as [r|] eqn:Hr.
  - exists proxy. cbn. auto.
  - pose proof (compileRegexp_hosts (Proxies.schemeParameters st) proxy) as Hh.
    destruct (Proxy.compileRegexp (Proxies.schemeParameters st) proxy) as [sp proxy'].
    cbn in Hh. exists proxy'. cbn. rewrite Hh. auto.
Qed.

Lemma save_proxies_in (st : Proxies.t) (id : nat) (proxy : Proxy.t) :
  Proxies.heap st !! id = Some proxy ->
  id ∈ Proxies.proxies (Proxies.save st id)
  /\ (forall id', id' ∈ Proxies.proxies st -> id' ∈ Proxies.proxies (Proxies.save st id))
  /\ (forall id', id' ∈ Proxies.proxies (Proxies.save st id) ->
                  id' = id \/ id' ∈ Proxies.proxies st).
Proof.
  intros Hp. destruct (save_fields st id proxy Hp) as (proxy' & _ & _ & Hps & _).
  rewrite Hps. destruct (existsb (Nat.eqb id) (Proxies.proxies st)) eqn:Hex.
  - apply existsb_exists in Hex as (x & Hx & Heq). apply Nat.eqb_eq in Heq. subst x.
    apply list_elem_of_In in Hx. repeat split; auto.
  - repeat split.
    + apply elem_of_app. right. apply list_elem_of_singleton. reflexivity.
    + intros id' H. apply elem_of_app. now left.
    + intros id' H. apply elem_of_app in H as [H|H]; [now right|].
      apply list_elem_of_singleton in H. now left.
Qed.

(** The last save wins: every host of the saved proxy is indexed to it. *)
Lemma save_indexes_hosts (st : Proxies.t) (id : nat) (proxy : Proxy.t) (h : string) :
  Proxies.heap st !! id = Some proxy -> h ∈ Proxy.hosts proxy ->
  Proxies.hosts (Proxies.save st id) !! h = Some id.
Proof.
  intros Hp Hin. destruct (save_fields st id proxy Hp) as (proxy' & _ & _ & _ & Hhs).
  rewrite Hhs, index_hosts_lookup. now destruct (decide (h ∈ Proxy.hosts proxy)).
Qed.

Lemma save_other_entry (st : Proxies.t) (id : nat) (proxy : Proxy.t) (h : string)
      (id' : nat) :
  Proxies.heap st !! id = Some proxy -> h ∉ Proxy.hosts proxy ->
  (Proxies.hosts (Proxies.save st id) !! h = Some id'
   <-> Proxies.hosts st !! h = Some id' /\ id' <> id).
Proof.
  intros Hp Hnin. destruct (save_fields st id proxy Hp) as (proxy' & _ & _ & _ & Hhs).
  rewrite Hhs, index_hosts_lookup.
  destruct (decide (h ∈ Proxy.hosts proxy)) as [Hin|_]; [contradiction|].
  rewrite map_lookup_filter_Some. unfold Proxies.keeps. cbn [fst snd].
  apply strings_indexOf_none in Hnin. rewrite Hnin. cbn.
  rewrite andb_true_r, negb_true_iff, Nat.eqb_neq. tauto.
Qed.

Lemma save_sound (st : Proxies.t) (id : nat) (proxy : Proxy.t) :
  Proxies.heap st !! id = Some proxy -> sound_others id st -> sound (Proxies.save st id).
Proof.
  intros Hp Hs h id' Hh.
  destruct (save_fields st id proxy Hp) as (proxy' & Hhosts & Hheap & _ & _).
  destruct (save_proxies_in st id proxy Hp) as (Hid & Hkeep & _).
  destruct (decide (h ∈ Proxy.hosts proxy)) as [Hin|Hnin].
  - rewrite (save_indexes_hosts st id proxy h Hp Hin) in Hh. injection Hh as <-.
    split; [exact Hid|]. exists proxy'. rewrite Hheap, lookup_insert_eq, Hhosts. auto.
  - apply (save_other_entry st id proxy h id' Hp Hnin) in Hh as [Hh Hne].
    destruct (Hs h id' Hh Hne) as (Hin' & q & Hq & Hl).
    split; [now apply Hkeep|]. exists q. rewrite Hheap, lookup_insert_ne by congruence. auto.
Qed.

Lemma save_covers (st : Proxies.t) (id : nat) (proxy : Proxy.t) :
  Proxies.heap st !! id = Some proxy -> covers_others id st ->
  unshared id (Proxy.hosts proxy) st -> covers (Proxies.save st id).
Proof.
  intros Hp Hc Hu id' q h Hin Hq Hl.
  destruct (save_fields st id proxy Hp) as (proxy' & Hhosts & Hheap & _ & _).
  destruct (save_proxies_in st id proxy Hp) as (_ & _ & Hback).
  rewrite Hheap in Hq.
  destruct (Nat.eq_dec id' id) as [->|Hne].
  - rewrite lookup_insert_eq in Hq. injection Hq as <-. rewrite Hhosts in Hl.
    now apply (save_indexes_hosts st id proxy).
  - rewrite lookup_insert_ne in Hq by congruence.
    destruct (Hback id' Hin) as [Heq|Hin']; [contradiction|].
    apply (save_other_entry st id proxy h id' Hp).
    + exact (Hu id' q h Hne Hin' Hq Hl).
    + split; [exact (Hc id' q h Hne Hin' Hq Hl) | exact Hne].
Qed.

Lemma push_host_fields (st : Proxies.t) (id : nat) (proxy : Proxy.t) (host : string) :
  Proxies.heap st !! id = Some proxy ->
  Proxies.proxies (Proxies.push_host st id host) = Proxies.proxies st
  /\ Proxies.hosts (Proxies.push_host st id host) = Proxies.hosts st
  /\ (exists proxy', Proxies.heap (Proxies.push_host st id host) !! id = Some proxy'
                     /\ Proxy.hosts proxy' = (Proxy.hosts proxy ++ [host])%list)
  /\ (forall id', id' <> id ->
        Proxies.heap (Proxies.push_host st id host) !! id' = Proxies.heap st !! id').
Proof.
  intros Hp. unfold Proxies.push_host. cbn. repeat split.
  - eexists. rewrite lookup_alter_eq, Hp. cbn. split; reflexivity.
  - intros id' Hne. now rewrite lookup_alter_ne by congruence.
Qed.

(** Auto-association keeps the index exact: the host it appends is in no
    index entry, hence in no other proxy's list. *)
Lemma associate_invariant (st : Proxies.t) (id : nat) (proxy : Proxy.t)
      (m : list (option string)) (status : Z) :
  covers st -> sound st ->
  id ∈ Proxies.proxies st -> Proxies.heap st !! id = Some proxy ->
  covers (Observer.associate st id proxy m status)
  /\ sound (Observer.associate st id proxy m status).
Proof.
  intros Hc Hs Hid Hp. unfold Observer.associate.
  set (host := JS.str_undefined (Proxy.captured proxy m "%h")).
  destruct (_ && _) eqn:Hcond; [|auto].
  repeat (apply andb_prop in Hcond as [Hcond ?]).
  match goal with H : negb (bool_decide _) = true |- _ =>
    apply negb_true_iff, bool_decide_eq_false in H; rename H into Hfree end.
  assert (Hnone : Proxies.hosts st !! host = None).
  { destruct (Proxies.hosts st !! host) eqn:E; [|reflexivity].
    exfalso. apply Hfree. eauto. }
  destruct (push_host_fields st id proxy host Hp) as (Hps & Hhs & (proxy' & Hp' & Hhosts') & Hoth).
  set (st' := Proxies.push_host st id host) in *.
  assert (Hso : sound_others id st').
  { intros h id' Hh Hne. rewrite Hhs in Hh. rewrite Hps, (Hoth id' Hne).
    exact (Hs h id' Hh). }
  assert (Hco : covers_others id st').
  { intros id' q h Hne Hin Hq Hl. rewrite Hps in Hin. rewrite (Hoth id' Hne) in Hq.
    rewrite Hhs. exact (Hc id' q h Hin Hq Hl). }
  assert (Hun : unshared id (Proxy.hosts proxy') st').
  { intros id' q h Hne Hin Hq Hl Hmine.
    rewrite Hps in Hin. rewrite (Hoth id' Hne) in Hq.
    pose proof (Hc id' q h Hin Hq Hl) as Hidx.
    rewrite Hhosts' in Hmine. apply elem_of_app in Hmine as [Hmine|Hmine].
    - pose proof (Hc id proxy h Hid Hp Hmine). congruence.
    - apply list_elem_of_singleton in Hmine. subst h. congruence. }
  split.
  - exact (save_covers st' id proxy' Hp' Hco Hun).
  - exact (save_sound st' id proxy' Hp' Hso).
Qed.




(** The association of the witness does append and index the new host. *)
Example associate_indexes_new_host :
  Proxies.hosts (Observer.associate campus 1%nat campusCompiled archiveMatch 200)
    !! "archive.example.org" = Some 1%nat
  /\ exec false (default Eps (Proxy.regexp campusCompiled))
          "https://archive.example.org.proxy.example.com/toc" = Some archiveMatch.
Proof. split; vm_compute; reflexivity. Qed.

(** ** The EZProxy detector *)






(** The amended C3 does not extend to every exchange of its shape: with
    user information in the [location] the learned matcher does not match
    the proxied URL, and the proxy is learned and saved again. *)
Example learn_twice_with_user_information :
  Proxies.proxies
    (Observer.observe_deferred (Observer.observe_deferred started userLibrary) userLibrary)
  = [1%nat; 2%nat].
Proof. vm_compute. reflexivity. Qed.

(** The probe listener learns the same proxy from the exchange whose
    [location] is the login URL, but stops at the undeclared [aSubject]
    before it saves. *)
Example probe_listener_throws :
  Detectors.EZProxy_Listener_onHeadersReceived started
    (Observer.processed started
       (loginExchange "http://ezproxy.example.edu:2048/path"
                      "http://ezproxy.example.edu/login?url=http://journal.example.org/path"))
  = Throw "ReferenceError".
Proof. vm_compute. reflexivity. Qed.

(** C9 (the code departs from it): [onBeforeSendHeaders] returns every
    header it is given, a [Cookie] header included: the filter compares the
    method [toLowerCase] itself, not its result, with ['cookie']. *)
Theorem onBeforeSendHeaders_keeps_cookie :
  (forall requestHeaders,
     Detectors.EZProxy_Listener_onBeforeSendHeaders requestHeaders = requestHeaders)
  /\ Detectors.EZProxy_Listener_onBeforeSendHeaders
       [ {| name := "Cookie"; value := "ezproxy=abc" |};
         {| name := "Accept"; value := "*/*" |} ]
     = [ {| name := "Cookie"; value := "ezproxy=abc" |};
         {| name := "Accept"; value := "*/*" |} ].
Proof.
  assert (Hall : forall requestHeaders,
             Detectors.EZProxy_Listener_onBeforeSendHeaders requestHeaders = requestHeaders).
  { intros hs. unfold Detectors.EZProxy_Listener_onBeforeSendHeaders.
    induction hs as [|h hs IH]; [reflexivity|].
    rewrite filter_cons. rewrite IH.
    destruct (decide _) as [_|Hne]; [reflexivity|].
    exfalso. apply Hne. vm_compute. reflexivity. }
  split; [exact Hall | apply Hall].
Qed.

(** ** The example registries *)

Lemma campus_consistent : covers campus /\ sound campus.
Proof.
  assert (Hp : Proxies.heap unsaved !! 1%nat = Some campusProxy) by (vm_compute; reflexivity).
  split.
  - apply (save_covers unsaved 1%nat campusProxy Hp).
    + intros id' proxy h _ Hin. change (Proxies.proxies unsaved) with (@nil nat) in Hin.
      now apply elem_of_nil in Hin.
    + intros id' proxy h _ Hin. change (Proxies.proxies unsaved) with (@nil nat) in Hin.
      now apply elem_of_nil in Hin.
  - apply (save_sound unsaved 1%nat campusProxy Hp).
    intros h id' Hh. change (Proxies.hosts unsaved) with (∅ : gmap string nat) in Hh.
    rewrite lookup_empty in Hh. discriminate Hh.
Qed.

Lemma campus_ignores_nothing (u : string) : u ∉ Proxies._ignoreURLs campus.
Proof.
  change (Proxies._ignoreURLs campus) with (∅ : gset string). apply not_elem_of_empty.
Qed.

Lemma started_well_formed : well_formed started /\ sound started.
Proof.
  split; [split|].
  - apply NoDup_nil_2.
  - intros id Hin. change (Proxies.proxies started) with (@nil nat) in Hin.
    now apply elem_of_nil in Hin.
  - intros h id Hh. change (Proxies.hosts started) with (∅ : gmap string nat) in Hh.
    rewrite lookup_empty in Hh. discriminate Hh.
Qed.

(** ** The request headers *)

Lemma processHeaders_fold (hs : list Header) (acc : gmap string string) (k : string) :
  fold_left (fun headers header =>
               if String.eqb (JS.toLowerCase (name header)) "__proto__" then headers
               else <[JS.toLowerCase (name header) := value header]> headers)
            hs acc !! k
  = match (if String.eqb k "__proto__" then None else last_header k hs) with
    | Some v => Some v
    | None => acc !! k
    end.
Proof.
  revert acc. induction hs as [|h hs IH]; intros acc; [destruct (String.eqb _ _); reflexivity|].
  cbn [fold_left last_header]. rewrite IH.
  destruct (String.eqb k "__proto__") eqn:Ek.
  - apply String.eqb_eq in Ek. subst k.
    destruct (String.eqb (JS.toLowerCase (name h)) "__proto__") eqn:E; [reflexivity|].
    apply String.eqb_neq in E. rewrite lookup_insert_ne by exact E. reflexivity.
  - destruct (last_header k hs); [reflexivity|].
    destruct (String.eqb (JS.toLowerCase (name h)) k) eqn:E.
    + apply String.eqb_eq in E. subst k. rewrite Ek. apply lookup_insert_eq.
    + apply String.eqb_neq in E.
      destruct (String.eqb (JS.toLowerCase (name h)) "__proto__"); [reflexivity|].
      rewrite lookup_insert_ne by exact E. reflexivity.
Qed.

Lemma lower_not_upper (c : ascii) : JS.is_upper (JS.lower c) = false.
Proof. destruct c as [[] [] [] [] [] [] [] []]; reflexivity. Qed.

Lemma lower_idem (c : ascii) : JS.lower (JS.lower c) = JS.lower c.
Proof. unfold JS.lower at 1. rewrite lower_not_upper. reflexivity. Qed.

Lemma toLowerCase_idem (s : string) : JS.toLowerCase (JS.toLowerCase s) = JS.toLowerCase s.
Proof. induction s as [|c s IH]; [reflexivity|]. cbn. rewrite lower_idem, IH. reflexivity. Qed.

Lemma last_header_key (k : string) (hs : list Header) (v : string) :
  last_header k hs = Some v -> JS.toLowerCase k = k.
Proof.
  induction hs as [|h hs IH]; [discriminate|]. cbn.
  destruct (last_header k hs); [intros [= <-]; apply IH; reflexivity|].
  destruct (String.eqb (JS.toLowerCase (name h)) k) eqn:E; [|discriminate].
  intros _. apply String.eqb_eq in E. subst k. apply toLowerCase_idem.
Qed.

(** X1: the object that [_processHeaders] makes of a header array has, for
    a key other than [__proto__], the property whose value is that of the
    last header with that name in any letter case, and no property of its
    own otherwise: none for [__proto__], whatever the headers, and none
    for a key with an upper-case letter.  Asked for a key without a
    property of its own, the object answers with what it inherits from
    [Object.prototype], and with [undefined] when there is no such
    property either, as for the keys [referer], [location] and [server]
    that the file reads. *)
Theorem processHeaders_last_wins (headerArray : list Header) (k : string) :
  Proxies._processHeaders headerArray !! k
  = (if String.eqb k "__proto__" then None else last_header k headerArray)
  /\ Proxies._processHeaders headerArray !! "__proto__" = None
  /\ (is_Some (Proxies._processHeaders headerArray !! k) -> JS.toLowerCase k = k)
  /\ property_of (Proxies._processHeaders headerArray) k
     = match (if String.eqb k "__proto__" then None else last_header k headerArray) with
       | Some v => Own v
       | None => if JS.inherited k then Inherited else Undefined
       end
  /\ (k ∈ ["referer"; "location"; "server"] ->
      property_of (Proxies._processHeaders headerArray) k
      = match last_header k headerArray with Some v => Own v | None => Undefined end).
Proof.
  assert (H : forall k, Proxies._processHeaders headerArray !! k
                        = if String.eqb k "__proto__" then None else last_header k headerArray).
  { intros k'. unfold Proxies._processHeaders. rewrite processHeaders_fold.
    destruct (if String.eqb k' "__proto__" then None else last_header k' headerArray);
      [reflexivity | apply lookup_empty]. }
  split; [apply H|]. split; [rewrite H; reflexivity|]. split; [|split].
  - rewrite H. destruct (String.eqb k "__proto__"); intros [v Hv]; [discriminate Hv|].
    apply (last_header_key k headerArray v Hv).
  - unfold property_of. rewrite H. reflexivity.
  - intros Hk. unfold property_of. rewrite H.
    repeat (apply elem_of_cons in Hk; destruct Hk as [-> | Hk]; [reflexivity|]).
    now apply elem_of_nil in Hk.
Qed.

Lemma first_match_Some (h : gmap nat Proxy.t) (want : Proxy.t -> bool) (ids : list nat)
      (URL : string) (id : nat) (proxy : Proxy.t) (m : list (option string)) :
  Proxies.first_match h want ids URL = Some (id, proxy, m) ->
  id ∈ ids /\ h !! id = Some proxy /\ want proxy = true
  /\ exists r, Proxy.regexp proxy = Some r /\ exec false r URL = Some m.
Proof.
  induction ids as [|i ids IH]; [discriminate|]. cbn [Proxies.first_match].
  assert (Hrec : Proxies.first_match h want ids URL = Some (id, proxy, m) ->
                 id ∈ i :: ids /\ h !! id = Some proxy /\ want proxy = true
                 /\ exists r, Proxy.regexp proxy = Some r /\ exec false r URL = Some m).
  { intros H. destruct (IH H) as (Hin & Hrest). split; [right; exact Hin | exact Hrest]. }
  destruct (h !! i) as [p|] eqn:Hi; [|exact Hrec].
  destruct (want p) eqn:Hw; [|exact Hrec].
  destruct (Proxy.regexp p) as [r|] eqn:Hr; [|exact Hrec].
  destruct (exec false r URL) as [m'|] eqn:He; [|exact Hrec].
  intros [= <- <- <-]. split; [left|]. split; [exact Hi|]. split; [exact Hw|].
  exists r. split; [exact Hr | exact He].
Qed.

Lemma save_settings (st : Proxies.t) (id : nat) : same_settings (Proxies.save st id) st.
Proof.
  unfold Proxies.save, same_settings. destruct (Proxies.heap st !! id) as [p|]; [|tauto].
  destruct (Proxy.regexp p); [|destruct (Proxy.compileRegexp _ _)]; cbn; tauto.
Qed.

Lemma associate_settings (st : Proxies.t) (id : nat) (proxy : Proxy.t)
      (m : list (option string)) (status : Z) :
  same_settings (Observer.associate st id proxy m status) st.
Proof.
  unfold Observer.associate.
  destruct (_ && _); [|unfold same_settings; tauto].
  destruct (save_settings (Proxies.push_host st id (JS.str_undefined (Proxy.captured proxy m "%h"))) id)
    as (H1 & H2 & H3 & H4).
  unfold same_settings. rewrite H1, H2, H3, H4. cbn. tauto.
Qed.

(** The registry that [observe] leaves. *)
Lemma observe_registry (st : Proxies.t) (d : RawDetails) :
  registry_after st d = st
  \/ exists id proxy m,
       Proxies.first_match (Proxies.heap st) Proxy.multiHost (Proxies.proxies st) (raw_url d)
       = Some (id, proxy, m)
       /\ raw_statusCode d < 400
       /\ registry_after st d = Observer.associate st id proxy m (raw_statusCode d).
Proof.
  unfold registry_after, Observer.observe.
  destruct (bool_decide _ || (400 <=? raw_statusCode d)) eqn:Hskip; [left; reflexivity|].
  apply orb_false_iff in Hskip. destruct Hskip as [_ Hstatus]. apply Z.leb_gt in Hstatus.
  destruct (Url.parse (raw_url d)) as [requestURI|e]; [|left; reflexivity].
  destruct (Proxies.first_match _ _ _ _) as [[[id proxy] m]|] eqn:Hm.
  - right. exists id, proxy, m. split; [reflexivity|]. split; [exact Hstatus|].
    destruct (Proxies.disabledByDomain _); [reflexivity|].
    destruct (Proxies.properToProxy _ _ _) as [proxied|]; [|reflexivity].
    destruct (negb _); reflexivity.
  - left. destruct (Proxies.disabledByDomain _); [reflexivity|].
    destruct (Proxies.properToProxy _ _ _) as [proxied|]; [|reflexivity].
    destruct (negb _); reflexivity.
Qed.

Lemma observe_settings (st : Proxies.t) (d : RawDetails) :
  same_settings (registry_after st d) st.
Proof.
  destruct (observe_registry st d) as [-> | (id & proxy & m & _ & _ & ->)].
  - unfold same_settings; tauto.
  - apply associate_settings.
Qed.

(** [properToProxy] throws what [url.parse] throws. *)
Lemma properToProxy_parse_throws (st : Proxies.t) (URL e : string) (only : bool) :
  Url.parse URL = Throw e -> Proxies.properToProxy st URL only = Throw e.
Proof. intros H. unfold Proxies.properToProxy. rewrite H. reflexivity. Qed.

(** What [observe] answers once it is past its first test. *)
Lemma observe_answer_parsed (st : Proxies.t) (d : RawDetails) :
  raw_url d ∉ Proxies._ignoreURLs st -> raw_statusCode d < 400 ->
  answer st d
  = match Url.parse (raw_url d) with
    | Throw e => Throw e
    | Return _ =>
        if Proxies.disabledByDomain st then Return None
        else match Proxies.properToProxy (registry_after st d) (raw_url d) true with
             | Throw e => Throw e
             | Return proxied =>
                 if negb (JS.truthy proxied) then Return None
                 else Proxies._maybeRedirect (registry_after st d)
                        (Observer.processed (registry_after st d) d) (Url.or_empty proxied)
             end
    end.
Proof.
  intros Hign Hstatus.
  destruct (observe_settings st d) as (_ & Hdis & _ & _). rewrite <- Hdis. clear Hdis.
  unfold answer, registry_after, Observer.observe.
  rewrite bool_decide_eq_false_2 by exact Hign.
  replace (400 <=? raw_statusCode d) with false by (symmetry; apply Z.leb_gt; exact Hstatus).
  cbn [orb].
  destruct (Url.parse (raw_url d)) as [requestURI|e]; [|reflexivity].
  destruct (match Proxies.first_match _ _ _ _ with Some _ => _ | None => _ end) as [st1 sched].
  destruct (Proxies.disabledByDomain st1) eqn:Hd;
    [cbn [fst snd]; rewrite Hd; reflexivity|].
  destruct (Proxies.properToProxy st1 (raw_url d) true) as [proxied|e] eqn:Hp;
    [|cbn [fst snd]; rewrite Hd, Hp; reflexivity].
  destruct (negb (JS.truthy proxied)) eqn:Ht; cbn [fst snd]; rewrite Hd, Hp, Ht; reflexivity.
Qed.

(** While [disabledByDomain] is not set [properToProxy] repeats the
    parse. *)
Lemma observe_answer (st : Proxies.t) (d : RawDetails) :
  raw_url d ∉ Proxies._ignoreURLs st -> raw_statusCode d < 400 ->
  Proxies.disabledByDomain st = false ->
  answer st d
  = match Proxies.properToProxy (registry_after st d) (raw_url d) true with
    | Throw e => Throw e
    | Return proxied =>
        if negb (JS.truthy proxied) then Return None
        else Proxies._maybeRedirect (registry_after st d)
               (Observer.processed (registry_after st d) d) (Url.or_empty proxied)
    end.
Proof.
  intros Hign Hstatus Hdis. rewrite observe_answer_parsed by assumption. rewrite Hdis.
  destruct (Url.parse (raw_url d)) as [requestURI|e] eqn:Hp; [reflexivity|].
  rewrite (properToProxy_parse_throws _ _ e _ Hp). reflexivity.
Qed.

Lemma observe_skips (st : Proxies.t) (d : RawDetails) :
  raw_url d ∈ Proxies._ignoreURLs st \/ 400 <= raw_statusCode d ->
  Observer.observe st d = (st, Return None, false).
Proof.
  intros H. unfold Observer.observe.
  replace (bool_decide _ || (400 <=? raw_statusCode d)) with true; [reflexivity|].
  symmetry. apply orb_true_iff. destruct H as [H | H].
  - left. apply bool_decide_eq_true_2. exact H.
  - right. apply Z.leb_le. exact H.
Qed.

(** While [disabledByDomain] is set [observe] returns nothing, unless
    [url.parse] throws at the URL of the request. *)
Lemma observe_disabled (st : Proxies.t) (d : RawDetails) :
  Proxies.disabledByDomain st = true ->
  answer st d = Return None
  \/ exists e, Url.parse (raw_url d) = Throw e /\ answer st d = Throw e.
Proof.
  intros Hdis.
  destruct (decide (raw_url d ∈ Proxies._ignoreURLs st)) as [Hign | Hign].
  { left. unfold answer. rewrite observe_skips by (left; exact Hign). reflexivity. }
  destruct (Z_lt_le_dec (raw_statusCode d) 400) as [Hstatus | Hstatus].
  - rewrite observe_answer_parsed by assumption. rewrite Hdis.
    destruct (Url.parse (raw_url d)) as [requestURI|e]; [left; reflexivity|].
    right. exists e. split; reflexivity.
  - left. unfold answer. rewrite observe_skips by (right; exact Hstatus). reflexivity.
Qed.

(** X2: [observe] returns nothing, changes nothing and schedules no
    detection for a URL of [_ignoreURLs] or a status code of 400 and
    more.  While [disabledByDomain] is set it redirects nothing: it
    returns nothing when [url.parse] accepts the URL of the request, and
    is aborted by the exception of [url.parse] otherwise (for a URL and a
    status code that pass the first test). *)
Theorem observe_answers_nothing_when_off (st : Proxies.t) (d : RawDetails) :
  (raw_url d ∈ Proxies._ignoreURLs st \/ 400 <= raw_statusCode d ->
   Observer.observe st d = (st, Return None, false))
  /\ (Proxies.disabledByDomain st = true ->
      verdict_of (answer st d) = NoRedirect
      /\ (forall requestURI,
            Url.parse (raw_url d) = Return requestURI -> answer st d = Return None)
      /\ (forall e,
            raw_url d ∉ Proxies._ignoreURLs st -> raw_statusCode d < 400 ->
            Url.parse (raw_url d) = Throw e -> answer st d = Throw e)).
Proof.
  split; [apply observe_skips|]. intros Hdis. split; [|split].
  - destruct (observe_disabled st d Hdis) as [-> | (e & _ & ->)]; reflexivity.
  - intros requestURI Hp.
    destruct (observe_disabled st d Hdis) as [H | (e & He & _)]; [exact H|].
    rewrite Hp in He. discriminate He.
  - intros e Hign Hstatus Hp. rewrite observe_answer_parsed by assumption.
    rewrite Hp. reflexivity.
Qed.

Lemma observe_answers_nothing_when_off_witness :
  400 <= raw_statusCode missingPage
  /\ Observer.observe campus missingPage = (campus, Return None, false).
Proof.
  assert (H : 400 <= raw_statusCode missingPage) by (cbn; lia).
  split; [exact H|].
  apply (proj1 (observe_answers_nothing_when_off campus missingPage)). right. exact H.
Defined.

Lemma requestHeaders_of_ext (a b : Proxies.t) (requestID : string) :
  Proxies._reqIDToHeaders a = Proxies._reqIDToHeaders b ->
  Proxies.requestHeaders_of a requestID = Proxies.requestHeaders_of b requestID.
Proof.
  intros H. unfold Proxies.requestHeaders_of, Proxies.inherits. rewrite H. reflexivity.
Qed.

Lemma processed_after (st : Proxies.t) (d : RawDetails) :
  Observer.processed (registry_after st d) d
  = with_request_headers d (Proxies.requestHeaders_of st (raw_requestID d)).
Proof.
  unfold Observer.processed, with_request_headers.
  rewrite (requestHeaders_of_ext (registry_after st d) st); [reflexivity|].
  apply observe_settings.
Qed.

(** The answer of [observe] where it decides about the redirect. *)
Lemma observe_decides (st : Proxies.t) (d : RawDetails) (proxied : string) :
  raw_url d ∉ Proxies._ignoreURLs st -> raw_statusCode d < 400 ->
  Proxies.disabledByDomain st = false ->
  Proxies.properToProxy (registry_after st d) (raw_url d) true = Return (Some proxied) ->
  proxied <> "" ->
  answer st d
  = Proxies._maybeRedirect (registry_after st d)
      (with_request_headers d (Proxies.requestHeaders_of st (raw_requestID d))) proxied.
Proof.
  intros Hign Hstatus Hdis Hp Hne.
  rewrite observe_answer by assumption. rewrite Hp.
  cbn [JS.truthy]. replace (String.eqb proxied "") with false
    by (symmetry; apply String.eqb_neq; exact Hne).
  cbn [negb Url.or_empty]. rewrite processed_after. reflexivity.
Qed.

Lemma stored_headers (st : Proxies.t) (requestID : string) (hs : list Header) :
  Proxies.requestHeaders_of (Proxies.storeRequestHeaders st requestID hs) requestID
  = Some (Proxies._processHeaders hs).
Proof.
  unfold Proxies.requestHeaders_of, Proxies.storeRequestHeaders. cbn.
  rewrite lookup_insert_eq. reflexivity.
Qed.

Lemma removed_headers (st : Proxies.t) (requestID : string) (hs : list Header) :
  Proxies.requestHeaders_of
    (Proxies.removeRequestHeaders (Proxies.storeRequestHeaders st requestID hs) requestID)
    requestID
  = if String.eqb requestID "__proto__" then Some (Proxies._processHeaders hs)
    else if Proxies.inherits st requestID then Some ∅ else None.
Proof.
  unfold Proxies.removeRequestHeaders.
  destruct (String.eqb requestID "__proto__") eqn:E; [apply stored_headers|].
  apply String.eqb_neq in E.
  unfold Proxies.requestHeaders_of, Proxies.inherits, Proxies.storeRequestHeaders. cbn.
  rewrite lookup_delete_eq.
  rewrite lookup_delete_ne by exact E. rewrite lookup_insert_ne by exact E. reflexivity.
Qed.

(** X3: where [observe] decides about the redirect to the proxied URL of
    a known host, the request headers that [_maybeRedirect] gets are
    those that [storeRequestHeaders] stored for the request.  After
    [removeRequestHeaders] it gets what [_reqIDToHeaders] inherits by the
    name of the request ID, and [undefined] when there is no such
    property; for the request ID [__proto__] nothing is removed. *)
Theorem stored_request_headers_reach_the_decision (st : Proxies.t) (d : RawDetails)
        (requestHeaders_ : list Header) (proxied : string) :
  let stored := Proxies.storeRequestHeaders st (raw_requestID d) requestHeaders_ in
  let removed := Proxies.removeRequestHeaders stored (raw_requestID d) in
  raw_url d ∉ Proxies._ignoreURLs st -> raw_statusCode d < 400 ->
  Proxies.disabledByDomain st = false ->
  proxied <> "" ->
  (Proxies.properToProxy (registry_after stored d) (raw_url d) true = Return (Some proxied) ->
   answer stored d
   = Proxies._maybeRedirect (registry_after stored d)
       (with_request_headers d (Some (Proxies._processHeaders requestHeaders_))) proxied)
  /\ (Proxies.properToProxy (registry_after removed d) (raw_url d) true
      = Return (Some proxied) ->
      answer removed d
      = Proxies._maybeRedirect (registry_after removed d)
          (with_request_headers d
             (if String.eqb (raw_requestID d) "__proto__"
              then Some (Proxies._processHeaders requestHeaders_)
              else if Proxies.inherits st (raw_requestID d) then Some ∅ else None))
          proxied).
Proof.
  cbv zeta. intros Hign Hstatus Hdis Hne. split; intros Hp.
  - rewrite (observe_decides _ d proxied) by assumption.
    rewrite stored_headers. reflexivity.
  - rewrite (observe_decides _ d proxied).
    + rewrite removed_headers. reflexivity.
    + unfold Proxies.removeRequestHeaders. destruct (String.eqb _ _); exact Hign.
    + exact Hstatus.
    + unfold Proxies.removeRequestHeaders. destruct (String.eqb _ _); exact Hdis.
    + exact Hp.
    + exact Hne.
Qed.

Lemma stored_request_headers_reach_the_decision_witness :
  answer (Proxies.storeRequestHeaders campus "7" fromSearch) abstractRequest
  = Return (Some proxiedAbstract)
  /\ answer (Proxies.removeRequestHeaders
               (Proxies.storeRequestHeaders campus "7" fromSearch) "7") abstractRequest
     = Throw "TypeError".
Proof.
  assert (Hst : raw_statusCode abstractRequest < 400) by (cbn; lia).
  assert (Hne : proxiedAbstract <> "") by discriminate.
  destruct (stored_request_headers_reach_the_decision campus abstractRequest fromSearch
              proxiedAbstract (campus_ignores_nothing _) Hst eq_refl Hne) as [Ha Hb].
  change (raw_requestID abstractRequest) with "7" in Ha, Hb.
  split.
  - rewrite Ha by (vm_compute; reflexivity). vm_compute. reflexivity.
  - rewrite Hb by (vm_compute; reflexivity). vm_compute. reflexivity.
Defined.

(** X4: when [_reqIDToHeaders] has no property by the name of the request
    ID, of its own or inherited, [observe] throws a [TypeError] where it
    would decide about the redirect to the proxied URL of a known host
    that [url.parse] accepts. *)
Theorem observe_throws_without_request_headers (st : Proxies.t) (d : RawDetails)
        (proxied : string) (proxiedURI : Url.t) :
  raw_url d ∉ Proxies._ignoreURLs st -> raw_statusCode d < 400 ->
  Proxies.disabledByDomain st = false ->
  Proxies.requestHeaders_of st (raw_requestID d) = None ->
  Proxies.properToProxy (registry_after st d) (raw_url d) true = Return (Some proxied) ->
  proxied <> "" ->
  Url.parse proxied = Return proxiedURI ->
  answer st d = Throw "TypeError".
Proof.
  intros Hign Hstatus Hdis Hnone Hp Hne Hparse.
  rewrite (observe_decides st d proxied) by assumption.
  unfold Proxies._maybeRedirect, with_request_headers. rewrite Hparse, Hnone. reflexivity.
Qed.

Lemma observe_throws_without_request_headers_witness :
  Proxies.requestHeaders_of campus "7" = None
  /\ answer campus abstractRequest = Throw "TypeError".
Proof.
  assert (H : Proxies.requestHeaders_of campus "7" = None) by (vm_compute; reflexivity).
  split; [exact H|].
  destruct (Url.parse proxiedAbstract) as [proxiedURI|e] eqn:Hparse;
    [|vm_compute in Hparse; discriminate Hparse].
  apply (observe_throws_without_request_headers campus abstractRequest proxiedAbstract
           proxiedURI).
  - apply campus_ignores_nothing.
  - cbn. lia.
  - vm_compute. reflexivity.
  - exact H.
  - vm_compute. reflexivity.
  - discriminate.
  - exact Hparse.
Defined.

(** ** What [observe] leaves in the registry *)

(** X5: [observe] keeps the host index consistent: when every host of a
    registered proxy is indexed to it and every entry points to a
    registered proxy that lists its host, the same holds afterwards. *)
Theorem observe_keeps_host_index (st : Proxies.t) (d : RawDetails) :
  covers st -> sound st ->
  covers (registry_after st d) /\ sound (registry_after st d).
Proof.
  intros Hc Hs.
  destruct (observe_registry st d) as [-> | (id & proxy & m & Hm & _ & ->)]; [tauto|].
  apply first_match_Some in Hm. destruct Hm as (Hin & Hheap & _).
  apply associate_invariant; assumption.
Qed.

Lemma observe_keeps_host_index_witness :
  covers (registry_after campus archiveRequest) /\ sound (registry_after campus archiveRequest).
Proof.
  destruct campus_consistent as [Hc Hs].
  apply (observe_keeps_host_index campus archiveRequest Hc Hs).
Defined.

Lemma option_eq_Some {A : Type} (a b : option A) :
  (forall x, a = Some x <-> b = Some x) -> a = b.
Proof.
  intros H. destruct a as [x|].
  - symmetry. apply H. reflexivity.
  - destruct b as [y|]; [|reflexivity]. apply H. reflexivity.
Qed.

Lemma associate_registry (st : Proxies.t) (id : nat) (proxy : Proxy.t)
      (m : list (option string)) (status : Z) :
  covers st -> sound st ->
  id ∈ Proxies.proxies st -> Proxies.heap st !! id = Some proxy ->
  let st' := Observer.associate st id proxy m status in
  Proxies.proxies st' = Proxies.proxies st
  /\ (Proxies.hosts st' = Proxies.hosts st
      \/ exists host,
           host = JS.str_undefined (Proxy.captured proxy m "%h")
           /\ Proxy.autoAssociate proxy = true
           /\ Proxies.hosts st !! host = None
           /\ Proxies._isBlacklisted host = false
           /\ Proxies.hosts st' = <[host := id]> (Proxies.hosts st)).
Proof.
  intros Hc Hs Hin Hheap. cbv zeta. unfold Observer.associate.
  set (host := JS.str_undefined (Proxy.captured proxy m "%h")).
  destruct (Proxy.autoAssociate proxy) eqn:Hauto; cbn [andb]; [|tauto].
  destruct (status <? 400); cbn [andb]; [|tauto].
  destruct (bool_decide (is_Some (Proxies.hosts st !! host))) eqn:Hix; cbn [negb andb]; [tauto|].
  apply bool_decide_eq_false in Hix. rewrite <- eq_None_not_Some in Hix.
  destruct (JS.strings_indexOf (Proxy.hosts proxy) host =? -1) eqn:Hlist; cbn [andb]; [|tauto].
  apply Z.eqb_eq in Hlist.
  destruct (Proxies._isBlacklisted host) eqn:Hblack; cbn [negb]; [tauto|].
  destruct (push_host_fields st id proxy host Hheap) as (Hps & Hhs & (proxy' & Hheap' & Hhosts') & _).
  destruct (save_proxies_in _ _ _ Hheap') as (_ & _ & Hback).
  split.
  - destruct (save_fields _ _ _ Hheap') as (_ & _ & _ & Hp & _). rewrite Hp, Hps.
    replace (existsb (Nat.eqb id) (Proxies.proxies st)) with true; [reflexivity|].
    symmetry. apply existsb_exists. exists id. split; [|apply Nat.eqb_refl].
    apply list_elem_of_In. exact Hin.
  - right. exists host. split; [reflexivity|]. split; [reflexivity|].
    split; [exact Hix|]. split; [exact Hblack|].
    apply map_eq. intros h.
    destruct (decide (h ∈ Proxy.hosts proxy')) as [Hh | Hh].
    + rewrite (save_indexes_hosts _ _ _ _ Hheap' Hh).
      rewrite Hhosts' in Hh. apply elem_of_app in Hh. destruct Hh as [Hh | Hh].
      * rewrite lookup_insert_ne.
        { symmetry. apply (Hc id proxy h Hin Hheap Hh). }
        intros ->. rewrite (Hc id proxy h Hin Hheap Hh) in Hix. discriminate.
      * apply list_elem_of_singleton in Hh. subst h. rewrite lookup_insert_eq. reflexivity.
    + assert (Hne : h <> host).
      { intros ->. apply Hh. rewrite Hhosts'. apply elem_of_app. right.
        apply list_elem_of_singleton. reflexivity. }
      rewrite lookup_insert_ne by (intros E; apply Hne; symmetry; exact E).
      apply option_eq_Some. intros id'.
      rewrite (save_other_entry _ _ _ h id' Hheap' Hh). rewrite Hhs.
      split; [tauto|]. intros Hl. split; [exact Hl|].
      intros ->. destruct (Hs _ _ Hl) as (_ & p & Hp & Hhp).
      rewrite Hheap in Hp. injection Hp as <-.
      apply Hh. rewrite Hhosts'. apply elem_of_app. left. exact Hhp.
Qed.

(** X6: on a consistent host index [observe] registers no proxy and
    changes no entry; it adds at most one, for a host that had none and
    is not blacklisted. *)
Theorem observe_adds_at_most_one_host (st : Proxies.t) (d : RawDetails) :
  covers st -> sound st ->
  Proxies.proxies (registry_after st d) = Proxies.proxies st
  /\ (Proxies.hosts (registry_after st d) = Proxies.hosts st
      \/ exists host id,
           id ∈ Proxies.proxies st
           /\ Proxies.hosts st !! host = None
           /\ Proxies._isBlacklisted host = false
           /\ Proxies.hosts (registry_after st d) = <[host := id]> (Proxies.hosts st)).
Proof.
  intros Hc Hs.
  destruct (observe_registry st d) as [-> | (id & proxy & m & Hm & _ & ->)]; [tauto|].
  apply first_match_Some in Hm. destruct Hm as (Hin & Hheap & _).
  destruct (associate_registry st id proxy m (raw_statusCode d) Hc Hs Hin Hheap)
    as (Hp & [Hh | (host & _ & _ & Hnone & Hblack & Hh)]).
  - tauto.
  - split; [exact Hp|]. right. exists host, id. tauto.
Qed.

Lemma observe_adds_at_most_one_host_witness :
  Proxies.proxies (registry_after campus archiveRequest) = Proxies.proxies campus.
Proof.
  destruct campus_consistent as [Hc Hs].
  apply (proj1 (observe_adds_at_most_one_host campus archiveRequest Hc Hs)).
Defined.

(** X7: a redirect that [observe] returns goes to the proxied form of the
    requested URL that [properToProxy] gives, for a request that is not
    ignored, has no error status and is not disabled by domain, and the
    hostnames of the request and of the target do not end in the same two
    labels. *)
Theorem observe_redirects_to_the_proxied_url (st : Proxies.t) (d : RawDetails) (target : string) :
  answer st d = Return (Some target) ->
  (raw_url d ∉ Proxies._ignoreURLs st)
  /\ raw_statusCode d < 400
  /\ Proxies.disabledByDomain st = false
  /\ Proxies.properToProxy (registry_after st d) (raw_url d) true = Return (Some target)
  /\ exists hostname1 hostname2 a b,
       hostname_of (raw_url d) hostname1 /\ hostname_of target hostname2
       /\ Proxies.top2 hostname1 = Some a
       /\ Proxies.top2 hostname2 = Some b
       /\ a <> b.
Proof.
  intros Hans.
  destruct (decide (raw_url d ∈ Proxies._ignoreURLs st)) as [Hign | Hign].
  { unfold answer in Hans. rewrite observe_skips in Hans by (left; exact Hign).
    discriminate. }
  destruct (Z_lt_le_dec (raw_statusCode d) 400) as [Hstatus | Hstatus].
  2:{ unfold answer in Hans. rewrite observe_skips in Hans by (right; exact Hstatus).
      discriminate. }
  destruct (Proxies.disabledByDomain st) eqn:Hdis.
  { destruct (observe_disabled st d Hdis) as [H | (e & _ & H)];
      rewrite H in Hans; discriminate. }
  rewrite observe_answer in Hans by assumption.
  destruct (Proxies.properToProxy _ _ _) as [proxied|e] eqn:Hp; [|discriminate].
  destruct proxied as [proxied|]; [|discriminate].
  destruct (negb (JS.truthy (Some proxied))); [discriminate|]. cbn [Url.or_empty] in Hans.
  destruct (maybeRedirect_cases (registry_after st d)
              (Observer.processed (registry_after st d) d) proxied)
    as [Hno | (h1 & h2 & a & b & H1 & H2 & Ha & Hb & Hab & Hred)].
  - unfold decide_redirect in Hno. rewrite Hans in Hno. discriminate.
  - unfold decide_redirect in Hred. rewrite Hans in Hred. cbn in Hred.
    injection Hred as ->. repeat split; try assumption.
    exists h1, h2, a, b. repeat split; assumption.
Qed.

Lemma observe_redirects_to_the_proxied_url_witness :
  answer (Proxies.storeRequestHeaders campus "7" fromSearch) abstractRequest
  = Return (Some proxiedAbstract)
  /\ Proxies.properToProxy
       (registry_after (Proxies.storeRequestHeaders campus "7" fromSearch) abstractRequest)
       (raw_url abstractRequest) true
     = Return (Some proxiedAbstract).
Proof.
  assert (H : answer (Proxies.storeRequestHeaders campus "7" fromSearch) abstractRequest
              = Return (Some proxiedAbstract)) by (vm_compute; reflexivity).
  split; [exact H|].
  apply (observe_redirects_to_the_proxied_url _ _ _ H).
Defined.

(** ** More guards of the redirect decision *)

Lemma truthy_nonempty (s : string) : s <> "" -> JS.truthy (Some s) = true.
Proof.
  intros H. cbn. apply negb_true_iff. apply String.eqb_neq. exact H.
Qed.

(** X8: when the referrer of the request is itself a URL of a host with a
    proxy, [_maybeRedirect] redirects nothing: it returns without a
    redirect when [url.parse] accepts the candidate target, and is aborted
    by the exception of [url.parse] otherwise. *)
Theorem maybeRedirect_skips_proxiable_referrer (st : Proxies.t) (details : Details)
        (proxied : string) (headers : gmap string string) (referer viaProxy : string) :
  requestHeaders details = Some headers -> headers !! "referer" = Some referer ->
  referer <> "" ->
  Proxies.properToProxy st referer true = Return (Some viaProxy) -> viaProxy <> "" ->
  decide_redirect st details proxied = NoRedirect
  /\ (forall proxiedURI,
        Url.parse proxied = Return proxiedURI ->
        Proxies._maybeRedirect st details proxied = Return None)
  /\ (forall e,
        Url.parse proxied = Throw e -> Proxies._maybeRedirect st details proxied = Throw e).
Proof.
  intros Hh Hr Hne Hp Hne'.
  assert (Hparsed : forall proxiedURI,
             Url.parse proxied = Return proxiedURI ->
             Proxies._maybeRedirect st details proxied = Return None).
  { intros proxiedURI Hparse. unfold Proxies._maybeRedirect.
    rewrite Hparse. cbn [bind].
    rewrite Hh, Hr. rewrite (truthy_nonempty _ Hne). cbn [Url.or_empty].
    rewrite Hp. cbn [bind]. rewrite (truthy_nonempty _ Hne'). reflexivity. }
  assert (Hthrown : forall e,
             Url.parse proxied = Throw e ->
             Proxies._maybeRedirect st details proxied = Throw e).
  { intros e Hparse. unfold Proxies._maybeRedirect. rewrite Hparse. reflexivity. }
  split; [|split; assumption].
  unfold decide_redirect. destruct (Url.parse proxied) as [proxiedURI|e] eqn:Hparse.
  - rewrite (Hparsed proxiedURI eq_refl). reflexivity.
  - rewrite (Hthrown e eq_refl). reflexivity.
Qed.

Lemma maybeRedirect_skips_proxiable_referrer_witness :
  Proxies.properToProxy campus "http://journal.example.org/toc" true
  = Return (Some "https://journal.example.org.proxy.example.com/toc")
  /\ decide_redirect campus fromJournalPage proxiedAbstract = NoRedirect.
Proof.
  assert (H : Proxies.properToProxy campus "http://journal.example.org/toc" true
              = Return (Some "https://journal.example.org.proxy.example.com/toc"))
    by (vm_compute; reflexivity).
  split; [exact H|].
  apply (maybeRedirect_skips_proxiable_referrer campus fromJournalPage proxiedAbstract
           {[ "referer" := "http://journal.example.org/toc" ]}
           "http://journal.example.org/toc"
           "https://journal.example.org.proxy.example.com/toc");
    [reflexivity | vm_compute; reflexivity | discriminate | exact H | discriminate].
Defined.

Lemma proxyToProper_truthy (st : Proxies.t) (URL proper : string) :
  Proxies.proxyToProper st URL true = Some proper ->
  JS.truthy (Proxies.proxyToProper st URL true) = true.
Proof.
  unfold Proxies.proxyToProper.
  destruct (Proxies.first_match _ _ _ _) as [[[id proxy] m]|]; [|discriminate].
  intros _. apply toProper_truthy.
Qed.

(** X9: when the origin URL of the request is matched by a registered
    proxy, or has the hostname of the candidate target, the decision is
    [NoRedirect]. *)
Theorem maybeRedirect_skips_proxied_origin (st : Proxies.t) (details : Details)
        (proxied origin : string) :
  originUrl details = Some origin -> origin <> "" ->
  (exists proper, Proxies.proxyToProper st origin true = Some proper)
  \/ (exists hostname, hostname_of origin hostname /\ hostname_of proxied hostname) ->
  decide_redirect st details proxied = NoRedirect.
Proof.
  intros Ho Hne Hguard. unfold decide_redirect, Proxies._maybeRedirect.
  destruct (Url.parse proxied) as [proxiedURI|e] eqn:Hparse; [|reflexivity]. cbn [bind].
  destruct (requestHeaders details) as [headers|]; [|reflexivity].
  destruct (if JS.truthy (headers !! "referer") then _ else Return false) as [[|]|e];
    cbn [bind verdict_of]; try reflexivity.
  rewrite Ho. rewrite (truthy_nonempty _ Hne). cbn [Url.or_empty].
  destruct Hguard as [(proper & Hp) | (hostname & (o & Ho1 & Ho2) & (p & Hp1 & Hp2))].
  - rewrite (proxyToProper_truthy _ _ _ Hp). reflexivity.
  - rewrite Hparse in Hp1. injection Hp1 as <-.
    destruct (JS.truthy _); [reflexivity|].
    rewrite Ho1. cbn [bind]. rewrite Ho2, Hp2, loose_eq_refl. reflexivity.
Qed.

Lemma maybeRedirect_skips_proxied_origin_witness :
  Proxies.proxyToProper campus "https://journal.example.org.proxy.example.com/toc" true
  = Some "http://journal.example.org/toc"
  /\ decide_redirect campus fromProxiedOrigin
       "https://cdn.example.net.proxy.example.com/style.css" = NoRedirect.
Proof.
  assert (H : Proxies.proxyToProper campus "https://journal.example.org.proxy.example.com/toc"
                true = Some "http://journal.example.org/toc") by (vm_compute; reflexivity).
  split; [exact H|].
  apply (maybeRedirect_skips_proxied_origin campus fromProxiedOrigin _
           "https://journal.example.org.proxy.example.com/toc");
    [reflexivity | discriminate |].
  left. exists "http://journal.example.org/toc". exact H.
Defined.

(** ** The host blacklist in terms of the host's text *)

Lemma strip_empty (p s : string) : strip p s = Some "" <-> s = p.
Proof.
  split.
  - intros H. apply strip_Some in H. rewrite append_empty_r in H. exact H.
  - intros ->. rewrite <- (append_empty_r p) at 2. apply strip_append.
Qed.

Lemma rmatch_suffix_here (p s : string) (i : nat) :
  rmatch false (suffix_regex p) i s nil (fun j _ cs => Some (j, cs))
  = if String.eqb s p then Some ((i + String.length p)%nat, nil) else None.
Proof.
  unfold suffix_regex. rewrite rmatch_chars.
  destruct (String.eqb s p) eqn:E.
  - apply String.eqb_eq in E. apply strip_empty in E. rewrite E. reflexivity.
  - destruct (strip p s) as [t|] eqn:Hs; [|reflexivity].
    destruct t as [|c t]; [|reflexivity].
    apply strip_empty in Hs. apply String.eqb_neq in E. contradiction.
Qed.

Lemma test_suffix_from (p s : string) (i : nat) :
  match search false (suffix_regex p) i s with Some _ => true | None => false end
  = ends_with p s.
Proof.
  revert i. induction s as [|c s IH]; intros i.
  - cbn [search ends_with]. rewrite rmatch_suffix_here.
    destruct (String.eqb "" p); reflexivity.
  - cbn [search ends_with]. rewrite rmatch_suffix_here.
    destruct (String.eqb (String c s) p); [reflexivity|]. cbn [orb]. apply IH.
Qed.

Lemma test_suffix (p host : string) : test false (suffix_regex p) host = ends_with p host.
Proof. apply test_suffix_from. Qed.

Lemma test_literal (p host : string) :
  test false (literal_regex p) host = String.eqb host p.
Proof.
  pose proof (exec_literal p host) as H. unfold exec in H. unfold test.
  destruct (search false (literal_regex p) 0 host) as [[[i j] cs]|];
    destruct (String.eqb host p); congruence.
Qed.

Lemma test_no_dot (host : string) :
  test false (Seq Bol (Seq (Star true (Cls true [("."%char, "."%char)])) (Seq Eol Eps))) host
  = all_chars not_dot host.
Proof.
  unfold test. rewrite search_anchored. cbn [rmatch].
  destruct (all_chars not_dot host) eqn:Hall.
  - rewrite (star_loop_greedy_end (cls_mem false true [("."%char, "."%char)]) _ _ host
               ((0 + String.length host)%nat, nil)); [reflexivity| | | |].
    + intros; reflexivity.
    + apply (all_chars_impl not_dot); [|exact Hall]. intros c Hc. rewrite cls_not_dot. exact Hc.
    + lia.
    + reflexivity.
  - rewrite (star_loop_fails (cls_mem false true [("."%char, "."%char)])
               (fun t => all_chars not_dot t = false)); [reflexivity| | | |].
    + intros; reflexivity.
    + intros c t Hc Ht. rewrite cls_not_dot in Hc. cbn in Ht. rewrite Hc in Ht. exact Ht.
    + intros j t cs Ht. destruct t; [discriminate | reflexivity].
    + exact Hall.
Qed.

(** X10: a host is blacklisted exactly when it ends with [edu],
    [google.com], [wikipedia.org] or [doubleclick.net], or has no dot, and
    is neither [scholar.google.com] nor [muse.jhu.edu]. *)
Theorem isBlacklisted_by_text (host : string) : Proxies._isBlacklisted host = blacklisted host.
Proof.
  unfold Proxies._isBlacklisted.
  change Proxies.hostBlacklist
    with [suffix_regex "edu"; suffix_regex "google.com"; suffix_regex "wikipedia.org";
          Seq Bol (Seq (Star true (Cls true [("."%char, "."%char)])) (Seq Eol Eps));
          suffix_regex "doubleclick.net"].
  cbn [Proxies.blacklisted_by].
  change Proxies.hostWhitelist
    with [literal_regex "scholar.google.com"; literal_regex "muse.jhu.edu"].
  cbn [existsb]. rewrite !test_suffix, !test_literal, test_no_dot. unfold blacklisted.
  destruct (ends_with "edu" host), (ends_with "google.com" host),
    (ends_with "wikipedia.org" host), (all_chars not_dot host),
    (ends_with "doubleclick.net" host),
    (String.eqb host "scholar.google.com"), (String.eqb host "muse.jhu.edu"); reflexivity.
Qed.

(** ** The placeholders that [compileRegexp] records *)

Lemma indexOf_ge (s pat : string) (from : Z) : -1 <= JS.indexOf s pat from.
Proof. unfold JS.indexOf. destruct (JS.find _ _ _); lia. Qed.

Lemma unescape_index_ge (fuel : nat) (scheme param : string) (index : Z) :
  -1 <= index -> -1 <= snd (Proxy.unescape fuel scheme param index).
Proof.
  revert scheme index. induction fuel as [|fuel IH]; intros scheme index Hi; [exact Hi|].
  cbn [Proxy.unescape]. destruct (JS.charAt scheme (index - 1)) as [c|]; [|exact Hi].
  destruct (Ascii.eqb c "%"); [|exact Hi]. apply IH. apply indexOf_ge.
Qed.

Lemma check_parameter_recorded (acc : string * gmap string Z * list string) (param : string) :
  recorded acc -> recorded (Proxy.check_parameter acc param).
Proof.
  destruct acc as [[scheme indices] found]. intros [Hin Hpos]. unfold Proxy.check_parameter.
  pose proof (unescape_index_ge (String.length scheme) scheme param
                (JS.indexOf scheme param 0) (indexOf_ge _ _ _)) as Hge.
  destruct (Proxy.unescape _ _ _ _) as [scheme' index]. cbn [snd] in Hge.
  destruct (index =? -1) eqn:E; [split; assumption|]. apply Z.eqb_neq in E.
  split; cbn [fst snd] in *.
  - intros p. rewrite elem_of_app, list_elem_of_singleton, Hin.
    destruct (decide (p = param)) as [-> | Hne].
    + rewrite lookup_insert_eq. split; [eauto | tauto].
    + rewrite lookup_insert_ne by congruence. tauto.
  - intros p i. destruct (decide (p = param)) as [-> | Hne].
    + rewrite lookup_insert_eq. intros [= <-]. lia.
    + rewrite lookup_insert_ne by congruence. apply Hpos.
Qed.

Lemma check_parameters_recorded (params : list string)
      (acc : string * gmap string Z * list string) :
  recorded acc -> recorded (fold_left Proxy.check_parameter params acc).
Proof.
  revert acc. induction params as [|param params IH]; intros acc H; [exact H|].
  cbn [fold_left]. apply IH. apply check_parameter_recorded. exact H.
Qed.

Lemma insert_by_perm (cmp : string -> string -> Z) (x : string) (l : list string) :
  Proxy.insert_by cmp x l ≡ₚ x :: l.
Proof.
  induction l as [|y l IH]; [reflexivity|]. cbn [Proxy.insert_by].
  destruct (cmp x y <=? 0); [reflexivity|]. rewrite IH. apply Permutation_swap.
Qed.

Lemma sort_by_perm (cmp : string -> string -> Z) (l : list string) :
  Proxy.sort_by cmp l ≡ₚ l.
Proof.
  induction l as [|x l IH]; [reflexivity|]. unfold Proxy.sort_by in *. cbn [fold_right].
  rewrite insert_by_perm, IH. reflexivity.
Qed.

Lemma insert_by_ascending (ix : string -> Z) (x : string) (l : list string) :
  ascending ix l = true ->
  ascending ix (Proxy.insert_by (fun a b => ix a - ix b) x l) = true.
Proof.
  induction l as [|y l IH]; [reflexivity|]. intros Hl. cbn [Proxy.insert_by].
  destruct (ix x - ix y <=? 0) eqn:E.
  - cbn [ascending]. apply andb_true_iff. split; [apply Z.leb_le; lia | exact Hl].
  - apply Z.leb_gt in E. destruct l as [|z l].
    + cbn. apply andb_true_iff. split; [apply Z.leb_le; lia | reflexivity].
    + cbn [ascending] in Hl. apply andb_true_iff in Hl. destruct Hl as [Hyz Hl].
      specialize (IH Hl). cbn [Proxy.insert_by] in IH |- *.
      destruct (ix x - ix z <=? 0).
      * cbn [ascending]. apply andb_true_iff. split; [apply Z.leb_le; lia | exact IH].
      * cbn [ascending]. apply andb_true_iff. split; [exact Hyz | exact IH].
Qed.

Lemma sort_by_ascending (ix : string -> Z) (l : list string) :
  ascending ix (Proxy.sort_by (fun a b => ix a - ix b) l) = true.
Proof.
  induction l as [|x l IH]; [reflexivity|]. unfold Proxy.sort_by in *. cbn [fold_right].
  apply insert_by_ascending. exact IH.
Qed.

(** X11: after [compileRegexp], whatever the scheme and the parameter
    table, the placeholders of [parameters] are those with an entry in
    [indices], no recorded position is negative, and [parameters] is in
    the order of the recorded positions. *)
Theorem compileRegexp_sorts_parameters (schemeParameters : list (string * string))
        (this : Proxy.t) :
  let compiled := snd (Proxy.compileRegexp schemeParameters this) in
  (forall param,
     param ∈ Proxy.parameters compiled <-> is_Some (Proxy.indices compiled !! param))
  /\ (forall param i, Proxy.indices compiled !! param = Some i -> 0 <= i)
  /\ ascending (Proxy.index_of (Proxy.indices compiled)) (Proxy.parameters compiled) = true.
Proof.
  cbv zeta. unfold Proxy.compileRegexp.
  set (keys := map fst (if Proxy.multiHost this then _ else _)).
  assert (H0 : recorded (Proxy.scheme this, ∅, nil)).
  { split.
    - intros p. cbn. rewrite lookup_empty. split; [intros H; inversion H | intros [x H]; discriminate].
    - intros p i. cbn. rewrite lookup_empty. discriminate. }
  pose proof (check_parameters_recorded keys _ H0) as H.
  destruct (fold_left Proxy.check_parameter keys (Proxy.scheme this, ∅, nil))
    as [[scheme' indices'] found].
  destruct H as [Hin Hpos]. cbn [fst snd Proxy.parameters Proxy.indices] in *.
  split; [|split].
  - intros p. rewrite <- Hin. rewrite sort_by_perm. reflexivity.
  - exact Hpos.
  - apply sort_by_ascending.
Qed.

(** ** Strings and positions *)

Lemma substr_take (s : string) (n : nat) : JS.substr s 0 (Z.of_nat n) = JS.take n s.
Proof.
  unfold JS.substr, JS.substr_from. cbn [Z.ltb Z.compare Z.to_nat JS.drop].
  destruct n as [|n]; [reflexivity|].
  replace (Z.of_nat (S n) <=? 0) with false by (symmetry; apply Z.leb_gt; lia).
  rewrite Nat2Z.id. reflexivity.
Qed.

Lemma substr_from_drop (s : string) (n : nat) : JS.substr_from s (Z.of_nat n) = JS.drop n s.
Proof.
  unfold JS.substr_from.
  replace (Z.of_nat n <? 0) with false by (symmetry; apply Z.ltb_ge; lia).
  rewrite Nat2Z.id. reflexivity.
Qed.

Lemma drop_all (s : string) : JS.drop (String.length s) s = "".
Proof. induction s as [|c s IH]; [reflexivity | exact IH]. Qed.

Lemma drop_past (n : nat) : JS.drop n "" = "".
Proof. destruct n; reflexivity. Qed.

(** A placeholder in front of the first [%] of a string: it is found
    there, or behind it. *)
Lemma find_skip (q x : ascii) (a rest : string) (i : nat) :
  all_chars not_percent a = true -> not_percent x = true ->
  JS.find (String "%" (String q "")) (a +:+ String "%" (String x rest)) i
  = if Ascii.eqb q x then Some (i + String.length a)%nat
    else JS.find (String "%" (String q "")) rest (i + String.length a + 2)%nat.
Proof.
  revert i. induction a as [|c a IH]; intros i Ha Hx; unfold_append.
  - cbn [JS.find JS.prefix String.length]. rewrite Ascii.eqb_refl. cbn [andb].
    rewrite andb_true_r, Nat.add_0_r.
    destruct (Ascii.eqb q x); [reflexivity|].
    unfold not_percent in Hx. rewrite (Ascii.eqb_sym "%" x).
    destruct (Ascii.eqb x "%"); [discriminate|]. cbn [andb].
    replace (i + 2)%nat with (S (S i)) by lia. reflexivity.
  - simpl in Ha. apply andb_prop in Ha as [Hc Ha].
    cbn [JS.find]. rewrite (prefix_percent_false q c _ Hc).
    rewrite (IH (S i) Ha Hx). cbn [String.length].
    replace (S i + String.length a)%nat with (i + S (String.length a))%nat by lia.
    reflexivity.
Qed.

Lemma indexOf_0 (s pat : string) :
  JS.indexOf s pat 0 = match JS.find pat s 0 with Some i => Z.of_nat i | None => -1 end.
Proof. reflexivity. Qed.

(** The loop that skips escaped occurrences stops at an occurrence that
    no [%] precedes. *)
Lemma unescape_stops (fuel : nat) (scheme param : string) (index : Z) :
  (forall c, JS.charAt scheme (index - 1) = Some c -> Ascii.eqb c "%" = false) ->
  Proxy.unescape fuel scheme param index = (scheme, index).
Proof.
  intros H. destruct fuel as [|fuel]; [reflexivity|]. cbn [Proxy.unescape].
  destruct (JS.charAt scheme (index - 1)) as [c|]; [|reflexivity].
  rewrite (H c eq_refl). reflexivity.
Qed.

Lemma charAt_before_end (a b : string) (c : ascii) :
  all_chars not_percent (String c a) = true ->
  forall x, JS.charAt (String c a +:+ b) (Z.of_nat (String.length (String c a)) - 1) = Some x ->
            Ascii.eqb x "%" = false.
Proof.
  intros Hall x. unfold JS.charAt.
  replace (Z.of_nat (String.length (String c a)) - 1 <? 0) with false
    by (symmetry; apply Z.ltb_ge; cbn [String.length]; lia).
  intros Hget. rewrite <- append_correct1 in Hget by (cbn [String.length]; lia).
  pose proof (all_chars_get _ _ _ _ Hall Hget) as Hx. unfold not_percent in Hx.
  destruct (Ascii.eqb x "%"); [discriminate | reflexivity].
Qed.

(** ** The escaped placeholder *)

Lemma find_escaped (q : ascii) (pre : string) (i : nat) :
  all_chars not_percent pre = true -> not_percent q = true ->
  JS.find (String "%" (String q "")) (pre +:+ "%%p") i
  = if Ascii.eqb q "p" then Some (i + String.length pre + 1)%nat else None.
Proof.
  revert i. induction pre as [|c pre IH]; intros i Hpre Hq; unfold_append.
  - cbn [JS.find JS.prefix String.length]. rewrite Nat.add_0_r.
    unfold not_percent in Hq. rewrite Ascii.eqb_refl.
    destruct (Ascii.eqb q "%"); [discriminate|]. cbn [andb].
    rewrite andb_true_r.
    destruct (Ascii.eqb q "p"); [replace (i + 1)%nat with (S i) by lia; reflexivity|].
    cbn [andb]. reflexivity.
  - simpl in Hpre. apply andb_prop in Hpre as [Hc Hpre].
    cbn [JS.find]. rewrite (prefix_percent_false q c _ Hc).
    rewrite (IH (S i) Hpre Hq). cbn [String.length].
    replace (S i + String.length pre + 1)%nat with (i + S (String.length pre) + 1)%nat by lia.
    reflexivity.
Qed.

Lemma check_parameter_escaped (pre : string) (indices : gmap string Z) (found : list string) :
  all_chars not_percent pre = true ->
  Proxy.check_parameter (pre +:+ "%%p", indices, found) "%p"
  = (pre +:+ "%p", indices, found).
Proof.
  intros Hpre. unfold Proxy.check_parameter.
  rewrite indexOf_0, (find_escaped "p" pre 0 Hpre eq_refl). cbn [Ascii.eqb Bool.eqb].
  rewrite length_append. cbn [String.length].
  replace (String.length pre + 3)%nat with (S (String.length pre + 2)) by lia.
  cbn [Proxy.unescape].
  replace (Z.of_nat (0 + String.length pre + 1) - 1) with (Z.of_nat (String.length pre)) by lia.
  unfold JS.charAt at 1.
  replace (Z.of_nat (String.length pre) <? 0) with false by (symmetry; apply Z.ltb_ge; lia).
  rewrite Nat2Z.id.
  pose proof (append_correct2 pre "%%p" 0) as Hget. cbn [Nat.add String.get] in Hget.
  rewrite <- Hget. clear Hget. cbn [Ascii.eqb Bool.eqb].
  rewrite substr_take, take_append.
  replace (Z.of_nat (0 + String.length pre + 1)) with (Z.of_nat (String.length pre + 1)) by lia.
  rewrite substr_from_drop, drop_add, drop_append. cbn [JS.drop].
  unfold JS.indexOf.
  replace (Z.to_nat (Z.max 0 (Z.of_nat (String.length pre + 1) + 1)))
    with (String.length pre + 2)%nat by lia.
  rewrite length_append. cbn [String.length]. rewrite Nat.min_id.
  rewrite drop_add, drop_append. cbn [JS.drop JS.find JS.prefix].
  rewrite unescape_absent. reflexivity.
Qed.

Lemma check_escaped (sp : list (string * string)) (pre : string) :
  declared_table sp -> all_chars not_percent pre = true ->
  fold_left Proxy.check_parameter (map fst sp) (pre +:+ "%%p", ∅, nil)
  = (pre +:+ "%p", ∅, nil).
Proof.
  intros [-> | ->] Hpre; cbn [map fst fold_left Proxy.Zotero_Proxy_schemeParameters
                              Proxy.prop_set String.eqb Ascii.eqb Bool.eqb];
    rewrite (check_parameter_escaped pre _ _ Hpre);
    rewrite !(check_parameter_other _ pre _ _ Hpre) by reflexivity;
    reflexivity.
Qed.

Lemma compileRegexp_escaped (sp : list (string * string)) (pre : string)
      (hs : list string) (auto : bool) :
  declared_table sp -> all_chars not_percent pre = true ->
  snd (Proxy.compileRegexp sp (escapedProxy pre hs auto))
  = Proxy.Make hs false auto (pre +:+ "%p") (Some (literal_regex (pre +:+ "%p"))) nil ∅.
Proof.
  intros Hsp Hpre. unfold Proxy.compileRegexp, escapedProxy.
  cbn [Proxy.multiHost Proxy.scheme Proxy.hosts Proxy.autoAssociate].
  rewrite (check_escaped sp pre Hsp Hpre).
  cbn [Proxy.sort_by fold_right snd]. unfold Proxy.pattern. cbn [rev fold_left].
  rewrite parse_literal. reflexivity.
Qed.

(** X12: a scheme that ends with the escaped sequence [%%p], and has no
    other [%], compiles to the scheme with one [%] removed, without any
    placeholder: the matcher accepts the scheme text [pre%p] and nothing
    else, and [toProxy] returns that text for every URL. *)
Theorem compileRegexp_escaped_placeholder (sp : list (string * string)) (pre : string)
        (hs : list string) (auto : bool) :
  declared_table sp -> all_chars not_percent pre = true ->
  let compiled := snd (Proxy.compileRegexp sp (escapedProxy pre hs auto)) in
  Proxy.scheme compiled = pre +:+ "%p"
  /\ Proxy.parameters compiled = nil
  /\ (exists r,
        Proxy.regexp compiled = Some r
        /\ forall URL,
             exec false r URL
             = if String.eqb URL (pre +:+ "%p") then Some [Some URL] else None)
  /\ (forall uri, Proxy.toProxy compiled uri = Return (pre +:+ "%p")).
Proof.
  intros Hsp Hpre. cbv zeta. rewrite (compileRegexp_escaped sp pre hs auto Hsp Hpre).
  split; [reflexivity|]. split; [reflexivity|]. split.
  - exists (literal_regex (pre +:+ "%p")). split; [reflexivity|].
    intros URL. apply exec_literal.
  - intros uri. reflexivity.
Qed.

Lemma compileRegexp_escaped_placeholder_witness :
  all_chars not_percent "https://proxy.example.com/" = true
  /\ Proxy.scheme
       (snd (Proxy.compileRegexp Proxy.Zotero_Proxy_schemeParameters
               (escapedProxy "https://proxy.example.com/" ["journal.example.org"] false)))
     = "https://proxy.example.com/%p".
Proof.
  assert (H : all_chars not_percent "https://proxy.example.com/" = true)
    by (vm_compute; reflexivity).
  split; [exact H|].
  apply (compileRegexp_escaped_placeholder Proxy.Zotero_Proxy_schemeParameters
           "https://proxy.example.com/" ["journal.example.org"] false); [now left | exact H].
Defined.

(** X13: the escape does not survive a save and a load: the stored form
    of the compiled proxy has the scheme [pre%p], which [loadFromJSON]
    compiles with the placeholder [%p], to a matcher that accepts [pre]
    followed by any path. *)
Theorem escaped_placeholder_lost_on_reload (sp sp' : list (string * string)) (pre : string)
        (hs : list string) (auto : bool) :
  declared_table sp -> declared_table sp' -> all_chars not_percent pre = true ->
  let compiled := snd (Proxy.compileRegexp sp (escapedProxy pre hs auto)) in
  let reloaded := snd (Proxy.loadFromJSON sp' (Proxy.toJSON compiled)) in
  Proxy.parameters compiled = nil
  /\ Proxy.parameters reloaded = ["%p"]
  /\ exists r,
       Proxy.regexp reloaded = Some r
       /\ forall u, no_line_break u = true ->
                    exec false r (pre +:+ u) = Some [Some (pre +:+ u); Some u].
Proof.
  intros Hsp Hsp' Hpre. cbv zeta. rewrite (compileRegexp_escaped sp pre hs auto Hsp Hpre).
  split; [reflexivity|].
  unfold Proxy.loadFromJSON, Proxy.toJSON.
  cbn [Proxy.json_hosts Proxy.json_multiHost Proxy.json_autoAssociate Proxy.json_scheme
       Proxy.hosts Proxy.multiHost Proxy.autoAssociate Proxy.scheme].
  rewrite (compileRegexp_path sp' pre hs auto None nil ∅ Hsp' Hpre). cbn [snd].
  split; [reflexivity|].
  exists (path_regex pre). split; [apply parse_path|].
  intros u Hu. rewrite exec_path, strip_append, Hu. reflexivity.
Qed.

Lemma escaped_placeholder_lost_on_reload_witness :
  all_chars not_percent "https://proxy.example.com/" = true
  /\ Proxy.parameters
       (snd (Proxy.loadFromJSON Proxy.Zotero_Proxy_schemeParameters
               (Proxy.toJSON
                  (snd (Proxy.compileRegexp Proxy.Zotero_Proxy_schemeParameters
                          (escapedProxy "https://proxy.example.com/"
                                        ["journal.example.org"] false))))))
     = ["%p"].
Proof.
  assert (H : all_chars not_percent "https://proxy.example.com/" = true)
    by (vm_compute; reflexivity).
  split; [exact H|].
  apply (escaped_placeholder_lost_on_reload Proxy.Zotero_Proxy_schemeParameters
           Proxy.Zotero_Proxy_schemeParameters
           "https://proxy.example.com/" ["journal.example.org"] false);
    [now left | now left | exact H].
Defined.

(** ** Schemes that rewrite the host *)

Lemma indexOf_host_scheme (q : ascii) (pre mid : string) :
  all_chars not_percent pre = true -> all_chars not_percent mid = true ->
  JS.indexOf (pre +:+ "%h" +:+ mid +:+ "%p") (String "%" (String q "")) 0
  = if Ascii.eqb q "h" then Z.of_nat (String.length pre)
    else if Ascii.eqb q "p" then Z.of_nat (String.length pre + 2 + String.length mid)
         else -1.
Proof.
  intros Hpre Hmid. rewrite indexOf_0.
  change (pre +:+ "%h" +:+ mid +:+ "%p")
    with (pre +:+ String "%" (String "h" (mid +:+ "%p"))).
  rewrite (find_skip q "h" pre _ 0 Hpre eq_refl).
  destruct (Ascii.eqb q "h"); [reflexivity|].
  rewrite (find_placeholder q "p" mid _ Hmid).
  destruct (Ascii.eqb q "p"); [|reflexivity]. f_equal.
Qed.

Lemma check_parameter_host_other (q : ascii) (pre mid : string) (indices : gmap string Z)
      (found : list string) :
  all_chars not_percent pre = true -> all_chars not_percent mid = true ->
  Ascii.eqb q "h" = false -> Ascii.eqb q "p" = false ->
  Proxy.check_parameter (pre +:+ "%h" +:+ mid +:+ "%p", indices, found)
    (String "%" (String q ""))
  = (pre +:+ "%h" +:+ mid +:+ "%p", indices, found).
Proof.
  intros Hpre Hmid Hh Hp. unfold Proxy.check_parameter.
  rewrite (indexOf_host_scheme q pre mid Hpre Hmid), Hh, Hp, unescape_absent. reflexivity.
Qed.

Lemma check_parameter_host_h (pre mid : string) (indices : gmap string Z)
      (found : list string) :
  all_chars not_percent pre = true -> all_chars not_percent mid = true ->
  Proxy.check_parameter (pre +:+ "%h" +:+ mid +:+ "%p", indices, found) "%h"
  = (pre +:+ "%h" +:+ mid +:+ "%p", <["%h" := Z.of_nat (String.length pre)]> indices,
     (found ++ ["%h"])%list).
Proof.
  intros Hpre Hmid. unfold Proxy.check_parameter.
  rewrite (indexOf_host_scheme "h" pre mid Hpre Hmid). cbn [Ascii.eqb Bool.eqb].
  rewrite (unescape_plain _ pre _ "%h" Hpre).
  destruct (Z.of_nat (String.length pre) =? -1) eqn:H; [|reflexivity].
  apply Z.eqb_eq in H. lia.
Qed.

Lemma get_last_not_percent (a b s : string) (c x : ascii) :
  all_chars not_percent (String c s) = true ->
  String.get (String.length a + String.length s) (a +:+ String c s +:+ b) = Some x ->
  Ascii.eqb x "%" = false.
Proof.
  intros Hall Hget. rewrite Nat.add_comm in Hget.
  rewrite <- append_correct2 in Hget.
  rewrite <- append_correct1 in Hget by (cbn [String.length]; lia).
  pose proof (all_chars_get _ _ _ _ Hall Hget) as Hx. unfold not_percent in Hx.
  destruct (Ascii.eqb x "%"); [discriminate | reflexivity].
Qed.

Lemma check_parameter_host_p (pre mid : string) (indices : gmap string Z)
      (found : list string) :
  all_chars not_percent pre = true -> all_chars not_percent mid = true ->
  Proxy.check_parameter (pre +:+ "%h" +:+ mid +:+ "%p", indices, found) "%p"
  = (pre +:+ "%h" +:+ mid +:+ "%p",
     <["%p" := Z.of_nat (String.length pre + 2 + String.length mid)]> indices,
     (found ++ ["%p"])%list).
Proof.
  intros Hpre Hmid. unfold Proxy.check_parameter.
  rewrite (indexOf_host_scheme "p" pre mid Hpre Hmid). cbn [Ascii.eqb Bool.eqb].
  rewrite unescape_stops.
  - destruct (Z.of_nat (String.length pre + 2 + String.length mid) =? -1) eqn:H; [|reflexivity].
    apply Z.eqb_eq in H. lia.
  - intros x. unfold JS.charAt.
    replace (Z.of_nat (String.length pre + 2 + String.length mid) - 1 <? 0) with false
      by (symmetry; apply Z.ltb_ge; lia).
    replace (Z.to_nat (Z.of_nat (String.length pre + 2 + String.length mid) - 1))
      with (String.length (pre +:+ "%") + String.length mid)%nat
      by (rewrite length_append; cbn [String.length]; lia).
    replace (pre +:+ "%h" +:+ mid +:+ "%p") with ((pre +:+ "%") +:+ String "h" mid +:+ "%p").
    2:{ rewrite !append_assoc. reflexivity. }
    apply get_last_not_percent. cbn [all_chars]. rewrite Hmid. reflexivity.
Qed.

Lemma check_host_parameters (sp : list (string * string)) (pre mid : string) :
  declared_table sp -> all_chars not_percent pre = true -> all_chars not_percent mid = true ->
  fold_left Proxy.check_parameter (map fst (Proxy.prop_set "%h" Proxy.hostParameter sp))
    (pre +:+ "%h" +:+ mid +:+ "%p", ∅, nil)
  = (pre +:+ "%h" +:+ mid +:+ "%p",
     <["%h" := Z.of_nat (String.length pre)]>
       (<["%p" := Z.of_nat (String.length pre + 2 + String.length mid)]> ∅),
     ["%p"; "%h"]).
Proof.
  intros [-> | ->] Hpre Hmid; cbn [map fst fold_left Proxy.Zotero_Proxy_schemeParameters
                              Proxy.prop_set String.eqb Ascii.eqb Bool.eqb];
    rewrite (check_parameter_host_p pre mid _ _ Hpre Hmid);
    rewrite !(check_parameter_host_other _ pre mid _ _ Hpre Hmid) by reflexivity;
    rewrite (check_parameter_host_h pre mid _ _ Hpre Hmid);
    reflexivity.
Qed.

(** What [compileRegexp] records for a scheme [pre%hmid%p]. *)
Lemma compileRegexp_host (sp : list (string * string)) (pre mid : string)
      (hs : list string) (auto : bool) :
  declared_table sp -> all_chars not_percent pre = true -> all_chars not_percent mid = true ->
  let compiled := snd (Proxy.compileRegexp sp (hostProxy pre mid hs auto)) in
  Proxy.scheme compiled = pre +:+ "%h" +:+ mid +:+ "%p"
  /\ Proxy.multiHost compiled = true
  /\ Proxy.parameters compiled = ["%h"; "%p"]
  /\ Proxy.indices compiled
     = <["%h" := Z.of_nat (String.length pre)]>
         (<["%p" := Z.of_nat (String.length pre + 2 + String.length mid)]> ∅).
Proof.
  intros Hsp Hpre Hmid. cbv zeta. unfold Proxy.compileRegexp, hostProxy.
  cbn [Proxy.multiHost Proxy.scheme Proxy.hosts Proxy.autoAssociate].
  rewrite (check_host_parameters sp pre mid Hsp Hpre Hmid).
  cbn [snd Proxy.scheme Proxy.multiHost Proxy.parameters Proxy.indices].
  split; [reflexivity|]. split; [reflexivity|]. split; [|reflexivity].
  cbn [Proxy.sort_by fold_right Proxy.insert_by]. unfold Proxy.index_of.
  rewrite lookup_insert_eq, lookup_insert_ne by discriminate.
  rewrite lookup_insert_eq. cbn [default from_option id].
  replace (_ <=? 0) with false by (symmetry; apply Z.leb_gt; lia).
  reflexivity.
Qed.

(** The two transforms of a proxy compiled from such a scheme. *)
Lemma toProxy_host_scheme (proxy : Proxy.t) (pre mid : string) (uri : Url.t) (p : string) :
  Proxy.scheme proxy = pre +:+ "%h" +:+ mid +:+ "%p" ->
  Proxy.parameters proxy = ["%h"; "%p"] ->
  Proxy.indices proxy
  = <["%h" := Z.of_nat (String.length pre)]>
      (<["%p" := Z.of_nat (String.length pre + 2 + String.length mid)]> ∅) ->
  Url.path uri = Some p ->
  Proxy.toProxy proxy uri
  = Return (pre +:+ JS.str_null (Url.host uri) +:+ mid +:+ JS.substr_from p 1).
Proof.
  intros Hs Hps Hix Hp.
  assert (Hip : Proxy.index_of (Proxy.indices proxy) "%p"
                = Z.of_nat (String.length (pre +:+ "%h" +:+ mid))).
  { unfold Proxy.index_of. rewrite Hix, lookup_insert_ne by discriminate.
    rewrite lookup_insert_eq. cbn [default from_option id].
    rewrite !length_append. cbn [String.length]. f_equal. lia. }
  assert (Hih : Proxy.index_of (Proxy.indices proxy) "%h" = Z.of_nat (String.length pre)).
  { unfold Proxy.index_of. rewrite Hix, lookup_insert_eq. reflexivity. }
  unfold Proxy.toProxy. rewrite Hps, Hs.
  cbn [rev app fold_left bind]. unfold Proxy.value_of.
  cbn [String.eqb Ascii.eqb Bool.eqb]. rewrite Hp. cbn [bind].
  rewrite Hip, Hih.
  assert (Hreplace : forall (a : string) (b : ascii) (v : string),
            JS.substr (a +:+ String "%" (String b "")) 0 (Z.of_nat (String.length a)) +:+ v
            +:+ JS.substr_from (a +:+ String "%" (String b "")) (Z.of_nat (String.length a) + 2)
            = a +:+ v).
  { intros a b v. rewrite substr_take, take_append.
    replace (Z.of_nat (String.length a) + 2) with (Z.of_nat (String.length a + 2)) by lia.
    rewrite substr_from_drop, drop_add, drop_append. cbn [JS.drop].
    rewrite append_empty_r. reflexivity. }
  replace (pre +:+ "%h" +:+ mid +:+ "%p") with ((pre +:+ "%h" +:+ mid) +:+ "%p")
    by (rewrite !append_assoc; reflexivity).
  rewrite Hreplace. rewrite !append_assoc.
  rewrite substr_take, take_append.
  replace (Z.of_nat (String.length pre) + 2) with (Z.of_nat (String.length pre + 2)) by lia.
  rewrite substr_from_drop, drop_add, drop_append.
  unfold_append. cbn [JS.drop]. reflexivity.
Qed.

Lemma toProper_host_scheme (proxy : Proxy.t) (pre mid URL host path : string) :
  Proxy.multiHost proxy = true ->
  Proxy.parameters proxy = ["%h"; "%p"] ->
  Proxy.indices proxy
  = <["%h" := Z.of_nat (String.length pre)]>
      (<["%p" := Z.of_nat (String.length pre + 2 + String.length mid)]> ∅) ->
  Proxy.toProper proxy [Some URL; Some host; Some path]
  = "http://" +:+ host +:+ "/" +:+ path.
Proof.
  intros Hm Hps Hix. unfold Proxy.toProper, Proxy.captured. rewrite Hm, Hps, Hix.
  rewrite lookup_insert_ne by discriminate. rewrite lookup_insert_eq.
  replace (Z.of_nat (String.length pre + 2 + String.length mid) =? 0) with false
    by (symmetry; apply Z.eqb_neq; lia).
  cbn. rewrite !append_assoc. reflexivity.
Qed.

(** X14: for a multi-host proxy compiled from a scheme [pre%hmid%p]
    without another [%], [toProxy] puts the host of the URL in the place
    of [%h] and its path, without the first slash, in the place of [%p],
    and throws a [TypeError] for a URL without a path; [toProper] builds
    [http://], the host captured, a slash and the path captured. *)
Theorem host_rewrite_transforms (sp : list (string * string)) (pre mid : string)
        (hs : list string) (auto : bool) :
  declared_table sp -> all_chars not_percent pre = true -> all_chars not_percent mid = true ->
  let proxy := snd (Proxy.compileRegexp sp (hostProxy pre mid hs auto)) in
  Proxy.parameters proxy = ["%h"; "%p"]
  /\ (forall uri p,
        Url.path uri = Some p ->
        Proxy.toProxy proxy uri
        = Return (pre +:+ JS.str_null (Url.host uri) +:+ mid +:+ JS.substr_from p 1))
  /\ (forall uri, Url.path uri = None -> Proxy.toProxy proxy uri = Throw "TypeError")
  /\ (forall URL host path,
        Proxy.toProper proxy [Some URL; Some host; Some path]
        = "http://" +:+ host +:+ "/" +:+ path).
Proof.
  intros Hsp Hpre Hmid. cbv zeta.
  destruct (compileRegexp_host sp pre mid hs auto Hsp Hpre Hmid) as (Hs & Hm & Hps & Hix).
  split; [exact Hps|]. split; [|split].
  - intros uri p Hp. apply (toProxy_host_scheme _ pre mid uri p Hs Hps Hix Hp).
  - intros uri Hp. unfold Proxy.toProxy. rewrite Hps.
    cbn [rev app fold_left bind]. unfold Proxy.value_of.
    cbn [String.eqb Ascii.eqb Bool.eqb]. rewrite Hp. reflexivity.
  - intros URL host path. apply (toProper_host_scheme _ pre mid URL host path Hm Hps Hix).
Qed.

Lemma host_rewrite_transforms_witness :
  all_chars not_percent "https://" = true
  /\ all_chars not_percent ".proxy.example.com/" = true
  /\ (do uri <- Url.parse "http://journal.example.org/abstract";
      Proxy.toProxy
        (snd (Proxy.compileRegexp Proxy.Zotero_Proxy_schemeParameters
                (hostProxy "https://" ".proxy.example.com/" ["journal.example.org"] true)))
        uri)
     = Return proxiedAbstract.
Proof.
  assert (Hpre : all_chars not_percent "https://" = true) by (vm_compute; reflexivity).
  assert (Hmid : all_chars not_percent ".proxy.example.com/" = true)
    by (vm_compute; reflexivity).
  split; [exact Hpre|]. split; [exact Hmid|].
  destruct (host_rewrite_transforms Proxy.Zotero_Proxy_schemeParameters
              "https://" ".proxy.example.com/" ["journal.example.org"] true)
    as (_ & Hproxy & _); [now left | exact Hpre | exact Hmid |].
  destruct (Url.parse "http://journal.example.org/abstract") as [uri|e] eqn:Hparse;
    [|vm_compute in Hparse; discriminate Hparse].
  vm_compute in Hparse. injection Hparse as <-. cbn [bind].
  rewrite (Hproxy _ "/abstract"); vm_compute; reflexivity.
Defined.

Lemma lex_hostParameter (rest : string) :
  lex Normal (Proxy.hostParameter +:+ rest)
  = (fun ts =>
       [TOpen true;
        TCls false [("a"%char, "z"%char); ("A"%char, "Z"%char); ("0"%char, "9"%char)];
        TPlus; TChr ".";
        TCls false [("a"%char, "z"%char); ("A"%char, "Z"%char); ("0"%char, "9"%char);
                    ("."%char, "."%char)];
        TPlus; TClose] ++ ts)%list <$> lex Normal rest.
Proof.
  unfold Proxy.hostParameter. unfold_append. cbn [lex Ascii.eqb Bool.eqb JS.is_alnum].
  simpl. destruct (lex Normal rest); reflexivity.
Qed.

Lemma parse_host_pattern (pre mid : string) :
  RegExp.parse ("^" +:+ Utilities.quotemeta pre +:+ Proxy.hostParameter
                +:+ Utilities.quotemeta mid +:+ "(.*?)$")
  = Some (host_regex pre mid).
Proof.
  unfold RegExp.parse. rewrite append_cons, append_nil.
  change (lex Normal (String "^" ?x)) with (cons TBol <$> lex Normal x).
  rewrite lex_quotemeta, lex_hostParameter, lex_quotemeta.
  change (lex Normal "(.*?)$") with (Some [TOpen true; TAny; TStar; TQuest; TClose; TEol]).
  cbn [fmap option_fmap option_map mbind option_bind].
  cbn [parse_tokens]. rewrite parse_tokens_chars.
  cbn [app parse_tokens push_item frame0 f_alts f_items f_group f_quantifiable frame_regex
       fold_left quantify mbind option_bind seq_of_list fold_right rev].
  rewrite parse_tokens_chars.
  cbn [parse_tokens push_item frame0 f_alts f_items f_group f_quantifiable frame_regex
       fold_left quantify mbind option_bind seq_of_list fold_right rev app].
  unfold host_regex, hostParameter_regex, alnum_ranges, host_rest_ranges, chars,
    seq_of_list, Plus. f_equal.
  rewrite !rev_app_distr. cbn [rev app]. rewrite !rev_app_distr, !rev_involutive.
  cbn [rev app]. rewrite <- !app_assoc. cbn [app].
  reflexivity.
Qed.

(** The search for [[^%]%q] passes over another placeholder. *)
Lemma search_placeholder_skip (q x c : ascii) (a rest : string) (i : nat) :
  all_chars not_percent (String c a) = true -> Ascii.eqb q x = false ->
  search false (placeholder_regexp q) i (String c a +:+ String "%" (String x rest))
  = search false (placeholder_regexp q) (i + String.length a + 2)%nat (String x rest).
Proof.
  revert c i. induction a as [|y a IH]; intros c i Ha Hq.
  - unfold_append. cbn [search placeholder_regexp rmatch step_char String.length].
    simpl in Ha. rewrite andb_true_r in Ha. rewrite cls_not_percent, Ha.
    cbn [chr_eq]. rewrite Ascii.eqb_refl, Hq.
    rewrite cls_not_percent. cbn [not_percent Ascii.eqb Bool.eqb negb].
    replace (i + 0 + 2)%nat with (S (S i)) by lia. reflexivity.
  - simpl in Ha. apply andb_prop in Ha as [Hc Ha].
    pose proof Ha as Ha'. apply andb_prop in Ha' as [Hy _].
    rewrite append_cons. cbn [search].
    assert (Hhere : rmatch false (placeholder_regexp q) i
                      (String c (String y a +:+ String "%" (String x rest))) nil
                      (fun j _ cs => Some (j, cs)) = None).
    { rewrite append_cons. cbn [placeholder_regexp rmatch step_char].
      rewrite cls_not_percent, Hc.
      cbn [chr_eq]. unfold not_percent in Hy. rewrite Ascii.eqb_sym.
      now destruct (Ascii.eqb y "%"). }
    rewrite Hhere. rewrite (IH y (S i)).
    + cbn [String.length].
      replace (S i + String.length a + 2)%nat with (i + S (String.length a) + 2)%nat by lia.
      reflexivity.
    + simpl. exact Ha.
    + exact Hq.
Qed.

Lemma take_past (a s : string) (n : nat) :
  JS.take (String.length a + n) (a +:+ s) = a +:+ JS.take n s.
Proof.
  induction a as [|c a IH]; [reflexivity|].
  rewrite !append_cons. cbn [String.length Nat.add JS.take]. rewrite IH. reflexivity.
Qed.

Lemma replace_placeholder_skip (q x c : ascii) (a b rest fragment : string) :
  all_chars not_percent (String c a) = true -> all_chars not_percent (String x b) = true ->
  Ascii.eqb q x = false ->
  RegExp.replace false (placeholder_regexp q)
    (String c a +:+ String "%" (String x b +:+ String "%" (String q rest)))
    (fun cs => JS.str_undefined (capture 1 cs) +:+ fragment)
  = String c a +:+ String "%" (String x b +:+ fragment +:+ rest).
Proof.
  intros Ha Hb Hq. unfold RegExp.replace.
  rewrite (append_cons x b).
  rewrite (search_placeholder_skip q x c a _ 0 Ha Hq).
  rewrite <- (append_cons x b).
  rewrite (search_placeholder q x b rest _ Hb).
  cbn [capture Nat.eqb JS.str_undefined].
  replace (0 + String.length a + 2 + String.length b)%nat
    with (String.length (String c a +:+ "%") + String.length b)%nat
    by (rewrite length_append; cbn [String.length]; lia).
  replace (String c a +:+ String "%" (String x b +:+ String "%" (String q rest)))
    with ((String c a +:+ "%") +:+ (String x b +:+ String "%" (String q rest)))
    by (rewrite append_assoc; reflexivity).
  set (A := String c a +:+ "%").
  assert (Htake : JS.take (String.length A + String.length b)
                    (A +:+ (String x b +:+ String "%" (String q rest)))
                  +:+ String (last_char x b) ""
                  = A +:+ String x b).
  { rewrite take_past, append_assoc. f_equal. apply take_init_last. }
  rewrite (append_assoc (String (last_char x b) "") fragment).
  rewrite <- (append_assoc _ (String (last_char x b) "")). rewrite Htake.
  replace (String.length A + String.length b + 3)%nat
    with (String.length A + (String.length (String x b) + 2))%nat
    by (cbn [String.length]; lia).
  rewrite drop_add, drop_append, drop_add, drop_append. cbn [JS.drop].
  unfold A. rewrite !append_assoc. reflexivity.
Qed.

Lemma prop_get_declared (sp : list (string * string)) :
  declared_table sp ->
  Proxy.prop_get "%p" (Proxy.prop_set "%h" Proxy.hostParameter sp) = Some "(.*?)"
  /\ Proxy.prop_get "%h" (Proxy.prop_set "%h" Proxy.hostParameter sp)
     = Some Proxy.hostParameter.
Proof. intros [-> | ->]; split; reflexivity. Qed.

(** The pattern source for a scheme [pre%hmid%p]. *)
Lemma pattern_host (sp : list (string * string)) (pre mid : string) :
  declared_table sp -> all_chars not_percent pre = true -> all_chars not_percent mid = true ->
  Proxy.pattern (Proxy.prop_set "%h" Proxy.hostParameter sp)
    (pre +:+ "%h" +:+ mid +:+ "%p") ["%h"; "%p"]
  = "^" +:+ Utilities.quotemeta pre +:+ Proxy.hostParameter
    +:+ Utilities.quotemeta mid +:+ "(.*?)$".
Proof.
  intros Hsp Hpre Hmid. destruct (prop_get_declared sp Hsp) as [Hp Hh].
  unfold Proxy.pattern. cbn [rev app fold_left]. unfold Proxy.substitute.
  change (Proxy.prop_get "%p" Proxy.Zotero_Proxy_schemeParameterRegexps)
    with (Some (placeholder_regexp "p")).
  change (Proxy.prop_get "%h" Proxy.Zotero_Proxy_schemeParameterRegexps)
    with (Some (placeholder_regexp "h")).
  rewrite Hp, Hh. cbn [JS.str_undefined].
  rewrite !quotemeta_append. change (Utilities.quotemeta "%p") with "%p".
  change (Utilities.quotemeta "%h") with "%h".
  assert (Hqpre : all_chars not_percent (String "^" (Utilities.quotemeta pre)) = true)
    by (simpl; apply quotemeta_not_percent; exact Hpre).
  assert (Hqmid : all_chars not_percent (String "h" (Utilities.quotemeta mid)) = true)
    by (simpl; apply quotemeta_not_percent; exact Hmid).
  replace ("^" +:+ (Utilities.quotemeta pre +:+ "%h" +:+ Utilities.quotemeta mid +:+ "%p") +:+ "$")
    with (String "^" (Utilities.quotemeta pre)
          +:+ String "%" (String "h" (Utilities.quotemeta mid) +:+ String "%" (String "p" "$"))).
  2:{ rewrite ?append_assoc. unfold_append. reflexivity. }
  rewrite (replace_placeholder_skip "p" "h" "^" _ _ "$" "(.*?)" Hqpre Hqmid eq_refl).
  rewrite (append_cons "h").
  rewrite (replace_placeholder "h" "^" (Utilities.quotemeta pre) _ Proxy.hostParameter Hqpre).
  rewrite ?append_assoc. unfold_append. reflexivity.
Qed.

(** What [compileRegexp] makes of a multi-host proxy with such a scheme. *)
Lemma compileRegexp_host_regexp (sp : list (string * string)) (pre mid : string)
      (hs : list string) (auto : bool) :
  declared_table sp -> all_chars not_percent pre = true -> all_chars not_percent mid = true ->
  Proxy.regexp (snd (Proxy.compileRegexp sp (hostProxy pre mid hs auto)))
  = Some (host_regex pre mid).
Proof.
  intros Hsp Hpre Hmid. unfold Proxy.compileRegexp, hostProxy.
  cbn [Proxy.multiHost Proxy.scheme Proxy.hosts Proxy.autoAssociate].
  rewrite (check_host_parameters sp pre mid Hsp Hpre Hmid).
  cbn [snd Proxy.regexp].
  assert (Hsort : Proxy.sort_by
                    (fun a b =>
                       Proxy.index_of
                         (<["%h" := Z.of_nat (String.length pre)]>
                            (<["%p" := Z.of_nat (String.length pre + 2 + String.length mid)]> ∅)) a
                       - Proxy.index_of
                           (<["%h" := Z.of_nat (String.length pre)]>
                              (<["%p" := Z.of_nat (String.length pre + 2 + String.length mid)]> ∅)) b)
                    ["%p"; "%h"] = ["%h"; "%p"]).
  { cbn [Proxy.sort_by fold_right Proxy.insert_by]. unfold Proxy.index_of.
    rewrite lookup_insert_eq, lookup_insert_ne by discriminate.
    rewrite lookup_insert_eq. cbn [default from_option id].
    replace (_ <=? 0) with false by (symmetry; apply Z.leb_gt; lia).
    reflexivity. }
  rewrite Hsort, (pattern_host sp pre mid Hsp Hpre Hmid).
  apply parse_host_pattern.
Qed.

Lemma cls_alnum (c : ascii) : cls_mem false false alnum_ranges c = JS.is_alnum c.
Proof. destruct c as [[] [] [] [] [] [] [] []]; reflexivity. Qed.

Lemma cls_host_rest (c : ascii) : cls_mem false false host_rest_ranges c = host_rest c.
Proof. destruct c as [[] [] [] [] [] [] [] []]; reflexivity. Qed.

(** What a quantified character class consumes: a run of characters of
    the class. *)
Lemma star_loop_sound (ok : ascii -> bool)
      (body : nat -> string -> captures -> cont -> option (nat * captures))
      (greedy : bool) (k : cont) :
  (forall i s cs k', body i s cs k' = step_char ok i s cs k') ->
  forall fuel i s cs res,
    star_loop body greedy k fuel i s cs = Some res ->
    exists a t, s = a +:+ t /\ all_chars ok a = true
                /\ k (i + String.length a)%nat t cs = Some res.
Proof.
  intros Hbody. induction fuel as [|fuel IH]; intros i s cs res H; cbn [star_loop] in H.
  - exists "", s. rewrite Nat.add_0_r. auto.
  - assert (Hstop : k i s cs = Some res ->
                    exists a t, s = a +:+ t /\ all_chars ok a = true
                                /\ k (i + String.length a)%nat t cs = Some res).
    { intros Hk. exists "", s. rewrite Nat.add_0_r. auto. }
    assert (Hmore : body i s cs
                      (fun i' s' cs' =>
                         if Nat.eqb i' i then None
                         else star_loop body greedy k fuel i' s' cs') = Some res ->
                    exists a t, s = a +:+ t /\ all_chars ok a = true
                                /\ k (i + String.length a)%nat t cs = Some res).
    { rewrite Hbody. destruct s as [|c s]; cbn [step_char]; [discriminate|].
      destruct (ok c) eqn:Hc; [|discriminate].
      replace (Nat.eqb (S i) i) with false by (symmetry; apply Nat.eqb_neq; lia).
      intros Hrec. destruct (IH _ _ _ _ Hrec) as (a & t & -> & Ha & Hk).
      exists (String c a), t. rewrite append_cons. cbn [all_chars String.length].
      rewrite Hc, Ha. replace (i + S (String.length a))%nat with (S i + String.length a)%nat by lia.
      auto. }
    destruct greedy.
    + destruct (body i s cs _) as [res'|].
      * apply Hmore. exact H.
      * apply Hstop. exact H.
    + destruct (k i s cs) as [res'|].
      * apply Hstop. exact H.
      * apply Hmore. exact H.
Qed.

(** A run of characters of the class after which the continuation
    succeeds makes the quantified class succeed. *)
Lemma star_loop_complete (ok : ascii -> bool)
      (body : nat -> string -> captures -> cont -> option (nat * captures))
      (greedy : bool) (k : cont) (t : string) (cs : captures) :
  (forall i s cs k', body i s cs k' = step_char ok i s cs k') ->
  forall a fuel i,
    all_chars ok a = true -> (String.length a <= fuel)%nat ->
    k (i + String.length a)%nat t cs <> None ->
    star_loop body greedy k fuel i (a +:+ t) cs <> None.
Proof.
  intros Hbody. induction a as [|c a IH]; intros fuel i Ha Hfuel Hk.
  - rewrite append_nil. cbn [String.length] in Hk. rewrite Nat.add_0_r in Hk.
    destruct fuel as [|fuel]; cbn [star_loop]; [exact Hk|].
    destruct greedy.
    + destruct (body i t cs _); [discriminate | exact Hk].
    + destruct (k i t cs); [discriminate | contradiction].
  - destruct fuel as [|fuel]; [cbn [String.length] in Hfuel; lia|].
    rewrite append_cons. cbn [star_loop]. rewrite Hbody. cbn [step_char].
    cbn [all_chars] in Ha. apply andb_prop in Ha as [Hc Ha]. rewrite Hc.
    replace (Nat.eqb (S i) i) with false by (symmetry; apply Nat.eqb_neq; lia).
    assert (Hrec : star_loop body greedy k fuel (S i) (a +:+ t) cs <> None).
    { apply IH; [exact Ha | cbn [String.length] in Hfuel; lia|].
      cbn [String.length] in Hk.
      replace (S i + String.length a)%nat with (i + S (String.length a))%nat by lia. exact Hk. }
    destruct greedy.
    + destruct (star_loop body true k fuel (S i) (a +:+ t) cs); [discriminate | contradiction].
    + destruct (k i (String c (a +:+ t)) cs); [discriminate | exact Hrec].
Qed.

Lemma take_length_append (a b : string) (i : nat) :
  JS.take (i + String.length a - i) (a +:+ b) = a.
Proof. replace (i + String.length a - i)%nat with (String.length a) by lia. apply take_append. Qed.

(** The fragment of [%h] consumes a host name. *)
Lemma rmatch_hostParameter_sound (i : nat) (t : string) (cs : captures) (k : cont)
      (res : nat * captures) :
  rmatch false hostParameter_regex i t cs k = Some res ->
  exists h rest,
    hostlike h /\ t = h +:+ rest
    /\ k (i + String.length h)%nat rest ((1%nat, h) :: cs) = Some res.
Proof.
  unfold hostParameter_regex, Plus. cbn [rmatch].
  destruct t as [|c t]; cbn [step_char]; [discriminate|].
  rewrite cls_alnum. destruct (JS.is_alnum c) eqn:Hc; [|discriminate].
  intros H. apply (star_loop_sound (cls_mem false false alnum_ranges)) in H;
    [|intros; reflexivity].
  destruct H as (a & t1 & -> & Ha & H).
  destruct t1 as [|d t1]; cbn [step_char] in H; [discriminate|].
  cbn [chr_eq] in H. destruct (Ascii.eqb "." d) eqn:Hd; [|discriminate].
  apply Ascii.eqb_eq in Hd. subst d.
  destruct t1 as [|c2 t1]; cbn [step_char] in H; [discriminate|].
  rewrite cls_host_rest in H. destruct (host_rest c2) eqn:Hc2; [|discriminate].
  apply (star_loop_sound (cls_mem false false host_rest_ranges)) in H;
    [|intros; reflexivity].
  destruct H as (b & rest & -> & Hb & H).
  exists (String c a +:+ "." +:+ String c2 b), rest.
  split; [|split].
  - exists (String c a), (String c2 b). split; [reflexivity|].
    split; [discriminate|]. split; [discriminate|]. cbn [all_chars]. rewrite Hc, Hc2. cbn [andb].
    split.
    + revert Ha. apply all_chars_impl. intros x. rewrite cls_alnum. auto.
    + revert Hb. apply all_chars_impl. intros x. rewrite cls_host_rest. auto.
  - rewrite ?append_assoc. unfold_append. reflexivity.
  - assert (Hlen : (S (S (S i + String.length a)) + String.length b)%nat
                   = (i + String.length (String c a +:+ "." +:+ String c2 b))%nat).
    { rewrite !length_append. cbn [String.length]. lia. }
    rewrite Hlen in H.
    replace (String c (a +:+ String "." (String c2 (b +:+ rest))))
      with ((String c a +:+ "." +:+ String c2 b) +:+ rest) in H
      by (rewrite ?append_assoc; unfold_append; reflexivity).
    rewrite take_length_append in H. exact H.
Qed.

(** After a host name the fragment of [%h] gets to its continuation. *)
Lemma rmatch_hostParameter_complete (i : nat) (h rest : string) (cs : captures) (k : cont) :
  hostlike h ->
  k (i + String.length h)%nat rest ((1%nat, h) :: cs) <> None ->
  rmatch false hostParameter_regex i (h +:+ rest) cs k <> None.
Proof.
  intros (a & b & -> & Ha0 & Hb0 & Ha & Hb) Hk.
  destruct a as [|c a]; [contradiction|]. destruct b as [|c2 b]; [contradiction|].
  cbn [all_chars] in Ha, Hb. apply andb_prop in Ha as [Hc Ha]. apply andb_prop in Hb as [Hc2 Hb].
  unfold hostParameter_regex, Plus. cbn [rmatch].
  replace ((String c a +:+ "." +:+ String c2 b) +:+ rest)
    with (String c (a +:+ String "." (String c2 (b +:+ rest))))
    by (rewrite ?append_assoc; unfold_append; reflexivity).
  cbn [step_char]. rewrite cls_alnum, Hc.
  apply (star_loop_complete (cls_mem false false alnum_ranges)); [intros; reflexivity | | |].
  - revert Ha. apply all_chars_impl. intros x. rewrite cls_alnum. auto.
  - rewrite length_append. lia.
  - cbn [step_char chr_eq Ascii.eqb Bool.eqb]. rewrite cls_host_rest, Hc2.
    apply (star_loop_complete (cls_mem false false host_rest_ranges));
      [intros; reflexivity | | |].
    + revert Hb. apply all_chars_impl. intros x. rewrite cls_host_rest. auto.
    + rewrite length_append. lia.
    + assert (Hlen : (S (S (S i + String.length a)) + String.length b)%nat
                     = (i + String.length (String c a +:+ "." +:+ String c2 b))%nat).
      { rewrite !length_append. cbn [String.length]. lia. }
      rewrite Hlen.
      replace (String c (a +:+ String "." (String c2 (b +:+ rest))))
        with ((String c a +:+ "." +:+ String c2 b) +:+ rest)
        by (rewrite ?append_assoc; unfold_append; reflexivity).
      rewrite take_length_append. exact Hk.
Qed.

(** [(.*?)$] takes the rest of the subject, when it has no line break. *)
Lemma rmatch_lazy_tail (n j : nat) (u : string) (cs : captures) :
  rmatch false (seq_of_list [Grp n (Seq (Star false Any) Eps); Eol]) j u cs
    (fun j' _ cs' => Some (j', cs'))
  = if no_line_break u then Some ((j + String.length u)%nat, (n, u) :: cs) else None.
Proof.
  cbn [seq_of_list fold_right rmatch].
  rewrite lazy_any_to_end; [|intros; reflexivity|intros; reflexivity|lia].
  destruct (no_line_break u); [|reflexivity].
  replace (j + String.length u - j)%nat with (String.length u) by lia.
  rewrite take_all. reflexivity.
Qed.

(** What follows the host name in a URL that the matcher accepts. *)
Lemma rmatch_after_host (mid : string) (j : nat) (s : string) (cs : captures) :
  rmatch false (seq_of_list (chars mid ++ [Grp 2 (Seq (Star false Any) Eps); Eol])) j s cs
    (fun j' _ cs' => Some (j', cs'))
  = match strip mid s with
    | Some u =>
        if no_line_break u
        then Some ((j + String.length mid + String.length u)%nat, (2%nat, u) :: cs)
        else None
    | None => None
    end.
Proof.
  rewrite rmatch_chars. destruct (strip mid s) as [u|]; [|reflexivity].
  apply rmatch_lazy_tail.
Qed.

Lemma ngroups_host_regex (pre mid : string) : ngroups (host_regex pre mid) = 2%nat.
Proof.
  unfold host_regex. cbn [seq_of_list fold_right ngroups].
  change (fold_right Seq Eps (chars pre ++ ?l)) with (seq_of_list (chars pre ++ l)).
  rewrite ngroups_chars. cbn [seq_of_list fold_right ngroups].
  change (fold_right Seq Eps (chars mid ++ ?l)) with (seq_of_list (chars mid ++ l)).
  rewrite ngroups_chars. reflexivity.
Qed.

Lemma search_host_regex (pre mid URL : string) :
  search false (host_regex pre mid) 0 URL
  = match strip pre URL with
    | Some t =>
        match rmatch false hostParameter_regex (String.length pre) t nil
                (fun j s cs =>
                   rmatch false
                     (seq_of_list (chars mid ++ [Grp 2 (Seq (Star false Any) Eps); Eol]))
                     j s cs (fun j' _ cs' => Some (j', cs'))) with
        | Some (j, cs) => Some (0%nat, j, cs)
        | None => None
        end
    | None => None
    end.
Proof.
  unfold host_regex. cbn [seq_of_list fold_right].
  change (fold_right Seq Eps (chars pre ++ ?l)) with (seq_of_list (chars pre ++ l)).
  rewrite search_anchored, rmatch_chars.
  destruct (strip pre URL) as [t|]; reflexivity.
Qed.

(** Every URL that the matcher of a scheme [pre%hmid%p] accepts is [pre],
    a host name, [mid] and a rest, and the match holds the host name and
    the rest. *)
Lemma exec_host_sound (pre mid URL : string) (m : list (option string)) :
  exec false (host_regex pre mid) URL = Some m ->
  exists h u,
    URL = pre +:+ h +:+ mid +:+ u /\ hostlike h /\ no_line_break u = true
    /\ m = [Some URL; Some h; Some u].
Proof.
  unfold exec. rewrite search_host_regex, ngroups_host_regex.
  destruct (strip pre URL) as [t|] eqn:Hpre; [|discriminate].
  apply strip_Some in Hpre. subst URL.
  destruct (rmatch false hostParameter_regex _ _ _ _) as [[j cs]|] eqn:Hm; [|discriminate].
  apply rmatch_hostParameter_sound in Hm. destruct Hm as (h & rest & Hh & -> & Hk).
  rewrite rmatch_after_host in Hk.
  destruct (strip mid rest) as [u|] eqn:Hmid; [|discriminate].
  apply strip_Some in Hmid. subst rest.
  destruct (no_line_break u) eqn:Hu; [|discriminate].
  injection Hk as <- <-. intros [= <-].
  exists h, u. split; [reflexivity|]. split; [exact Hh|]. split; [exact Hu|].
  cbn [JS.drop seq map capture Nat.eqb]. f_equal. f_equal.
  rewrite Nat.sub_0_r.
  replace (String.length pre + String.length h + String.length mid + String.length u)%nat
    with (String.length (pre +:+ h +:+ mid +:+ u)) by (rewrite !length_append; lia).
  apply take_all.
Qed.

(** The matcher accepts [pre], a host name, [mid] and a rest without a
    line break. *)
Lemma exec_host_complete (pre mid h u : string) :
  hostlike h -> no_line_break u = true ->
  exec false (host_regex pre mid) (pre +:+ h +:+ mid +:+ u) <> None.
Proof.
  intros Hh Hu. unfold exec. rewrite search_host_regex, strip_append.
  pose proof (rmatch_hostParameter_complete (String.length pre) h (mid +:+ u) nil
                (fun j s cs =>
                   rmatch false
                     (seq_of_list (chars mid ++ [Grp 2 (Seq (Star false Any) Eps); Eol]))
                     j s cs (fun j' _ cs' => Some (j', cs'))) Hh) as Hc.
  cbv beta in Hc. rewrite rmatch_after_host, strip_append, Hu in Hc.
  specialize (Hc ltac:(discriminate)).
  destruct (rmatch false hostParameter_regex _ _ _ _) as [[j cs]|]; [discriminate|contradiction].
Qed.

(** ** The canonical URL of a host name *)

(** X15: the matcher compiled from a scheme [pre%hmid%p] accepts every
    URL made of [pre], a host name, [mid] and a rest without a line break,
    and only such URLs; the match holds the host name and the rest, and
    [toProper] gives [http://], the host name, a slash and the rest.
    [toProxy] of what [url.parse] makes of that canonical URL puts the
    host and the path that [url.parse] read in their places.  When the
    labels of the host name have at most 63 characters and the name at
    most 255, and the rest has no [#] and no character that [url.parse]
    escapes (the backslash among them), and is empty or ends in a
    printable character of ASCII other than the space, [url.parse] reads
    the host name in lower case and the rest as it is: [toProxy] gives the
    URL back with its host name in lower case, so a URL with a lower-case
    host name makes the round trip. *)
Theorem round_trip_host_template (sp : list (string * string)) (pre mid : string)
        (hs : list string) (auto : bool) :
  declared_table sp -> all_chars not_percent pre = true -> all_chars not_percent mid = true ->
  let proxy := snd (Proxy.compileRegexp sp (hostProxy pre mid hs auto)) in
  exists r,
    Proxy.regexp proxy = Some r
    /\ (forall h u, hostlike h -> no_line_break u = true ->
                    exec false r (pre +:+ h +:+ mid +:+ u) <> None)
    /\ (forall URL m,
          exec false r URL = Some m ->
          exists h u,
            URL = pre +:+ h +:+ mid +:+ u /\ hostlike h /\ m = [Some URL; Some h; Some u]
            /\ Proxy.toProper proxy m = "http://" +:+ h +:+ "/" +:+ u
            /\ (forall uri host,
                  Url.parse (Proxy.toProper proxy m) = Return uri ->
                  Url.host uri = Some host -> Url.path uri = Some ("/" +:+ u) ->
                  Proxy.toProxy proxy uri = Return (pre +:+ host +:+ mid +:+ u))
            /\ (host_name h -> all_chars path_char u = true -> ends_plain u = true ->
                exists uri,
                  Url.parse (Proxy.toProper proxy m) = Return uri
                  /\ Proxy.toProxy proxy uri
                     = Return (pre +:+ JS.toLowerCase h +:+ mid +:+ u)
                  /\ (JS.toLowerCase h = h -> round_trip proxy URL))).
Proof.
  intros Hsp Hpre Hmid. cbv zeta.
  pose proof (compileRegexp_host_regexp sp pre mid hs auto Hsp Hpre Hmid) as Hr.
  destruct (compileRegexp_host sp pre mid hs auto Hsp Hpre Hmid) as (Hs & Hm & Hps & Hix).
  set (proxy := snd (Proxy.compileRegexp sp (hostProxy pre mid hs auto))) in *.
  exists (host_regex pre mid). split; [exact Hr|]. split.
  - intros h u. apply exec_host_complete.
  - intros URL m Hexec.
    destruct (exec_host_sound pre mid URL m Hexec) as (h & u & HURL & Hh & Hu & ->).
    exists h, u. split; [exact HURL|]. split; [exact Hh|]. split; [reflexivity|].
    pose proof (toProper_host_scheme proxy pre mid URL h u Hm Hps Hix) as Hproper.
    split; [exact Hproper|].
    assert (Hback : forall uri host,
               Url.host uri = Some host -> Url.path uri = Some ("/" +:+ u) ->
               Proxy.toProxy proxy uri = Return (pre +:+ host +:+ mid +:+ u)).
    { intros uri host Hhost Hpath.
      rewrite (toProxy_host_scheme proxy pre mid _ ("/" +:+ u) Hs Hps Hix Hpath).
      rewrite Hhost. cbn [JS.str_null].
      rewrite (substr_from_drop _ 1). unfold_append. cbn [JS.drop]. reflexivity. }
    split; [intros uri host _; apply Hback|].
    intros Hname Hpath Hend. rewrite Hproper.
    destruct (parse_canonical h u Hname Hpath Hend) as (uri & Hparse & Hhost & _ & Hp).
    exists uri. split; [exact Hparse|].
    pose proof (Hback uri _ Hhost Hp) as Hproxy.
    split; [exact Hproxy|].
    intros Hlow r' m' Hr' Hexec'. rewrite Hr in Hr'. injection Hr' as <-.
    rewrite Hexec in Hexec'. injection Hexec' as <-.
    exists uri, URL, [Some URL; Some h; Some u]. rewrite Hproper.
    split; [exact Hparse|]. rewrite Hproxy, Hlow, <- HURL.
    split; [reflexivity|]. split; [exact Hexec | reflexivity].
Qed.

Lemma round_trip_host_template_witness :
  hostlike "journal.example.org"
  /\ exists r,
       Proxy.regexp
         (snd (Proxy.compileRegexp Proxy.Zotero_Proxy_schemeParameters
                 (hostProxy "https://" ".proxy.example.com/" ["journal.example.org"] true)))
       = Some r
       /\ exec false r proxiedAbstract <> None.
Proof.
  assert (Hh : hostlike "journal.example.org").
  { exists "journal", "example.org". repeat split; try discriminate; vm_compute; reflexivity. }
  split; [exact Hh|].
  destruct (round_trip_host_template Proxy.Zotero_Proxy_schemeParameters
              "https://" ".proxy.example.com/" ["journal.example.org"] true)
    as (r & Hr & Hcomplete & _); [now left | vm_compute; reflexivity | vm_compute; reflexivity |].
  exists r. split; [exact Hr|].
  apply (Hcomplete "journal.example.org" "abstract" Hh). vm_compute. reflexivity.
Defined.

(** ** Saving a proxy *)



Lemma save_unfold (st : Proxies.t) (id : nat) (proxy : Proxy.t) (r : regex) :
  Proxies.heap st !! id = Some proxy -> Proxy.regexp proxy = Some r ->
  Proxies.save st id
  = Proxies.with_registry st (<[id := proxy]> (Proxies.heap st))
      (if existsb (Nat.eqb id) (Proxies.proxies st) then Proxies.proxies st
       else Proxies.proxies st ++ [id])%list
      (Proxies.index_hosts id (Proxy.hosts proxy)
         (filter (fun entry => Proxies.keeps id (Proxy.hosts proxy) entry = true)
                 (Proxies.hosts st)))
      (Proxies.schemeParameters st)
      (omap (fun i => Proxy.toJSON <$> <[id := proxy]> (Proxies.heap st) !! i)
            (if existsb (Nat.eqb id) (Proxies.proxies st) then Proxies.proxies st
             else Proxies.proxies st ++ [id])%list).
Proof.
  intros Hp Hr. unfold Proxies.save. rewrite Hp, Hr. reflexivity.
Qed.

(** X17: [save] of a proxy that is saved and compiled changes nothing:
    a second [save] leaves the registry, its host index and the stored
    list as the first one left them. *)
Theorem save_twice_is_save_once (st : Proxies.t) (id : nat) (saved : Proxy.t) (r : regex) :
  Proxies.heap (Proxies.save st id) !! id = Some saved ->
  Proxy.regexp saved = Some r ->
  Proxies.save (Proxies.save st id) id = Proxies.save st id.
Proof.
  intros Hsaved Hr.
  destruct (Proxies.heap st !! id) as [proxy|] eqn:Hp.
  2:{ unfold Proxies.save at 2. rewrite Hp. unfold Proxies.save. rewrite Hp. reflexivity. }
  destruct (save_proxies_in st id proxy Hp) as (Hid & _ & _).
  rewrite (save_unfold (Proxies.save st id) id saved r Hsaved Hr).
  replace (existsb (Nat.eqb id) (Proxies.proxies (Proxies.save st id))) with true.
  2:{ symmetry. apply existsb_exists. exists id. split; [|apply Nat.eqb_refl].
      apply list_elem_of_In. exact Hid. }
  rewrite (insert_id _ _ _ Hsaved).
  assert (Hhosts : Proxies.index_hosts id (Proxy.hosts saved)
                     (filter (fun entry => Proxies.keeps id (Proxy.hosts saved) entry = true)
                             (Proxies.hosts (Proxies.save st id)))
                   = Proxies.hosts (Proxies.save st id)).
  { destruct (save_fields st id proxy Hp) as (proxy' & Hh' & Hheap' & _ & _).
    rewrite Hheap', lookup_insert_eq in Hsaved. injection Hsaved as ->.
    apply map_eq. intros h. rewrite index_hosts_lookup.
    destruct (decide (h ∈ Proxy.hosts saved)) as [Hin | Hnin].
    - symmetry. apply (save_indexes_hosts st id proxy h Hp). rewrite <- Hh'. exact Hin.
    - apply option_eq_Some. intros x. rewrite map_lookup_filter_Some.
      unfold Proxies.keeps. cbn [fst snd].
      rewrite Hh' in Hnin |- *.
      rewrite (save_other_entry st id proxy h x Hp Hnin).
      pose proof (proj2 (strings_indexOf_none (Proxy.hosts proxy) h) Hnin) as Hix.
      rewrite Hix. cbn. rewrite andb_true_r, negb_true_iff, Nat.eqb_neq. tauto. }
  rewrite Hhosts.
  assert (Hprefs : omap (fun i => Proxy.toJSON <$> Proxies.heap (Proxies.save st id) !! i)
                        (Proxies.proxies (Proxies.save st id))
                   = Proxies.prefs (Proxies.save st id)).
  { unfold Proxies.save. rewrite Hp.
    destruct (Proxy.regexp proxy); [|destruct (Proxy.compileRegexp _ _)]; reflexivity. }
  rewrite Hprefs. unfold Proxies.with_registry. destruct (Proxies.save st id). reflexivity.
Qed.

Lemma save_twice_is_save_once_witness :
  Proxies.heap campus !! 1%nat = Some campusCompiled
  /\ Proxies.save campus 1%nat = campus.
Proof.
  assert (H : Proxies.heap campus !! 1%nat = Some campusCompiled) by (vm_compute; reflexivity).
  split; [exact H|].
  destruct (Proxy.regexp campusCompiled) as [r|] eqn:Hr; [|vm_compute in Hr; discriminate Hr].
  apply (save_twice_is_save_once unsaved 1%nat campusCompiled r H Hr).
Defined.

Lemma fresh_bound (h : gmap nat Proxy.t) (k : nat) :
  is_Some (h !! k) -> (k <= map_fold (fun k _ acc => Nat.max k acc) O h)%nat.
Proof.
  revert k.
  apply (map_fold_weak_ind
           (fun (r : nat) (m : gmap nat Proxy.t) => forall k, is_Some (m !! k) -> (k <= r)%nat)).
  - intros k [x H]. rewrite lookup_empty in H. discriminate.
  - intros i x m r Hi IH k Hk. destruct (decide (k = i)) as [-> | Hne]; [lia|].
    rewrite lookup_insert_ne in Hk by congruence. specialize (IH k Hk). lia.
Qed.

Lemma fresh_unused (h : gmap nat Proxy.t) : h !! Proxies.fresh h = None.
Proof.
  apply eq_None_not_Some. intros H. apply fresh_bound in H. unfold Proxies.fresh in H. lia.
Qed.

Lemma load_fields (st : Proxies.t) (j : Proxy.json) :
  exists proxy,
    Proxy.hosts proxy = Proxy.json_hosts j
    /\ Proxies.heap (Proxies.load st j) = <[Proxies.fresh (Proxies.heap st) := proxy]> (Proxies.heap st)
    /\ Proxies.proxies (Proxies.load st j)
       = (Proxies.proxies st ++ [Proxies.fresh (Proxies.heap st)])%list
    /\ Proxies.hosts (Proxies.load st j)
       = Proxies.index_hosts (Proxies.fresh (Proxies.heap st)) (Proxy.json_hosts j)
           (Proxies.hosts st).
Proof.
  unfold Proxies.load, Proxy.loadFromJSON.
  pose proof (compileRegexp_hosts (Proxies.schemeParameters st)
                {| Proxy.hosts := Proxy.json_hosts j; Proxy.multiHost := Proxy.json_multiHost j;
                   Proxy.autoAssociate := Proxy.json_autoAssociate j;
                   Proxy.scheme := Proxy.json_scheme j; Proxy.regexp := None;
                   Proxy.parameters := nil; Proxy.indices := ∅ |}) as Hh.
  destruct (Proxy.compileRegexp _ _) as [sp proxy]. cbn in Hh.
  exists proxy. cbn. rewrite Hh. auto.
Qed.

Lemma load_well_formed (st : Proxies.t) (j : Proxy.json) :
  well_formed st -> well_formed (Proxies.load st j).
Proof.
  intros [Hnd Hreg]. destruct (load_fields st j) as (proxy & _ & Hheap & Hps & _).
  unfold well_formed. rewrite Hheap, Hps. split.
  - apply NoDup_app. split; [exact Hnd|]. split; [|apply NoDup_singleton].
    intros id Hin Hfresh. apply list_elem_of_singleton in Hfresh. subst id.
    apply Hreg in Hin. rewrite fresh_unused in Hin. destruct Hin as [x Hx]. discriminate.
  - intros id Hin. apply elem_of_app in Hin. destruct Hin as [Hin | Hin].
    + destruct (decide (id = Proxies.fresh (Proxies.heap st))) as [-> | Hne].
      * rewrite lookup_insert_eq. eauto.
      * rewrite lookup_insert_ne by congruence. apply Hreg. exact Hin.
    + apply list_elem_of_singleton in Hin. subst id. rewrite lookup_insert_eq. eauto.
Qed.

Lemma load_sound (st : Proxies.t) (j : Proxy.json) :
  well_formed st -> sound st -> sound (Proxies.load st j).
Proof.
  intros [_ Hreg] Hs h id Hh.
  destruct (load_fields st j) as (proxy & Hhosts & Hheap & Hps & Hix).
  rewrite Hix, index_hosts_lookup in Hh. rewrite Hps, Hheap.
  destruct (decide (h ∈ Proxy.json_hosts j)) as [Hin | Hnin].
  - injection Hh as <-. split.
    + apply elem_of_app. right. apply list_elem_of_singleton. reflexivity.
    + exists proxy. rewrite lookup_insert_eq, Hhosts. auto.
  - destruct (Hs h id Hh) as (Hin & q & Hq & Hl). split.
    + apply elem_of_app. left. exact Hin.
    + exists q. split; [|exact Hl]. rewrite lookup_insert_ne; [exact Hq|].
      intros <-. rewrite fresh_unused in Hq. discriminate.
Qed.

Lemma omap_ext_in {A B : Type} (f g : A -> option B) (l : list A) :
  (forall x, x ∈ l -> f x = g x) -> omap f l = omap g l.
Proof.
  induction l as [|a l IH]; intros H; [reflexivity|]. cbn.
  rewrite (H a) by (left). rewrite IH; [reflexivity|].
  intros x Hx. apply H. right. exact Hx.
Qed.

Lemma load_registered_hosts (st : Proxies.t) (j : Proxy.json) :
  well_formed st ->
  registered_hosts (Proxies.load st j) = (registered_hosts st ++ [Proxy.json_hosts j])%list.
Proof.
  intros [_ Hreg]. destruct (load_fields st j) as (proxy & Hhosts & Hheap & Hps & _).
  unfold registered_hosts. rewrite Hps, Hheap, omap_app. f_equal.
  - apply omap_ext_in. intros id Hin. rewrite lookup_insert_ne; [reflexivity|].
    intros <-. apply Hreg in Hin. rewrite fresh_unused in Hin. destruct Hin; discriminate.
  - cbn. rewrite lookup_insert_eq. cbn. rewrite Hhosts. reflexivity.
Qed.

(** The registry in the course of [init]. *)
Lemma init_loop (stored : list Proxy.json) (st : Proxies.t) :
  well_formed st -> sound st ->
  let st' := fold_left Proxies.load stored st in
  well_formed st' /\ sound st'
  /\ registered_hosts st' = (registered_hosts st ++ map Proxy.json_hosts stored)%list.
Proof.
  revert st. induction stored as [|j stored IH]; intros st Hw Hs; cbv zeta.
  - cbn. rewrite app_nil_r. auto.
  - cbn [fold_left map].
    destruct (IH (Proxies.load st j) (load_well_formed st j Hw) (load_sound st j Hw Hs))
      as (Hw' & Hs' & Hr').
    split; [exact Hw'|]. split; [exact Hs'|].
    rewrite Hr', (load_registered_hosts st j Hw), <- app_assoc. reflexivity.
Qed.

Lemma load_indexed (st : Proxies.t) (j : Proxy.json) (h : string) :
  is_Some (Proxies.hosts st !! h) \/ h ∈ Proxy.json_hosts j ->
  is_Some (Proxies.hosts (Proxies.load st j) !! h).
Proof.
  destruct (load_fields st j) as (proxy & _ & _ & _ & Hix).
  rewrite Hix, index_hosts_lookup.
  destruct (decide (h ∈ Proxy.json_hosts j)); [eauto | tauto].
Qed.

Lemma init_loop_indexed (stored : list Proxy.json) (st : Proxies.t) (h : string) :
  is_Some (Proxies.hosts st !! h) \/ (exists j, j ∈ stored /\ h ∈ Proxy.json_hosts j) ->
  is_Some (Proxies.hosts (fold_left Proxies.load stored st) !! h).
Proof.
  revert st. induction stored as [|j stored IH]; intros st H.
  - destruct H as [H | (j & Hj & _)]; [exact H | inversion Hj].
  - cbn [fold_left]. apply IH. destruct H as [H | (j' & Hj' & Hh)].
    + left. apply load_indexed. left. exact H.
    + apply elem_of_cons in Hj'. destruct Hj' as [-> | Hj'].
      * left. apply load_indexed. right. exact Hh.
      * right. exists j'. split; assumption.
Qed.

(** X18: [init] registers one proxy for each stored one, in their order
    and with their hosts; no proxy is registered twice, each entry of the
    host index leads to a registered proxy that lists the host, and the
    hosts of the index are those of the stored proxies. *)
Theorem init_registers_the_stored_proxies (autoRecognize showRedirectNotification : bool)
        (stored : list Proxy.json) :
  let st := Proxies.init autoRecognize showRedirectNotification stored in
  well_formed st
  /\ registered_hosts st = map Proxy.json_hosts stored
  /\ sound st
  /\ (forall h, is_Some (Proxies.hosts st !! h)
                <-> exists j, j ∈ stored /\ h ∈ Proxy.json_hosts j).
Proof.
  cbv zeta. unfold Proxies.init.
  set (st0 := Proxies.Make _ _ _ _ _ _ _ _ _ _ _).
  assert (Hw : well_formed st0).
  { split; [apply NoDup_nil_2 | intros id H; inversion H]. }
  assert (Hs : sound st0).
  { intros h id H. cbn in H. rewrite lookup_empty in H. discriminate. }
  destruct (init_loop stored st0 Hw Hs) as (Hw' & Hs' & Hr').
  split; [exact Hw'|]. split; [exact Hr'|]. split; [exact Hs'|].
  intros h. split.
  - intros [id Hid]. destruct (Hs' h id Hid) as (Hin & q & Hq & Hl).
    assert (Hmem : Proxy.hosts q ∈ registered_hosts (fold_left Proxies.load stored st0)).
    { unfold registered_hosts. apply list_elem_of_omap. exists id. split; [exact Hin|].
      rewrite Hq. reflexivity. }
    rewrite Hr' in Hmem. cbn [registered_hosts app] in Hmem.
    apply list_elem_of_In, in_map_iff in Hmem.
    destruct Hmem as (j & Hj & Hjin). exists j.
    split; [apply list_elem_of_In; exact Hjin|]. rewrite Hj. exact Hl.
  - intros H. apply init_loop_indexed. right. exact H.
Qed.

Lemma save_well_formed (st : Proxies.t) (id : nat) :
  well_formed st -> well_formed (Proxies.save st id).
Proof.
  intros [Hnd Hreg]. destruct (Proxies.heap st !! id) as [proxy|] eqn:Hp.
  2:{ unfold Proxies.save. rewrite Hp. split; assumption. }
  destruct (save_fields st id proxy Hp) as (proxy' & _ & Hheap & Hps & _).
  unfold well_formed. rewrite Hheap, Hps. split.
  - destruct (existsb (Nat.eqb id) (Proxies.proxies st)) eqn:Hex; [exact Hnd|].
    apply NoDup_app. split; [exact Hnd|]. split; [|apply NoDup_singleton].
    intros x Hx Hx'. apply list_elem_of_singleton in Hx'. subst x.
    assert (existsb (Nat.eqb id) (Proxies.proxies st) = true); [|congruence].
    apply existsb_exists. exists id. split; [apply list_elem_of_In; exact Hx | apply Nat.eqb_refl].
  - intros x Hx. destruct (decide (x = id)) as [-> | Hne].
    + rewrite lookup_insert_eq. eauto.
    + rewrite lookup_insert_ne by congruence. apply Hreg.
      destruct (existsb (Nat.eqb id) (Proxies.proxies st)); [exact Hx|].
      apply elem_of_app in Hx. destruct Hx as [Hx | Hx]; [exact Hx|].
      apply list_elem_of_singleton in Hx. contradiction.
Qed.

Lemma campus_well_formed : well_formed campus.
Proof.
  change campus with (Proxies.save unsaved 1%nat). apply save_well_formed.
  split; [apply NoDup_nil_2|]. intros id Hin.
  change (Proxies.proxies unsaved) with (@nil nat) in Hin. now apply elem_of_nil in Hin.
Qed.

Lemma push_host_well_formed (st : Proxies.t) (id : nat) (host : string) :
  well_formed st -> well_formed (Proxies.push_host st id host).
Proof.
  intros [Hnd Hreg]. split; [exact Hnd|]. intros x Hx. cbn.
  apply lookup_alter_is_Some. apply Hreg. exact Hx.
Qed.

Lemma associate_well_formed (st : Proxies.t) (id : nat) (proxy : Proxy.t)
      (m : list (option string)) (status : Z) :
  well_formed st -> well_formed (Observer.associate st id proxy m status).
Proof.
  intros Hw. unfold Observer.associate. destruct (_ && _); [|exact Hw].
  apply save_well_formed, push_host_well_formed. exact Hw.
Qed.

Lemma alloc_fields (st : Proxies.t) (proxy : Proxy.t) :
  let st' := fst (Proxies.alloc st proxy) in
  snd (Proxies.alloc st proxy) = Proxies.fresh (Proxies.heap st)
  /\ Proxies.heap st' = <[Proxies.fresh (Proxies.heap st) := proxy]> (Proxies.heap st)
  /\ Proxies.proxies st' = Proxies.proxies st
  /\ Proxies.hosts st' = Proxies.hosts st.
Proof. cbn. auto. Qed.

Lemma alloc_well_formed (st : Proxies.t) (proxy : Proxy.t) :
  well_formed st -> well_formed (fst (Proxies.alloc st proxy)).
Proof.
  intros [Hnd Hreg]. split; [exact Hnd|]. intros x Hx. cbn.
  destruct (decide (x = Proxies.fresh (Proxies.heap st))) as [-> | Hne].
  - rewrite lookup_insert_eq. eauto.
  - rewrite lookup_insert_ne by congruence. apply Hreg. exact Hx.
Qed.

Lemma alloc_sound (st : Proxies.t) (proxy : Proxy.t) :
  sound st -> sound (fst (Proxies.alloc st proxy)).
Proof.
  intros Hs h id Hh. destruct (Hs h id Hh) as (Hin & q & Hq & Hl).
  split; [exact Hin|]. exists q. split; [|exact Hl]. cbn.
  rewrite lookup_insert_ne; [exact Hq|]. intros <-. rewrite fresh_unused in Hq. discriminate.
Qed.

Lemma start_probe_registry (st : Proxies.t) (u : string) :
  Proxies.heap (Observer.start_probe st u) = Proxies.heap st
  /\ Proxies.proxies (Observer.start_probe st u) = Proxies.proxies st
  /\ Proxies.hosts (Observer.start_probe st u) = Proxies.hosts st.
Proof. cbn. auto. Qed.

Lemma sound_sound_others (id : nat) (st : Proxies.t) : sound st -> sound_others id st.
Proof. intros Hs h id' Hh _. apply Hs. exact Hh. Qed.

(** The loop over the detectors keeps the registry well formed and the
    index sound, and registers at most one proxy. *)
Lemma run_detectors_registry
      (ds : list (Proxies.t -> Details -> completion Detectors.result))
      (st : Proxies.t) (details : Details) :
  well_formed st -> sound st ->
  let st' := Observer.run_detectors ds st details in
  well_formed st' /\ sound st'
  /\ (Proxies.proxies st' = Proxies.proxies st
      \/ exists id, (id ∉ Proxies.proxies st)
                    /\ Proxies.proxies st' = (Proxies.proxies st ++ [id])%list).
Proof.
  revert st. induction ds as [|detector ds IH]; intros st Hw Hs; cbv zeta.
  - cbn. auto.
  - cbn [Observer.run_detectors].
    destruct (detector st details) as [r|e]; [|apply IH; assumption].
    set (st1 := match Detectors.probe r with
                | Some u => Observer.start_probe st u
                | None => st
                end).
    assert (H1 : well_formed st1 /\ sound st1 /\ Proxies.proxies st1 = Proxies.proxies st
                 /\ Proxies.heap st1 = Proxies.heap st).
    { unfold st1. destruct (Detectors.probe r) as [u|]; [|auto].
      split; [exact Hw|]. split; [exact Hs|]. split; reflexivity. }
    destruct H1 as (Hw1 & Hs1 & Hp1 & Hh1).
    destruct (Detectors.found r) as [proxy|].
    + destruct (Proxies.alloc st1 proxy) as [st2 id] eqn:Ha.
      pose proof (alloc_fields st1 proxy) as Hf. rewrite Ha in Hf. cbn [fst snd] in Hf.
      destruct Hf as (Hid & Hheap2 & Hps2 & _).
      pose proof (alloc_well_formed st1 proxy Hw1) as Hw2.
      pose proof (alloc_sound st1 proxy Hs1) as Hs2. rewrite Ha in Hw2, Hs2. cbn [fst] in Hw2, Hs2.
      assert (Hp2 : Proxies.heap st2 !! id = Some proxy).
      { rewrite Hheap2, Hid. apply lookup_insert_eq. }
      split; [apply save_well_formed; exact Hw2|].
      split; [apply (save_sound st2 id proxy Hp2), sound_sound_others; exact Hs2|].
      right. exists id.
      assert (Hnew : id ∉ Proxies.proxies st).
      { intros Hin. destruct Hw as [_ Hreg]. apply Hreg in Hin.
        rewrite Hid, Hh1, fresh_unused in Hin. destruct Hin; discriminate. }
      split; [exact Hnew|].
      destruct (save_fields st2 id proxy Hp2) as (_ & _ & _ & Hps & _).
      rewrite Hps, Hps2, Hp1.
      replace (existsb (Nat.eqb id) (Proxies.proxies st)) with false; [reflexivity|].
      symmetry. apply not_true_is_false. intros Hex. apply existsb_exists in Hex.
      destruct Hex as (x & Hx & Hxe). apply Nat.eqb_eq in Hxe. subst x.
      apply Hnew, list_elem_of_In, Hx.
    + destruct (IH st1 Hw1 Hs1) as (Hw' & Hs' & Hp'). rewrite Hp1 in Hp'. auto.
Qed.

(** X19: [save], [observe] and the deferred detection keep the list of
    proxies free of duplicates and of references to objects that are not
    there; for the detection the host index has to be sound. *)
Theorem registry_stays_well_formed (st : Proxies.t) (d : RawDetails) (id : nat) :
  well_formed st ->
  well_formed (Proxies.save st id)
  /\ well_formed (registry_after st d)
  /\ (sound st -> well_formed (Observer.observe_deferred st d)).
Proof.
  intros Hw. split; [apply save_well_formed; exact Hw|]. split.
  - destruct (observe_registry st d) as [-> | (i & proxy & m & _ & _ & ->)]; [exact Hw|].
    apply associate_well_formed. exact Hw.
  - intros Hs. apply (run_detectors_registry Detectors.all st _ Hw Hs).
Qed.

Lemma registry_stays_well_formed_witness :
  well_formed campus /\ well_formed (registry_after campus archiveRequest).
Proof.
  split; [exact campus_well_formed|].
  apply (registry_stays_well_formed campus archiveRequest 1%nat campus_well_formed).
Defined.

(** X20: the deferred detection keeps the host index sound, and registers
    at most one proxy, which was not registered before, at the end of the
    list. *)
Theorem detection_keeps_the_index_sound (st : Proxies.t) (d : RawDetails) :
  well_formed st -> sound st ->
  let st' := Observer.observe_deferred st d in
  sound st'
  /\ (Proxies.proxies st' = Proxies.proxies st
      \/ exists id, (id ∉ Proxies.proxies st)
                    /\ Proxies.proxies st' = (Proxies.proxies st ++ [id])%list).
Proof.
  intros Hw Hs. cbv zeta.
  destruct (run_detectors_registry Detectors.all st (Observer.processed st d) Hw Hs)
    as (_ & Hs' & Hp').
  split; [exact Hs' | exact Hp'].
Qed.

Lemma detection_keeps_the_index_sound_witness :
  well_formed started /\ sound started /\ sound (Observer.observe_deferred started firstLibrary).
Proof.
  destruct started_well_formed as [Hw Hs].
  split; [exact Hw|]. split; [exact Hs|].
  apply (detection_keeps_the_index_sound started firstLibrary Hw Hs).
Defined.

(** ** A pattern fails where its continuation has no chance *)

Lemma star_loop_hopeless (ic : bool) (P : string -> Prop)
      (body : nat -> string -> captures -> cont -> option (nat * captures))
      (greedy : bool) (k : cont) :
  (forall i s cs k', P s -> (forall j t cs', P t -> k' j t cs' = None) -> body i s cs k' = None) ->
  (forall j t cs, P t -> k j t cs = None) ->
  forall fuel i s cs, P s -> star_loop body greedy k fuel i s cs = None.
Proof.
  intros Hbody Hk. induction fuel as [|fuel IH]; intros i s cs Hs; cbn [star_loop].
  - apply Hk. exact Hs.
  - rewrite (Hk i s cs Hs). rewrite Hbody.
    + destruct greedy; reflexivity.
    + exact Hs.
    + intros j t cs' Ht. destruct (Nat.eqb j i); [reflexivity|]. apply IH. exact Ht.
Qed.

(** When the continuation fails on every string with the property [P],
    and [P] passes from a string to its tail, no pattern can match a
    string with [P]. *)
Lemma rmatch_hopeless (ic : bool) (P : string -> Prop) :
  (forall c t, P (String c t) -> P t) ->
  forall r i s cs k,
    P s -> (forall j t cs', P t -> k j t cs' = None) -> rmatch ic r i s cs k = None.
Proof.
  intros Htail. induction r as [| c | | neg rs | | | r1 IH1 r2 IH2 | r1 IH1 r2 IH2 | g r IH | n r IH];
    intros i s cs k Hs Hk; cbn [rmatch].
  - apply Hk. exact Hs.
  - destruct s as [|x t]; cbn [step_char]; [reflexivity|].
    destruct (chr_eq ic c x); [|reflexivity]. apply Hk. apply (Htail x). exact Hs.
  - unfold step_any. destruct (line_separator_ahead s); [reflexivity|].
    destruct s as [|x t]; cbn [step_char]; [reflexivity|].
    destruct (negb (line_terminator x)); [|reflexivity]. apply Hk. apply (Htail x). exact Hs.
  - destruct s as [|x t]; cbn [step_char]; [reflexivity|].
    destruct (cls_mem ic neg rs x); [|reflexivity]. apply Hk. apply (Htail x). exact Hs.
  - destruct (Nat.eqb i 0); [|reflexivity]. apply Hk. exact Hs.
  - destruct s; [|reflexivity]. apply Hk. exact Hs.
  - apply IH1; [exact Hs|]. intros j t cs' Ht. apply IH2; [exact Ht | exact Hk].
  - rewrite IH1 by assumption. apply IH2; assumption.
  - apply (star_loop_hopeless ic P); [|exact Hk | exact Hs].
    intros i' s' cs' k' Hs' Hk'. apply IH; assumption.
  - apply IH; [exact Hs|]. intros j t cs' Ht. apply Hk. exact Ht.
Qed.

(** ** Strings without an occurrence of a text *)

Lemma find_none_anywhere (pat s : string) (i j : nat) :
  JS.find pat s i = None -> JS.find pat s j = None.
Proof.
  revert i j. induction s as [|c s IH]; intros i j; cbn [JS.find].
  - destruct (JS.prefix pat ""); [discriminate | reflexivity].
  - destruct (JS.prefix pat (String c s)); [discriminate|]. apply IH.
Qed.

Lemma find_none_tail (pat : string) (c : ascii) (t : string) :
  JS.find pat (String c t) 0 = None -> JS.find pat t 0 = None.
Proof.
  cbn [JS.find]. destruct (JS.prefix pat (String c t)); [discriminate|].
  apply find_none_anywhere.
Qed.

Lemma find_none_prefix (pat s : string) : JS.find pat s 0 = None -> JS.prefix pat s = false.
Proof.
  destruct s; cbn [JS.find]; destruct (JS.prefix pat _); (discriminate || reflexivity).
Qed.

Lemma strip_prefix (p s : string) : JS.prefix p s = false -> strip p s = None.
Proof.
  revert s. induction p as [|a p IH]; intros s; [discriminate|].
  destruct s as [|b s]; [reflexivity|]. cbn [JS.prefix strip].
  destruct (Ascii.eqb a b); [apply IH | reflexivity].
Qed.

Lemma indexOf_none (s pat : string) : JS.indexOf s pat 0 = -1 -> JS.find pat s 0 = None.
Proof.
  unfold JS.indexOf. cbn [Z.max Z.to_nat Nat.min JS.drop].
  change (Z.to_nat (Z.max 0 0)) with 0%nat. cbn [Nat.min JS.drop].
  destruct (JS.find pat s 0); [lia | reflexivity].
Qed.

Lemma rmatch_seq_hopeless (ic : bool) (P : string -> Prop) (r1 r2 : regex) (i : nat)
      (s : string) (cs : captures) (k : cont) :
  (forall c t, P (String c t) -> P t) ->
  P s -> (forall j t cs', P t -> rmatch ic r2 j t cs' k = None) ->
  rmatch ic (Seq r1 r2) i s cs k = None.
Proof.
  intros Htail Hs Hk.
  change (rmatch ic (Seq r1 r2) i s cs k)
    with (rmatch ic r1 i s cs (fun i' s' cs' => rmatch ic r2 i' s' cs' k)).
  apply (rmatch_hopeless ic P Htail); assumption.
Qed.

(** ** Juniper *)

(** X21: the Juniper detector proposes nothing for a URL without the text
    [,DanaInfo=]. *)
Theorem Juniper_needs_DanaInfo (st : Proxies.t) (details : Details) :
  JS.indexOf (url details) ",DanaInfo=" 0 = -1 ->
  Detectors.Juniper st details = Return Detectors.declined.
Proof.
  intros Hno. apply indexOf_none in Hno. unfold Detectors.Juniper.
  replace (exec false Detectors.juniperRe (url details)) with (@None (list (option string)));
    [reflexivity|].
  symmetry. unfold exec.
  replace (search false Detectors.juniperRe 0 (url details))
    with (@None (nat * nat * captures)); [reflexivity|].
  symmetry. unfold Detectors.juniperRe. rewrite search_anchored.
  set (P := fun t : string => JS.find ",DanaInfo=" t 0 = None).
  assert (Htail : forall c t, P (String c t) -> P t) by (intros c t; apply find_none_tail).
  rewrite (rmatch_seq_hopeless false P); [reflexivity | exact Htail | exact Hno |].
  intros j1 t1 cs1 H1. apply (rmatch_seq_hopeless false P); [exact Htail | exact H1 |].
  intros j2 t2 cs2 H2. apply (rmatch_seq_hopeless false P); [exact Htail | exact H2 |].
  intros j3 t3 cs3 H3. apply find_none_prefix in H3.
  destruct t3 as [|a0 [|a1 [|a2 [|a3 [|a4 [|a5 [|a6 [|a7 [|a8 [|a9 t3]]]]]]]]]];
    cbn [rmatch step_char chr_eq]; try reflexivity;
    cbn [JS.prefix] in H3;
    repeat match goal with
           | |- context [Ascii.eqb ?a ?b] =>
               destruct (Ascii.eqb a b) eqn:?; cbn [andb] in H3; try reflexivity
           end.
  discriminate.
Qed.

Lemma Juniper_needs_DanaInfo_witness :
  JS.indexOf (url plainPage) ",DanaInfo=" 0 = -1
  /\ Detectors.Juniper campus plainPage = Return Detectors.declined.
Proof.
  assert (H : JS.indexOf (url plainPage) ",DanaInfo=" 0 = -1) by (vm_compute; reflexivity).
  split; [exact H|]. apply (Juniper_needs_DanaInfo campus plainPage H).
Defined.

(** ** What the EZProxy detector proposes *)

(** X22: the EZProxy detector proposes a proxy only for a response with
    the status 302, the [server] header [EZproxy] and a [location] header
    with a protocol; the proxy is the one that [learn] makes of the
    request URL and the location, and no probe is asked for. *)
Theorem EZProxy_proposes_only_on_a_redirect (st : Proxies.t) (details : Details)
        (r : Detectors.result) (proxy : Proxy.t) :
  Detectors.EZProxy st details = Return r -> Detectors.found r = Some proxy ->
  statusCode details = 302
  /\ responseHeaders details !! "server" = Some "EZproxy"
  /\ Detectors.probe r = None
  /\ exists location loginURI proxiedURI,
       responseHeaders details !! "location" = Some location
       /\ Url.parse (url details) = Return loginURI
       /\ Url.parse location = Return proxiedURI
       /\ JS.truthy (Url.protocol proxiedURI) = true
       /\ Detectors.EZProxy_learn st loginURI proxiedURI = Return (Some proxy).
Proof.
  unfold Detectors.EZProxy.
  destruct (Url.parse (url details)) as [uri|e] eqn:Huri; [|discriminate]. cbn [bind].
  match goal with
  | |- context [match ?link with Some probed => _ | None => _ end] =>
      destruct link as [probed|]
  end.
  { intros [= <-]. discriminate. }
  unfold Detectors.try_parse.
  destruct (responseHeaders details !! "location") as [l|] eqn:Hl.
  2:{ intros [= <-]. discriminate. }
  destruct (Url.parse l) as [proxiedURI|e] eqn:Hparse.
  2:{ intros [= <-]. discriminate. }
  destruct (negb (JS.truthy (Url.protocol proxiedURI))) eqn:Hproto; cbn [orb].
  { intros [= <-]. discriminate. }
  destruct (negb (statusCode details =? 302)) eqn:Hstatus; cbn [orb].
  { intros [= <-]. discriminate. }
  destruct (negb (JS.loose_eq (responseHeaders details !! "server") (Some "EZproxy")))
    eqn:Hserver.
  { intros [= <-]. discriminate. }
  cbn [bind].
  destruct (Detectors.EZProxy_learn st uri proxiedURI)
    as [learned|e] eqn:Hlearn; cbn [bind]; [|discriminate].
  intros [= <-]. cbn [Detectors.found Detectors.probe]. intros ->.
  apply negb_false_iff in Hproto, Hstatus, Hserver. apply Z.eqb_eq in Hstatus.
  split; [exact Hstatus|]. split.
  - destruct (responseHeaders details !! "server") as [v|]; [|discriminate].
    cbn in Hserver. apply String.eqb_eq in Hserver. subst v. reflexivity.
  - split; [reflexivity|]. exists l, uri, proxiedURI. auto.
Qed.

Lemma EZProxy_proposes_only_on_a_redirect_witness :
  Detectors.EZProxy started (Observer.processed started firstLibrary)
  = Return {| Detectors.found := Some firstLibraryProxy; Detectors.probe := None |}
  /\ statusCode (Observer.processed started firstLibrary) = 302.
Proof.
  assert (H : Detectors.EZProxy started (Observer.processed started firstLibrary)
              = Return {| Detectors.found := Some firstLibraryProxy; Detectors.probe := None |})
    by (vm_compute; reflexivity).
  split; [exact H|].
  apply (EZProxy_proposes_only_on_a_redirect started _ _ firstLibraryProxy H). reflexivity.
Defined.

(** X23: a proxy that [learn] proposes is not compiled and lists one
    host; it is multi-host with automatic association when the login and
    the proxied host names differ, and neither otherwise; its scheme is
    the protocol of the proxied URL, [//], an authority and [/%p], where
    the authority of a single-host proxy is the host of the proxied URL. *)
Theorem learn_proposes_a_path_scheme_for_one_host (st : Proxies.t)
        (loginURI proxiedURI : Url.t) (proxy : Proxy.t) :
  Detectors.EZProxy_learn st loginURI proxiedURI = Return (Some proxy) ->
  Proxy.regexp proxy = None
  /\ (exists host, Proxy.hosts proxy = [host])
  /\ Proxy.autoAssociate proxy = Proxy.multiHost proxy
  /\ Proxy.multiHost proxy
     = negb (JS.loose_eq (Url.hostname loginURI) (Url.hostname proxiedURI))
  /\ exists authority,
       Proxy.scheme proxy
       = JS.str_null (Url.protocol proxiedURI) +:+ "//" +:+ authority +:+ "/%p"
       /\ (Proxy.multiHost proxy = false -> authority = JS.str_null (Url.host proxiedURI)).
Proof.
  unfold Detectors.EZProxy_learn.
  destruct (exec true Detectors.queryRe _) as [m|]; [|discriminate].
  destruct (JS.truthy (Proxies.proxyToProper st (Url.href proxiedURI) true)); [discriminate|].
  destruct (if String.eqb _ "qurl" then _ else _) as [properURL|e]; cbn [bind]; [|discriminate].
  destruct (Url.parse properURL) as [properURI|e]; cbn [bind]; [|discriminate].
  destruct (negb (JS.truthy (Url.protocol properURI))); [discriminate|].
  destruct (JS.loose_eq (Url.hostname loginURI) (Url.hostname proxiedURI)) eqn:Hsame.
  - destruct (negb (JS.truthy (Url.port proxiedURI)) || _); cbn [andb].
    + intros [= <-]. cbn. split; [reflexivity|]. split; [eauto|]. split; [reflexivity|].
      split; [reflexivity|]. exists (JS.str_null (Url.host proxiedURI)). auto.
    + assert (Hsame' : JS.loose_eq (Url.hostname proxiedURI) (Url.hostname loginURI) = true).
      { destruct (Url.hostname loginURI), (Url.hostname proxiedURI); cbn in *;
          try discriminate; try reflexivity.
        rewrite String.eqb_sym. exact Hsame. }
      rewrite Hsame'. discriminate.
  - cbn [andb].
    destruct (negb (JS.loose_eq (Url.hostname proxiedURI) (Url.hostname loginURI)));
      [|discriminate].
    destruct (Url.host proxiedURI) as [proxiedHost|]; [|discriminate].
    destruct (negb (JS.indexOf proxiedHost _ 0 =? -1)); [|discriminate].
    intros [= <-]. cbn. split; [reflexivity|]. split; [eauto|]. split; [reflexivity|].
    split; [reflexivity|].
    exists (JS.replace_first proxiedHost (JS.str_null (Url.hostname properURI)) "%h").
    split; [reflexivity | discriminate].
Qed.

Lemma learn_proposes_a_path_scheme_for_one_host_witness :
  (do loginURI <-
     Url.parse "https://login.ezproxy.example.edu/login?url=http://journal.example.org/path";
   do proxiedURI <- Url.parse "http://journal.example.org.ezproxy.example.edu/path";
   Detectors.EZProxy_learn started loginURI proxiedURI)
  = Return (Some firstLibraryProxy)
  /\ exists host, Proxy.hosts firstLibraryProxy = [host].
Proof.
  destruct (Url.parse "https://login.ezproxy.example.edu/login?url=http://journal.example.org/path")
    as [loginURI|e] eqn:Hlogin; [|vm_compute in Hlogin; discriminate Hlogin].
  destruct (Url.parse "http://journal.example.org.ezproxy.example.edu/path")
    as [proxiedURI|e] eqn:Hproxied; [|vm_compute in Hproxied; discriminate Hproxied].
  vm_compute in Hlogin, Hproxied. injection Hlogin as <-. injection Hproxied as <-.
  cbn [bind].
  match goal with
  | |- ?learn = _ /\ _ =>
      assert (H : learn = Return (Some firstLibraryProxy)) by (vm_compute; reflexivity)
  end.
  split; [exact H|].
  apply (learn_proposes_a_path_scheme_for_one_host started _ _ firstLibraryProxy H).
Defined.

Lemma port_differs (login proxied : option string) :
  proxied <> login ->
  negb (JS.truthy proxied) || Detectors.port_not_in [JS.of_option login] proxied = true.
Proof.
  intros Hne. destruct proxied as [p|]; [|reflexivity].
  destruct (JS.truthy (Some p)); [|reflexivity]. cbn [negb orb].
  unfold Detectors.port_not_in, JS.array_indexOf. cbn [app JS.array_indexOf_from JS.of_option].
  destruct login as [l|]; cbn [JS.of_option JS.strict_eq]; [|reflexivity].
  destruct (String.eqb l p) eqn:E; [|reflexivity].
  apply String.eqb_eq in E. subst l. contradiction.
Qed.

(** X24: the ports [80] and [443] are not excluded from the proxies by
    port: the list that [learn] searches holds them as numbers and the
    port of a parsed URL is a string.  When the login and the proxied URL
    have the same host name and different ports, [learn] proposes the
    single-host proxy for the proxied host, whatever the port. *)
Theorem learn_by_port_whatever_the_port (st : Proxies.t) (loginURI proxiedURI : Url.t)
        (m : list (option string)) (properURI : Url.t) :
  exec true Detectors.queryRe (JS.str_null (Url.query loginURI)) = Some m ->
  JS.toLowerCase (JS.str_undefined (RegExp.group m 1)) <> "qurl" ->
  Url.parse (JS.str_undefined (RegExp.group m 2)) = Return properURI ->
  JS.truthy (Url.protocol properURI) = true ->
  Proxies.proxyToProper st (Url.href proxiedURI) true = None ->
  Url.hostname loginURI = Url.hostname proxiedURI ->
  Url.port proxiedURI <> Url.port loginURI ->
  Detectors.EZProxy_learn st loginURI proxiedURI
  = Return (Some
      {| Proxy.hosts := [JS.str_null (Url.host properURI)];
         Proxy.multiHost := false;
         Proxy.autoAssociate := false;
         Proxy.scheme := JS.str_null (Url.protocol proxiedURI) +:+ "//"
                         +:+ JS.str_null (Url.host proxiedURI) +:+ "/%p";
         Proxy.regexp := None; Proxy.parameters := nil; Proxy.indices := ∅ |}).
Proof.
  intros Hm Hq Hparse Hproto Hnew Hhost Hport. unfold Detectors.EZProxy_learn.
  rewrite Hm, Hnew. cbn [JS.truthy].
  replace (String.eqb (JS.toLowerCase (JS.str_undefined (group m 1))) "qurl") with false
    by (symmetry; apply String.eqb_neq; exact Hq).
  cbn [bind]. rewrite Hparse. cbn [bind]. rewrite Hproto. cbn [negb].
  rewrite Hhost, loose_eq_refl. cbn [andb].
  rewrite (port_differs _ _ Hport). reflexivity.
Qed.

Lemma learn_by_port_whatever_the_port_witness :
  (do proxiedURI <- Url.parse "http://ezproxy.example.edu:443/path";
   Return (Url.port proxiedURI)) = Return (Some "443")
  /\ (do loginURI <-
        Url.parse "http://ezproxy.example.edu:2048/login?url=http://journal.example.org/path";
      do proxiedURI <- Url.parse "http://ezproxy.example.edu:443/path";
      Detectors.EZProxy_learn started loginURI proxiedURI)
     = Return (Some
         {| Proxy.hosts := ["journal.example.org"]; Proxy.multiHost := false;
            Proxy.autoAssociate := false; Proxy.scheme := "http://ezproxy.example.edu:443/%p";
            Proxy.regexp := None; Proxy.parameters := nil; Proxy.indices := ∅ |}).
Proof.
  split; [vm_compute; reflexivity|].
  destruct (Url.parse "http://ezproxy.example.edu:2048/login?url=http://journal.example.org/path")
    as [loginURI|e] eqn:Hlogin; [|vm_compute in Hlogin; discriminate Hlogin].
  destruct (Url.parse "http://ezproxy.example.edu:443/path")
    as [proxiedURI|e] eqn:Hproxied; [|vm_compute in Hproxied; discriminate Hproxied].
  destruct (Url.parse "http://journal.example.org/path")
    as [properURI|e] eqn:Hproper; [|vm_compute in Hproper; discriminate Hproper].
  vm_compute in Hlogin, Hproxied. injection Hlogin as <-. injection Hproxied as <-.
  cbn [bind].
  rewrite (learn_by_port_whatever_the_port started _ _
             [Some "url=http://journal.example.org/path"; Some "url";
              Some "http://journal.example.org/path"] properURI);
    [vm_compute in Hproper; injection Hproper as <-; vm_compute; reflexivity
    | vm_compute; reflexivity | vm_compute; discriminate | exact Hproper
    | vm_compute in Hproper; injection Hproper as <-; vm_compute; reflexivity
    | vm_compute; reflexivity | vm_compute; reflexivity | vm_compute; discriminate].
Defined.

(** With the [i] flag a lower-case letter of the pattern, or [=], is
    compared with the lower-case form of the character. *)
Lemma chr_eq_u (c : ascii) : chr_eq true "u" c = Ascii.eqb "u" (JS.lower c).
Proof. destruct c as [[] [] [] [] [] [] [] []]; reflexivity. Qed.
Lemma chr_eq_r (c : ascii) : chr_eq true "r" c = Ascii.eqb "r" (JS.lower c).
Proof. destruct c as [[] [] [] [] [] [] [] []]; reflexivity. Qed.
Lemma chr_eq_l (c : ascii) : chr_eq true "l" c = Ascii.eqb "l" (JS.lower c).
Proof. destruct c as [[] [] [] [] [] [] [] []]; reflexivity. Qed.
Lemma chr_eq_equals (c : ascii) : chr_eq true "=" c = Ascii.eqb "=" (JS.lower c).
Proof. destruct c as [[] [] [] [] [] [] [] []]; reflexivity. Qed.

Lemma queryRe_not_here (s : string) (i : nat) (cs : captures) (k : cont) :
  JS.prefix "url=" (JS.toLowerCase s) = false ->
  match s with
  | String _ t => JS.prefix "url=" (JS.toLowerCase t) = false
  | EmptyString => True
  end ->
  rmatch true Detectors.queryRe i s cs k = None.
Proof.
  intros H0 H1. unfold Detectors.queryRe.
  destruct s as [|c0 [|c1 [|c2 [|c3 [|c4 s]]]]];
    cbn [rmatch step_char]; rewrite ?chr_eq_u, ?chr_eq_r, ?chr_eq_l, ?chr_eq_equals;
    cbn [JS.toLowerCase JS.prefix] in H0, H1;
    repeat match goal with
           | |- context [Ascii.eqb ?a (JS.lower ?b)] =>
               destruct (Ascii.eqb a (JS.lower b)) eqn:?;
               cbn [andb] in H0, H1; try discriminate; try reflexivity
           | |- context [chr_eq true "q" ?b] =>
               destruct (chr_eq true "q" b); try reflexivity
           end;
    try reflexivity.
Qed.

Lemma queryRe_search_none (s : string) (i : nat) :
  JS.find "url=" (JS.toLowerCase s) 0 = None -> search true Detectors.queryRe i s = None.
Proof.
  revert i. induction s as [|c s IH]; intros i H.
  - cbn [search]. rewrite queryRe_not_here; [reflexivity | reflexivity | exact I].
  - cbn [search]. cbn [JS.toLowerCase] in H.
    pose proof (find_none_tail _ _ _ H) as Ht.
    rewrite queryRe_not_here.
    + apply IH. exact Ht.
    + apply (find_none_prefix _ _ H).
    + apply (find_none_prefix _ _ Ht).
Qed.

(** X25: [learn] proposes nothing when the query of the login URL does
    not have [url=] in it, in either case of the letters. *)
Theorem learn_needs_a_url_parameter (st : Proxies.t) (loginURI proxiedURI : Url.t) :
  JS.indexOf (JS.toLowerCase (JS.str_null (Url.query loginURI))) "url=" 0 = -1 ->
  Detectors.EZProxy_learn st loginURI proxiedURI = Return None.
Proof.
  intros H. apply indexOf_none in H. unfold Detectors.EZProxy_learn, exec.
  rewrite (queryRe_search_none _ 0 H). reflexivity.
Qed.

Lemma learn_needs_a_url_parameter_witness :
  (do loginURI <- Url.parse "http://ezproxy.example.edu/login?user=reader";
   do proxiedURI <- Url.parse "http://ezproxy.example.edu:2048/path";
   Detectors.EZProxy_learn started loginURI proxiedURI) = Return None.
Proof.
  destruct (Url.parse "http://ezproxy.example.edu/login?user=reader")
    as [loginURI|e] eqn:Hlogin; [|vm_compute in Hlogin; discriminate Hlogin].
  destruct (Url.parse "http://ezproxy.example.edu:2048/path")
    as [proxiedURI|e] eqn:Hproxied; [|vm_compute in Hproxied; discriminate Hproxied].
  vm_compute in Hlogin. injection Hlogin as <-. cbn [bind].
  apply learn_needs_a_url_parameter. vm_compute. reflexivity.
Defined.

(** ** The check of the domain *)

Lemma hostnames_disable_true (disableByDomain : option string) (hostnames : list string)
      (host : string) :
  host ∈ hostnames ->
  JS.indexOf (JS.toLowerCase host) (JS.str_null disableByDomain) 0 <> -1 ->
  Proxies.hostnames_disable disableByDomain hostnames = true.
Proof.
  induction hostnames as [|h hs IH]; intros Hin Hfound; [inversion Hin|].
  cbn [Proxies.hostnames_disable].
  destruct (negb (JS.indexOf (JS.toLowerCase h) (JS.str_null disableByDomain) 0 =? -1)) eqn:E;
    [reflexivity|].
  apply elem_of_cons in Hin. destruct Hin as [-> | Hin]; [|apply IH; assumption].
  apply negb_false_iff, Z.eqb_eq in E. contradiction.
Qed.

(** X26: when the redirects are not to be disabled by domain the domain
    is [null], and [indexOf] searches the host names for the text [null]:
    a host name of this computer that has [null] in it disables the
    redirects, and [observe] redirects no request after that: it returns
    nothing for a request whose URL [url.parse] accepts. *)
Theorem a_hostname_with_null_disables_redirects (st : Proxies.t) (c : Proxies.domains)
        (transparent disableByDomainPref : bool) (disableByDomainString : string)
        (now : Z) (hostnames : list string) (host : string) (d : RawDetails) :
  Proxies.disableByDomain c
  = Proxies.disableByDomain_init transparent disableByDomainPref disableByDomainString ->
  transparent && disableByDomainPref = false ->
  15 * 60 * 1000 < now - Proxies.lastIPCheck c ->
  host ∈ hostnames -> JS.indexOf (JS.toLowerCase host) "null" 0 <> -1 ->
  let st' := fst (Proxies.updateDisabledByDomain st c now (Some hostnames)) in
  Proxies.disabledByDomain st' = true
  /\ verdict_of (answer st' d) = NoRedirect
  /\ (forall requestURI,
        Url.parse (raw_url d) = Return requestURI -> answer st' d = Return None).
Proof.
  intros Hinit Hoff Hdue Hin Hnull. cbv zeta.
  assert (Hdis : Proxies.disabledByDomain
                   (fst (Proxies.updateDisabledByDomain st c now (Some hostnames))) = true).
  { unfold Proxies.updateDisabledByDomain.
    replace (15 * 60 * 1000 <? now - Proxies.lastIPCheck c) with true
      by (symmetry; apply Z.ltb_lt; exact Hdue).
    cbn [fst Proxies.disabledByDomain].
    apply (hostnames_disable_true _ _ host Hin).
    rewrite Hinit. unfold Proxies.disableByDomain_init. rewrite Hoff. exact Hnull. }
  split; [exact Hdis|]. split.
  - destruct (observe_disabled _ d Hdis) as [-> | (e & _ & ->)]; reflexivity.
  - intros requestURI Hparse.
    destruct (observe_disabled _ d Hdis) as [H | (e & He & _)]; [exact H|].
    rewrite Hparse in He. discriminate He.
Qed.

Lemma a_hostname_with_null_disables_redirects_witness :
  Proxies.disableByDomain noDomain = None
  /\ answer (fst (Proxies.updateDisabledByDomain campus noDomain 1000000
                    (Some ["nullpointer.example.com"])))
       abstractRequest
     = Return None.
Proof.
  split; [reflexivity|].
  destruct (Url.parse (raw_url abstractRequest)) as [requestURI|e] eqn:Hparse;
    [|vm_compute in Hparse; discriminate Hparse].
  refine (proj2 (proj2 (a_hostname_with_null_disables_redirects campus noDomain true false
                          "example.edu" 1000000 ["nullpointer.example.com"]
                          "nullpointer.example.com" abstractRequest _ _ _ _ _))
            requestURI Hparse).
  - reflexivity.
  - reflexivity.
  - cbn. lia.
  - apply list_elem_of_singleton. reflexivity.
  - vm_compute. discriminate.
Defined.

Lemma lower_not_upper' (c : ascii) : not_upper (JS.lower c) = true.
Proof. unfold not_upper. rewrite lower_not_upper. reflexivity. Qed.

Lemma toLowerCase_not_upper (s : string) : all_chars not_upper (JS.toLowerCase s) = true.
Proof.
  induction s as [|c s IH]; [reflexivity|]. cbn. rewrite lower_not_upper', IH. reflexivity.
Qed.

Lemma prefix_all_chars (p : ascii -> bool) (pat s : string) :
  JS.prefix pat s = true -> all_chars p s = true -> all_chars p pat = true.
Proof.
  revert s. induction pat as [|a pat IH]; intros s Hpre Hs; [reflexivity|].
  destruct s as [|b s]; [discriminate|]. cbn in Hpre, Hs |- *.
  apply andb_prop in Hpre as [Hab Hpre]. apply andb_prop in Hs as [Hb Hs].
  apply Ascii.eqb_eq in Hab. subst b. rewrite Hb. cbn. apply (IH s); assumption.
Qed.

Lemma find_all_chars (p : ascii -> bool) (pat s : string) (i j : nat) :
  JS.find pat s i = Some j -> all_chars p s = true -> all_chars p pat = true.
Proof.
  revert i. induction s as [|c s IH]; intros i; cbn [JS.find].
  - destruct (JS.prefix pat "") eqn:E; [|discriminate]. intros _ Hs.
    apply (prefix_all_chars p pat "" E Hs).
  - destruct (JS.prefix pat (String c s)) eqn:E.
    + intros _ Hs. apply (prefix_all_chars p pat _ E Hs).
    + intros Hf Hs. apply (IH (S i) Hf). apply (all_chars_tail p c s Hs).
Qed.

(** X27: the host names are put in lower case and the domain is not: a
    domain with an upper-case letter disables nothing. *)
Theorem an_upper_case_domain_never_disables (pattern : string) (hostnames : list string) :
  all_chars not_upper pattern = false ->
  Proxies.hostnames_disable (Some pattern) hostnames = false.
Proof.
  intros Hup. induction hostnames as [|h hs IH]; [reflexivity|].
  cbn [Proxies.hostnames_disable JS.str_null].
  replace (JS.indexOf (JS.toLowerCase h) pattern 0) with (-1); [exact IH|].
  symmetry. rewrite indexOf_0.
  destruct (JS.find pattern (JS.toLowerCase h) 0) as [j|] eqn:Hf; [|reflexivity].
  pose proof (find_all_chars not_upper _ _ _ _ Hf (toLowerCase_not_upper h)) as Hlow.
  congruence.
Qed.

Lemma an_upper_case_domain_never_disables_witness :
  all_chars not_upper "Example.edu" = false
  /\ Proxies.hostnames_disable (Some "Example.edu") ["host.example.edu"] = false.
Proof.
  assert (H : all_chars not_upper "Example.edu" = false) by (vm_compute; reflexivity).
  split; [exact H|]. apply (an_upper_case_domain_never_disables _ _ H).
Defined.

(** X28: a check that is due and finds the redirects disabled leaves the
    time of the last check as it was, so the next call checks again; a
    check that finds them enabled records the time, and the calls of the
    next fifteen minutes change nothing, whatever the host names. *)
Theorem the_check_is_repeated_while_disabled (st : Proxies.t) (c : Proxies.domains)
        (now : Z) (hostnames : list string) :
  15 * 60 * 1000 < now - Proxies.lastIPCheck c ->
  let st' := fst (Proxies.updateDisabledByDomain st c now (Some hostnames)) in
  let c' := snd (Proxies.updateDisabledByDomain st c now (Some hostnames)) in
  (Proxies.disabledByDomain st' = true -> c' = c)
  /\ (Proxies.disabledByDomain st' = false ->
      Proxies.lastIPCheck c' = now
      /\ forall later answer,
           later - now <= 15 * 60 * 1000 ->
           Proxies.updateDisabledByDomain st' c' later answer = (st', c')).
Proof.
  intros Hdue. cbv zeta.
  destruct (Proxies.updateDisabledByDomain st c now (Some hostnames)) as [st' c'] eqn:E.
  unfold Proxies.updateDisabledByDomain in E.
  replace (15 * 60 * 1000 <? now - Proxies.lastIPCheck c) with true in E
    by (symmetry; apply Z.ltb_lt; exact Hdue).
  injection E as <- <-. cbn [fst snd Proxies.disabledByDomain].
  destruct (Proxies.hostnames_disable (Proxies.disableByDomain c) hostnames);
    (split; [intros H; try discriminate; reflexivity|]); intros H; try discriminate.
  split; [reflexivity|]. intros later answer Hlater.
  unfold Proxies.updateDisabledByDomain. cbn [Proxies.lastIPCheck].
  replace (15 * 60 * 1000 <? later - now) with false
    by (symmetry; apply Z.ltb_ge; exact Hlater).
  reflexivity.
Qed.

Lemma the_check_is_repeated_while_disabled_witness :
  snd (Proxies.updateDisabledByDomain campus campusDomain 1000000 (Some ["host.example.edu"]))
  = campusDomain.
Proof.
  apply (the_check_is_repeated_while_disabled campus campusDomain 1000000 ["host.example.edu"]).
  - cbn. lia.
  - vm_compute. reflexivity.
Defined.

(** ** The listener of a probe *)

Lemma probe_event_keeps_registry (st : Proxies.t) (requestURL : string) (event : probe_event) :
  match event with
  | HeadersReceived details =>
      Detectors.EZProxy_Listener_registry_onHeadersReceived st details
  | ErrorOccurred => Detectors.EZProxy_Listener_onErrorOccurred st requestURL
  end = st.
Proof.
  destruct event as [details|]; [|reflexivity].
  unfold Detectors.EZProxy_Listener_registry_onHeadersReceived.
  destruct (Detectors.EZProxy_Listener_onHeadersReceived st details) as [[|]|]; reflexivity.
Qed.

(** X29: the URL of a probe stays in the set of ignored URLs: the
    listener calls [deregister] with no argument, or with an array, and
    neither is an element of the set.  Whatever happens to the probe,
    [observe] returns at once for a later request of that URL. *)
Theorem a_probed_url_stays_ignored (st : Proxies.t) (requestURL : string)
        (events : list probe_event) (d : RawDetails) :
  raw_url d = requestURL ->
  let st' := after_probe_events (Observer.start_probe st requestURL) requestURL events in
  requestURL ∈ Proxies._ignoreURLs st'
  /\ Observer.observe st' d = (st', Return None, false).
Proof.
  intros Hurl. cbv zeta.
  assert (Hsame : after_probe_events (Observer.start_probe st requestURL) requestURL events
                  = Observer.start_probe st requestURL).
  { unfold after_probe_events. generalize (Observer.start_probe st requestURL) as st0.
    induction events as [|event events IH]; intros st0; [reflexivity|].
    cbn [fold_left]. rewrite probe_event_keeps_registry. apply IH. }
  rewrite Hsame.
  assert (Hin : requestURL ∈ Proxies._ignoreURLs (Observer.start_probe st requestURL)).
  { cbn. apply elem_of_union. left. apply elem_of_singleton. reflexivity. }
  split; [exact Hin|].
  unfold Observer.observe. rewrite Hurl, bool_decide_eq_true_2 by exact Hin. reflexivity.
Qed.

Lemma a_probed_url_stays_ignored_witness :
  "http://ezproxy.example.edu:2048/path"
  ∈ Proxies._ignoreURLs
      (after_probe_events (Observer.start_probe started "http://ezproxy.example.edu:2048/path")
         "http://ezproxy.example.edu:2048/path" [ErrorOccurred]).
Proof.
  apply (a_probed_url_stays_ignored started "http://ezproxy.example.edu:2048/path"
           [ErrorOccurred]
           {| raw_url := "http://ezproxy.example.edu:2048/path"; raw_statusCode := 200;
              raw_requestID := "9"; raw_responseHeaders := nil; raw_originUrl := None |}).
  reflexivity.
Defined.
